(** * Recent-file locator of [collect_nse_csv.py]

    A shallow embedding of [src/collect_nse_csv.py]: the file system is a
    finite tree of directories and files, every library call the script
    makes ([pathlib], [os.walk], [shutil]) is a function over that tree, and
    the script's own functions are transcribed on top of them, one
    definition per Python function and under the same name.

    Conventions of the model
    - strings are ASCII; [str.lower] and [str.upper] act on the 26 letters;
    - time stamps ([time.time()], [st_mtime]) are integers, in seconds;
    - paths are absolute and already resolved (the tree has no symbolic
      links): an anchor (["/"], or a drive root such as ["C:\"]) and the
      list of the components below it.  A path names a place of the tree;
      the one path the script builds from a string it does not control,
      [data_dir / fixed_name], is held as the place the operating system
      takes it for ([place]), and that place is what the run returns;
    - a name of the tree is a directory, a regular file, or a name that
      cannot be examined; pipes, sockets and devices are left out;
    - the tree does not change during one scan, other than by the script's
      own actions; operations of the operating system that may fail for a
      reason the tree does not show (permissions on write, a cross-device
      rename) fail when the record of the surroundings says so, and so
      does [print], which fails on a standard output that is closed or
      cannot encode a character;
    - the message of an error of the operating system is given without
      the file name it ends with;
    - [pathlib] is modelled as in CPython 3.11. *)

From Stdlib Require Import List String Ascii ZArith Bool Arith Lia.
From Stdlib Require Import Strings.Byte.
From Stdlib Require Import Permutation Sorted.
From Stdlib Require Import DecimalString.
Import ListNotations.

Local Set Warnings "-register-all".

Local Open Scope string_scope.
Local Open Scope list_scope.

(* ================================================================== *)
(** ** Strings *)
(* ================================================================== *)

Module Str.

Definition is_upper (c : ascii) : bool :=
  (65 <=? nat_of_ascii c)%nat && (nat_of_ascii c <=? 90)%nat.

Definition is_lower (c : ascii) : bool :=
  (97 <=? nat_of_ascii c)%nat && (nat_of_ascii c <=? 122)%nat.

Definition lower_char (c : ascii) : ascii :=
  if is_upper c then ascii_of_nat (nat_of_ascii c + 32) else c.

Definition upper_char (c : ascii) : ascii :=
  if is_lower c then ascii_of_nat (nat_of_ascii c - 32) else c.

Fixpoint map_chars (f : ascii -> ascii) (s : string) : string :=
  match s with
  | EmptyString => EmptyString
  | String c r => String (f c) (map_chars f r)
  end.

(** [s.lower()] and [s.upper()]. *)
Definition lower : string -> string := map_chars lower_char.
Definition upper : string -> string := map_chars upper_char.

(** [s.endswith(suf)]. *)
Definition endswith (s suf : string) : bool :=
  (String.length suf <=? String.length s)%nat &&
  String.eqb (substring (String.length s - String.length suf)
                        (String.length suf) s) suf.

(** [s.rfind(c)]: the index of the last occurrence of [c]. *)
Fixpoint rfind (c : ascii) (s : string) : option nat :=
  match s with
  | EmptyString => None
  | String a r =>
      match rfind c r with
      | Some i => Some (S i)
      | None => if Ascii.eqb a c then Some 0%nat else None
      end
  end.

(** [sep.join(l)]. *)
Fixpoint join (sep : string) (l : list string) : string :=
  match l with
  | [] => ""
  | [x] => x
  | x :: r => (x ++ sep ++ join sep r)%string
  end.

(** [s.split(sep)] for a one-character separator. *)
Fixpoint split_on (sep : ascii -> bool) (s : string) : list string :=
  match s with
  | EmptyString => [""]
  | String c r =>
      if sep c then "" :: split_on sep r
      else match split_on sep r with
           | [] => [String c ""]
           | w :: ws => String c w :: ws
           end
  end.

(** [sub in s]. *)
Definition contains (s sub : string) : Prop :=
  exists pre post : string, s = (pre ++ sub ++ post)%string.

Definition mem (x : string) (l : list string) : bool :=
  existsb (String.eqb x) l.

End Str.

(* ================================================================== *)
(** ** [fnmatch.fnmatchcase] *)
(* ================================================================== *)

Module Fnmatch.

(** One item of a bracket expression. *)
Inductive item :=
| Single (c : ascii)
| Range (lo hi : ascii).

(** The pieces [fnmatch.translate] cuts a pattern into. *)
Inductive token :=
| TStar
| TAny
| TLit (c : ascii)
| TClass (negated : bool) (items : list item).

(** The text of a bracket expression, from the character after ["["] (and
    after a leading ["!"]): a ["]"] in first position is an ordinary
    character, the expression ends at the next ["]"].  Returns the text
    and the number of characters read, closing bracket included. *)
Fixpoint until_close (first : bool) (s : list ascii)
  : option (list ascii * nat) :=
  match s with
  | [] => None
  | c :: r =>
      if Ascii.eqb c "]" && negb first then Some ([], 1%nat)
      else match until_close false r with
           | Some (body, n) => Some (c :: body, S n)
           | None => None
           end
  end.

(** Ranges [x-y] are read left to right; a ["-"] that is first or last is
    an ordinary character. *)
Fixpoint items_of (s : list ascii) : list item :=
  match s with
  | [] => []
  | x :: t =>
      match t with
      | m :: y :: r =>
          if Ascii.eqb m "-" then Range x y :: items_of r
          else Single x :: items_of t
      | _ => Single x :: items_of t
      end
  end.

Definition parse_class (s : list ascii) : option (bool * list item * nat) :=
  match s with
  | "!"%char :: r =>
      match until_close true r with
      | Some (body, n) => Some (true, items_of body, S n)
      | None => None
      end
  | _ =>
      match until_close true s with
      | Some (body, n) => Some (false, items_of body, n)
      | None => None
      end
  end.

(** [skip] counts the characters of a bracket expression still to pass. *)
Fixpoint tokens (skip : nat) (s : list ascii) : list token :=
  match s with
  | [] => []
  | c :: r =>
      match skip with
      | S k => tokens k r
      | O =>
          if Ascii.eqb c "*" then TStar :: tokens 0 r
          else if Ascii.eqb c "?" then TAny :: tokens 0 r
          else if Ascii.eqb c "[" then
            match parse_class r with
            | Some (neg, its, n) => TClass neg its :: tokens n r
            | None => TLit c :: tokens 0 r
            end
          else TLit c :: tokens 0 r
      end
  end.

Definition in_item (c : ascii) (i : item) : bool :=
  match i with
  | Single x => Ascii.eqb c x
  | Range lo hi =>
      (nat_of_ascii lo <=? nat_of_ascii c)%nat &&
      (nat_of_ascii c <=? nat_of_ascii hi)%nat
  end.

Definition in_class (neg : bool) (its : list item) (c : ascii) : bool :=
  xorb neg (existsb (in_item c) its).

Fixpoint matches (ts : list token) (s : list ascii) {struct ts} : bool :=
  match ts with
  | [] => match s with [] => true | _ => false end
  | TStar :: ts' =>
      (fix star (s : list ascii) : bool :=
         matches ts' s ||
         match s with
         | [] => false
         | _ :: s' => star s'
         end) s
  | TAny :: ts' =>
      match s with
      | [] => false
      | _ :: s' => matches ts' s'
      end
  | TLit c :: ts' =>
      match s with
      | [] => false
      | a :: s' => Ascii.eqb a c && matches ts' s'
      end
  | TClass neg its :: ts' =>
      match s with
      | [] => false
      | a :: s' => in_class neg its a && matches ts' s'
      end
  end.

(** [fnmatch.fnmatchcase(name, pat)]. *)
Definition fnmatchcase (name pat : string) : bool :=
  matches (tokens 0 (list_ascii_of_string pat)) (list_ascii_of_string name).

End Fnmatch.

(* ================================================================== *)
(** ** Exceptions *)
(* ================================================================== *)

(** The Python exceptions the model tells apart, by class.  [OSError]
    stands for the classes of [OSError] other than [FileNotFoundError]
    ([NotADirectoryError], [IsADirectoryError], [PermissionError], ...),
    [ShutilError] for [shutil.Error] and its [SameFileError]. *)
Inductive exn :=
| FileNotFoundError (msg : string)
| OSError (msg : string)
| ShutilError (msg : string)
| ValueError (msg : string)
| UnicodeEncodeError (msg : string)
| OverflowError (msg : string)
| OtherError (msg : string).

(** What a call of the library fails with, when the reason lies with the
    operating system and not with the script. *)
Inductive failure :=
| NoSuchFile                     (* ENOENT *)
| NotADirectory                  (* ENOTDIR *)
| IsADirectory                   (* EISDIR *)
| PermissionDenied               (* EACCES *)
| OSFailure (msg : string)       (* another [OSError] *)
| NullByte                       (* a NUL in a file name *)
| ClosedFile                     (* a stream that was closed *)
| CannotEncode (msg : string).   (* a character the stream cannot encode *)

(** The exception a failure is raised as. *)
Definition raised (f : failure) : exn :=
  match f with
  | NoSuchFile => FileNotFoundError "[Errno 2] No such file or directory"
  | NotADirectory => OSError "[Errno 20] Not a directory"
  | IsADirectory => OSError "[Errno 21] Is a directory"
  | PermissionDenied => OSError "[Errno 13] Permission denied"
  | OSFailure msg => OSError msg
  | NullByte => ValueError "embedded null byte"
  | ClosedFile => ValueError "I/O operation on closed file."
  | CannotEncode msg => UnicodeEncodeError msg
  end.

(** A computation that returns or raises. *)
Inductive exc (A : Type) :=
| Ok (a : A)
| Raise (e : exn).

Arguments Ok {A} a.
Arguments Raise {A} e.

Definition bind {A B : Type} (m : exc A) (k : A -> exc B) : exc B :=
  match m with
  | Ok a => k a
  | Raise e => Raise e
  end.

Notation "x <- m ;; k" := (bind m (fun x => k))
  (at level 61, m at next level, right associativity).

(* ================================================================== *)
(** ** The file system *)
(* ================================================================== *)

(** [platform.system() == "Windows"], or anything else. *)
Inductive platform := Windows | Posix.

(** What a directory holds.  A file whose [info] is [None] is one that
    [os.scandir] lists and [os.stat] fails on (a dangling link, a file
    that may not be examined); otherwise it has a modification time and
    a content.  A directory that is not [listable] makes [os.scandir]
    fail (locked, encrypted or offline volume, permission denied). *)
Inductive entry :=
| File (name : string) (info : option (Z * list byte))
| Dir (name : string) (listable : bool) (entries : list entry).

Definition entry_name (e : entry) : string :=
  match e with File n _ => n | Dir n _ _ => n end.

Definition entry_is_dir (e : entry) : bool :=
  match e with Dir _ _ _ => true | File _ _ => false end.

(** A path is its [parts], as [PurePath.parts] gives them: the anchor
    first (["/"], ["C:\"]), then one name per level. *)
Definition Path := list string.

(** The machine the script runs on.  The [tree] holds one [Dir] per
    mounted volume, named by its anchor. *)
Record world := {
  system : platform;
  tree : list entry;
  logical_drives : Z;                   (* kernel32.GetLogicalDrives() *)
  drive_type : string -> option Z       (* kernel32.GetDriveTypeW; None: raises *)
}.

Definition with_tree (w : world) (t : list entry) : world :=
  {| system := system w; tree := t;
     logical_drives := logical_drives w; drive_type := drive_type w |}.

Definition casefold (plat : platform) (s : string) : string :=
  match plat with Windows => Str.lower s | Posix => s end.

Definition name_eqb (plat : platform) (a b : string) : bool :=
  String.eqb (casefold plat a) (casefold plat b).

Definition sep (plat : platform) : string :=
  match plat with Windows => "\" | Posix => "/" end.

Definition is_sep (plat : platform) (c : ascii) : bool :=
  match plat with
  | Posix => Ascii.eqb c "/"
  | Windows => Ascii.eqb c "/" || Ascii.eqb c "\"
  end.

Module PathOps.

(** [p / n]. *)
Definition child (p : Path) (n : string) : Path := p ++ [n].

(** [p.name]: empty for a bare anchor. *)
Definition name (p : Path) : string :=
  match p with
  | [] | [_] => ""
  | _ :: r => last r ""
  end.

(** [p.parent]: an anchor is its own parent. *)
Definition parent (p : Path) : Path :=
  match p with
  | [] | [_] => p
  | _ => removelast p
  end.

Fixpoint prefixes_down (p : Path) (k : nat) : list Path :=
  match k with
  | O => []
  | S k' => firstn k p :: prefixes_down p k'
  end.

(** [list(p.parents)]: nearest first, the anchor last. *)
Definition parents (p : Path) : list Path :=
  prefixes_down p (List.length p - 1).

(** [str(p)]. *)
Definition str (plat : platform) (p : Path) : string :=
  match p with
  | [] => "."
  | a :: r => (a ++ Str.join (sep plat) r)%string
  end.

(** [p.suffix]: from the last dot of the name, when that dot is neither
    the first nor the last character. *)
Definition suffix (p : Path) : string :=
  let n := name p in
  match Str.rfind "." n with
  | Some i =>
      if (0 <? i)%nat && (i <? String.length n - 1)%nat
      then substring i (String.length n - i) n
      else ""
  | None => ""
  end.

(** Equality of paths: case-insensitive on Windows. *)
Fixpoint eqb (plat : platform) (p q : Path) : bool :=
  match p, q with
  | [], [] => true
  | a :: p', b :: q' => name_eqb plat a b && eqb plat p' q'
  | _, _ => false
  end.

Definition mem (plat : platform) (p : Path) (l : list Path) : bool :=
  existsb (eqb plat p) l.

(** Keeps the first occurrence of each path, in order. *)
Fixpoint dedup_from (plat : platform) (seen l : list Path) : list Path :=
  match l with
  | [] => []
  | p :: r =>
      if mem plat p seen then dedup_from plat seen r
      else p :: dedup_from plat (p :: seen) r
  end.

Definition dedup (plat : platform) (l : list Path) : list Path :=
  dedup_from plat [] l.

End PathOps.

Import PathOps.

(** *** Reading the tree *)

Fixpoint find_entry (plat : platform) (n : string) (es : list entry)
  : option entry :=
  match es with
  | [] => None
  | e :: r =>
      if name_eqb plat (entry_name e) n then Some e
      else find_entry plat n r
  end.

Fixpoint lookup_in (plat : platform) (p : list string) (es : list entry)
  : option entry :=
  match p with
  | [] => None
  | n :: rest =>
      match find_entry plat n es with
      | None => None
      | Some e =>
          match rest with
          | [] => Some e
          | _ :: _ =>
              match e with
              | Dir _ _ sub => lookup_in plat rest sub
              | File _ _ => None
              end
          end
      end
  end.

Definition lookup (w : world) (p : Path) : option entry :=
  lookup_in (system w) p (tree w).

(** [p.is_dir()], [p.is_file()], [p.exists()]: none of them raises. *)
Definition is_dir (w : world) (p : Path) : bool :=
  match lookup w p with Some (Dir _ _ _) => true | _ => false end.

Definition is_file (w : world) (p : Path) : bool :=
  match lookup w p with Some (File _ (Some _)) => true | _ => false end.

Definition exists_ (w : world) (p : Path) : bool :=
  is_dir w p || is_file w p.

(** [p.stat().st_mtime].  The script calls it on files only; directories
    carry no time stamp here. *)
Definition stat_mtime (w : world) (p : Path) : exc Z :=
  match lookup w p with
  | Some (File _ (Some (t, _))) => Ok t
  | Some (File _ None) => Raise (OSError "stat")
  | Some (Dir _ _ _) => Raise (OSError "stat")
  | None => Raise (FileNotFoundError "[Errno 2] No such file or directory")
  end.

(** The content of a file. *)
Definition read_file (w : world) (p : Path) : option (Z * list byte) :=
  match lookup w p with
  | Some (File _ (Some f)) => Some f
  | _ => None
  end.

(** [os.scandir(p)]: the entries of a directory that can be listed. *)
Definition scandir (w : world) (p : Path) : option (list entry) :=
  match lookup w p with
  | Some (Dir _ true es) => Some es
  | _ => None
  end.

(* ================================================================== *)
(** ** [pathlib] patterns: [Path.match] and [Path.glob] *)
(* ================================================================== *)

Module Glob.

Definition is_letter (c : ascii) : bool := Str.is_upper c || Str.is_lower c.

(** A pattern with a drive or a root: [drv or root] after [parse_parts]. *)
Definition anchored (plat : platform) (pat : string) : bool :=
  match pat with
  | EmptyString => false
  | String c r =>
      is_sep plat c ||
      match plat, r with
      | Windows, String ":"%char _ => is_letter c
      | _, _ => false
      end
  end.

(** The components of a relative pattern: empty ones and ["."] drop out. *)
Definition pattern_parts (plat : platform) (pat : string) : list string :=
  filter (fun x => negb (String.eqb x "") && negb (String.eqb x "."))
         (Str.split_on (is_sep plat) pat).

(** The flavour's compiled pattern: case-sensitive on POSIX, and on
    Windows insensitive to case (both sides are lowercased). *)
Definition fnmatch_name (plat : platform) (name pat : string) : bool :=
  Fnmatch.fnmatchcase (casefold plat name) (casefold plat pat).

Fixpoint zip_all (f : string -> string -> bool) (l1 l2 : list string) : bool :=
  match l1, l2 with
  | a :: r1, b :: r2 => f a b && zip_all f r1 r2
  | _, _ => true
  end.

(** [p.match(pat)] for a relative path [p] of the given parts:
    [ValueError] on an empty pattern, [False] on an anchored one or one
    with more components than the path, otherwise the components are
    compared from the right. *)
Definition path_match (plat : platform) (parts : list string) (pat : string)
  : exc bool :=
  if anchored plat pat then Ok false
  else
    match pattern_parts plat pat with
    | [] => Raise (ValueError "empty pattern")
    | pps =>
        if (List.length parts <? List.length pps)%nat then Ok false
        else Ok (zip_all (fnmatch_name plat) (rev parts) (rev pps))
    end.

Fixpoint has_sub (sub s : string) : bool :=
  String.prefix sub s ||
  match s with
  | EmptyString => false
  | String _ r => has_sub sub r
  end.

Definition is_wildcard_pattern (pat : string) : bool :=
  has_sub "*" pat || has_sub "?" pat || has_sub "[" pat.

Definition last_char_is_sep (plat : platform) (pat : string) : bool :=
  match rev (list_ascii_of_string pat) with
  | c :: _ => is_sep plat c
  | [] => false
  end.

(** [_RecursiveWildcardSelector._iterate_directories]: the directory and
    every directory below it, in the order of the listings; the descent
    stops at a directory that cannot be listed. *)
Fixpoint iterate_directories (p : Path) (e : entry) {struct e} : list Path :=
  match e with
  | File _ _ => []
  | Dir _ listable es =>
      p ::
      (if listable then
         (fix over (l : list entry) : list Path :=
            match l with
            | [] => []
            | e' :: r =>
                iterate_directories (child p (entry_name e')) e' ++ over r
            end) es
       else [])
  end.

(** The selectors of [pathlib._make_selector], chained: [_select_from]. *)
Fixpoint select (w : world) (pats : list string) (p : Path) : list Path :=
  match pats with
  | [] => [p]
  | pat :: rest =>
      let dironly := match rest with [] => false | _ :: _ => true end in
      if String.eqb pat "" then [p]
      else if String.eqb pat "**" then
        match lookup w p with
        | Some e =>
            dedup (system w)
                  (flat_map (select w rest) (iterate_directories p e))
        | None => []
        end
      else if is_wildcard_pattern pat then
        match scandir w p with
        | None => []
        | Some es =>
            flat_map
              (fun e =>
                 if (negb dironly || entry_is_dir e)
                    && fnmatch_name (system w) (entry_name e) pat
                 then select w rest (child p (entry_name e))
                 else [])
              es
        end
      else
        let q := child p pat in
        if (if dironly then is_dir w q else exists_ w q)
        then select w rest q
        else []
  end.

(** [list(d.glob(pat))]. *)
Definition glob (w : world) (d : Path) (pat : string) : exc (list Path) :=
  let plat := system w in
  if String.eqb pat "" then Raise (ValueError "Unacceptable pattern")
  else if anchored plat pat
  then Raise (OtherError "Non-relative patterns are unsupported")
  else
    let parts := pattern_parts plat pat ++
                 (if last_char_is_sep plat pat then [""] else []) in
    match parts with
    | [] => Raise (OtherError "tuple index out of range")
    | first :: _ =>
        if String.eqb first "" then Raise (OtherError "select_from")
        else if existsb (fun x => has_sub "**" x && negb (String.eqb x "**"))
                        parts
        then Raise (ValueError "Invalid pattern")
        else if is_dir w d then Ok (select w parts d)
        else Ok []
    end.

End Glob.

(* ================================================================== *)
(** ** [os.walk] *)
(* ================================================================== *)

Module Walk.

Definition dir_names (es : list entry) : list string :=
  map entry_name (filter entry_is_dir es).

Definition nondir_names (es : list entry) : list string :=
  map entry_name (filter (fun e => negb (entry_is_dir e)) es).

Section Walk.

Context {S : Type}.

(** The body of the [for current_dir, dirnames, filenames in os.walk(...)]
    loop: it receives the triple and the loop's state, and returns the
    list [dirnames] as it has left it, with the new state. *)
Variable body : Path -> list string -> list string -> S -> list string * S.

(** [os.walk(top, topdown=True, onerror=lambda e: None)] driven by its
    loop: the directory is listed, the body runs, and the walk then
    descends into the names left in [dirnames], in that order.  A
    directory that cannot be listed yields nothing. *)
Fixpoint walk_from (top : Path) (e : entry) (st : S) {struct e} : S :=
  match e with
  | File _ _ => st
  | Dir _ false _ => st
  | Dir _ true es =>
      let '(dirnames, st1) := body top (dir_names es) (nondir_names es) st in
      (fix descend (names : list string) (st : S) : S :=
         match names with
         | [] => st
         | n :: names' =>
             descend names'
               ((fix into (l : list entry) : S :=
                   match l with
                   | [] => st
                   | e' :: l' =>
                       if entry_is_dir e' && String.eqb (entry_name e') n
                       then walk_from (child top n) e' st
                       else into l'
                   end) es)
         end) dirnames st1
  end.

Definition walk (w : world) (top : Path) (st : S) : S :=
  match lookup w top with
  | Some e => walk_from top e st
  | None => st
  end.

End Walk.

End Walk.

(* ================================================================== *)
(** ** Changing the tree: [mkdir], [shutil.move], [shutil.copy2], [unlink] *)
(* ================================================================== *)

Module FsOps.

(** Replaces the first entry called [n], or adds one at the end. *)
Fixpoint put_entry (plat : platform) (n : string) (e' : entry)
  (es : list entry) : list entry :=
  match es with
  | [] => [e']
  | e :: r =>
      if name_eqb plat (entry_name e) n then e' :: r
      else e :: put_entry plat n e' r
  end.

(** Drops the entries called [n]. *)
Definition del_entry (plat : platform) (n : string) (es : list entry)
  : list entry :=
  filter (fun e => negb (name_eqb plat (entry_name e) n)) es.

(** Applies [leaf] to the listing of the directory that holds [p]. *)
Fixpoint alter (plat : platform)
  (leaf : string -> list entry -> option (list entry))
  (p : list string) (es : list entry) : option (list entry) :=
  match p with
  | [] => None
  | n :: rest =>
      match rest with
      | [] => leaf n es
      | _ :: _ =>
          match find_entry plat n es with
          | Some (Dir n0 l sub) =>
              match alter plat leaf rest sub with
              | Some sub' => Some (put_entry plat n (Dir n0 l sub') es)
              | None => None
              end
          | _ => None
          end
      end
  end.

Definition write_leaf (plat : platform) (f : Z * list byte)
  (n : string) (es : list entry) : option (list entry) :=
  match find_entry plat n es with
  | Some (Dir _ _ _) => None
  | Some (File n0 _) => Some (put_entry plat n (File n0 (Some f)) es)
  | None => Some (put_entry plat n (File n (Some f)) es)
  end.

Definition remove_leaf (plat : platform)
  (n : string) (es : list entry) : option (list entry) :=
  match find_entry plat n es with
  | Some (File _ _) => Some (del_entry plat n es)
  | _ => None
  end.

(** Creates or overwrites the file [p]; its directory must exist. *)
Definition write_file (w : world) (p : Path) (f : Z * list byte)
  : option world :=
  match p with
  | _ :: _ :: _ =>
      option_map (with_tree w)
                 (alter (system w) (write_leaf (system w) f) p (tree w))
  | _ => None
  end.

Definition remove_file (w : world) (p : Path) : option world :=
  match p with
  | _ :: _ :: _ =>
      option_map (with_tree w)
                 (alter (system w) (remove_leaf (system w)) p (tree w))
  | _ => None
  end.

(** The directories of [p], created where they are missing. *)
Fixpoint mkdirs (plat : platform) (p : list string) (es : list entry)
  : option (list entry) :=
  match p with
  | [] => Some es
  | n :: rest =>
      match find_entry plat n es with
      | Some (Dir n0 l sub) =>
          match mkdirs plat rest sub with
          | Some sub' => Some (put_entry plat n (Dir n0 l sub') es)
          | None => None
          end
      | Some (File _ _) => None
      | None =>
          match mkdirs plat rest [] with
          | Some sub' => Some (put_entry plat n (Dir n true sub') es)
          | None => None
          end
      end
  end.

(** [p.mkdir(parents=True, exist_ok=True)]: fails when a component of [p]
    is a file, when the volume is absent, or on the injected fault. *)
Definition mkdir_p (fault : bool) (w : world) (p : Path) : exc unit * world :=
  if fault then (Raise (OSError "mkdir"), w)
  else
    match p with
    | a :: _ =>
        match find_entry (system w) a (tree w) with
        | Some (Dir _ _ _) =>
            match mkdirs (system w) p (tree w) with
            | Some t => (Ok tt, with_tree w t)
            | None => (Raise (OSError "mkdir"), w)
            end
        | _ => (Raise (OSError "mkdir"), w)
        end
    | [] => (Raise (OSError "mkdir"), w)
    end.

(** Why the operating system cannot enter the directory [p]: a name on
    the way is not there, or is that of a file (which Windows reports as
    a path that is not there). *)
Fixpoint enter_failure (plat : platform) (p : list string) (es : list entry)
  : option failure :=
  match p with
  | [] => None
  | n :: rest =>
      match find_entry plat n es with
      | None => Some NoSuchFile
      | Some (File _ _) =>
          Some (match plat with
                | Posix => NotADirectory
                | Windows => NoSuchFile
                end)
      | Some (Dir _ _ sub) => enter_failure plat rest sub
      end
  end.

(** Why [open(p, "wb")] fails, when it does: the directory of [p] cannot
    be entered, or [p] is itself a directory. *)
Definition write_failure (w : world) (p : Path) : failure :=
  match enter_failure (system w) (removelast p) (tree w) with
  | Some f => f
  | None =>
      match system w with
      | Posix => IsADirectory
      | Windows => PermissionDenied
      end
  end.

(** How an injected failure of [shutil.move] leaves the tree: untouched,
    or with the destination written and the source still there (the
    rename was refused and the source could not be deleted). *)
Inductive move_fault := MoveWorks | MoveFails | MoveFailsAfterCopy.

(** Where [shutil.move] and [shutil.copy2] really write: inside [dst]
    when [dst] is a directory. *)
Definition real_dst (w : world) (src dst : Path) : Path :=
  if is_dir w dst then child dst (name src) else dst.

(** [shutil.move(str(src), str(dst))] for a file [src].  A destination
    that cannot be written fails as [open] fails on it, whatever the
    rename did; otherwise the move works, or fails as [fault] says. *)
Definition shutil_move (fault : move_fault) (w : world) (src dst : Path)
  : exc unit * world :=
  let rd := real_dst w src dst in
  if is_dir w dst && (exists_ w rd)
  then (Raise (ShutilError "Destination path already exists"), w)
  else
    match read_file w src with
    | None => (Raise (raised NoSuchFile), w)
    | Some f =>
        match write_file w rd f with
        | None => (Raise (raised (write_failure w rd)), w)
        | Some w' =>
            match fault with
            | MoveFails => (Raise (OSError "move"), w)
            | MoveFailsAfterCopy => (Raise (OSError "move"), w')
            | MoveWorks =>
                match remove_file w src with
                | None => (Raise (raised NoSuchFile), w)
                | Some w1 =>
                    match write_file w1 rd f with
                    | Some w2 => (Ok tt, w2)
                    | None => (Raise (raised (write_failure w1 rd)), w)
                    end
                end
            end
        end
    end.

(** [shutil.copy2(str(src), str(dst))]: the same file is refused, a
    destination that cannot be written fails as [open] fails on it, and
    the copy may fail as [fault] says. *)
Definition shutil_copy2 (fault : bool) (w : world) (src dst : Path)
  : exc unit * world :=
  let rd := real_dst w src dst in
  match read_file w src with
  | None => (Raise (raised NoSuchFile), w)
  | Some f =>
      if PathOps.eqb (system w) src rd
      then (Raise (ShutilError "are the same file"), w)
      else
        match write_file w rd f with
        | None => (Raise (raised (write_failure w rd)), w)
        | Some w' =>
            if fault then (Raise (OSError "copy2"), w) else (Ok tt, w')
        end
  end.

(** [src.unlink()]. *)
Definition unlink (fault : bool) (w : world) (src : Path) : exc unit * world :=
  if fault then (Raise (OSError "unlink"), w)
  else
    match remove_file w src with
    | Some w' => (Ok tt, w')
    | None => (Raise (raised NoSuchFile), w)
    end.

End FsOps.

Import FsOps.

(* ================================================================== *)
(** ** The script: configuration constants *)
(* ================================================================== *)

Definition DEFAULT_PATTERNS : list string := ["MW-SGB*.csv"; "nse_sgb_data*.csv"].

Definition IGNORE_SUFFIXES : list string := [".crdownload"; ".part"; ".tmp"].

Definition SKIP_DIR_NAMES : list string :=
  ["windows"; "program files"; "program files (x86)"; "programdata";
   "$recycle.bin"; "system volume information";
   "appdata"; "cache"; ".cache"; "temp"; "tmp";
   ".git"; ".svn"; "node_modules"; "__pycache__"].

(* ================================================================== *)
(** ** The script: helper functions *)
(* ================================================================== *)

(** The first of [script_dir] and its parents that holds [.git] or
    [data]; [script_dir] when none does. *)
Definition _guess_repo_root (w : world) (script_dir : Path) : Path :=
  match find (fun p => exists_ w (child p ".git") || exists_ w (child p "data"))
             (script_dir :: parents script_dir) with
  | Some p => p
  | None => script_dir
  end.

(** The loop of [_list_matches], [out] being the list built so far: an
    exception stops the loop and what was gathered is returned. *)
Fixpoint list_matches_loop (w : world) (d : Path) (patterns : list string)
  (out : list Path) : list Path :=
  match patterns with
  | [] => out
  | pat :: rest =>
      match Glob.glob w d pat with
      | Raise _ => out
      | Ok l1 =>
          let out := out ++ l1 in
          match Glob.glob w d (Str.lower pat) with
          | Raise _ => out
          | Ok l2 =>
              let out := out ++ l2 in
              match Glob.glob w d (Str.upper pat) with
              | Raise _ => out
              | Ok l3 => list_matches_loop w d rest (out ++ l3)
              end
          end
      end
  end.

Definition _list_matches (w : world) (d : Path) (patterns : list string)
  : list Path :=
  list_matches_loop w d patterns [].

Definition _is_accessible_dir (w : world) (p : Path) : bool :=
  match scandir w p with
  | Some _ => true
  | None => false
  end.

Definition ascii_uppercase : list string :=
  ["A"; "B"; "C"; "D"; "E"; "F"; "G"; "H"; "I"; "J"; "K"; "L"; "M";
   "N"; "O"; "P"; "Q"; "R"; "S"; "T"; "U"; "V"; "W"; "X"; "Y"; "Z"].

Fixpoint enumerate {A : Type} (i : nat) (l : list A) : list (nat * A) :=
  match l with
  | [] => []
  | x :: r => (i, x) :: enumerate (S i) r
  end.

Definition DRIVE_UNKNOWN : Z := 0.
Definition DRIVE_NO_ROOT_DIR : Z := 1.

(** The Windows branch: one root per logical drive that has a type and
    can be listed. *)
Definition windows_roots (w : world) : list Path :=
  fold_left
    (fun roots (il : nat * string) =>
       let (i, letter) := il in
       if Z.eqb (Z.land (Z.shiftr (logical_drives w) (Z.of_nat i)) 1) 0
       then roots
       else
         let root : Path := [(letter ++ ":\")%string] in
         match drive_type w (str Windows root) with
         | None => roots
         | Some dtype =>
             if Z.eqb dtype DRIVE_NO_ROOT_DIR || Z.eqb dtype DRIVE_UNKNOWN
             then roots
             else if _is_accessible_dir w root then roots ++ [root]
             else roots
         end)
    (enumerate 0 ascii_uppercase) [].

Definition mount_candidates : list Path :=
  [["/"]; ["/"; "mnt"]; ["/"; "media"]; ["/"; "Volumes"]].

(** The other branch: each conventional mount point that can be listed,
    followed by those of its sub-directories that can be and were not
    met before.  The state is the pair of [roots] and [seen]. *)
Definition posix_roots (w : world) : list Path :=
  fst
    (fold_left
       (fun (st : list Path * list Path) (base : Path) =>
          if _is_accessible_dir w base then
            let st := (fst st ++ [base], snd st) in
            match scandir w base with
            | None => st
            | Some es =>
                fold_left
                  (fun (st : list Path * list Path) (e : entry) =>
                     let c := child base (entry_name e) in
                     if is_dir w c && _is_accessible_dir w c then
                       if PathOps.mem (system w) c (snd st) then st
                       else (fst st ++ [c], c :: snd st)
                     else st)
                  es st
            end
          else st)
       mount_candidates ([], [])).

Definition _enumerate_accessible_roots (w : world) : list Path :=
  let roots :=
    match system w with
    | Windows => windows_roots w
    | Posix => posix_roots w
    end in
  dedup (system w) roots.

(* ================================================================== *)
(** ** The script: [_recent_files] *)
(* ================================================================== *)

(** [any(str(p).lower().endswith(suf) for suf in IGNORE_SUFFIXES)]. *)
Definition has_ignored_suffix (w : world) (p : Path) : bool :=
  existsb (fun suf => Str.endswith (Str.lower (str (system w) p)) suf)
          IGNORE_SUFFIXES.

(** The [any(...)] over the patterns, in three casings, evaluated left to
    right and stopping at the first match; [Path.match] may raise. *)
Fixpoint matched_any (plat : platform) (name : string) (patterns : list string)
  : exc bool :=
  match patterns with
  | [] => Ok false
  | pat :: rest =>
      m1 <- Glob.path_match plat [name] pat ;;
      if m1 then Ok true else
      m2 <- Glob.path_match plat [name] (Str.lower pat) ;;
      if m2 then Ok true else
      m3 <- Glob.path_match plat [name] (Str.upper pat) ;;
      if m3 then Ok true else
      matched_any plat name rest
  end.

(** The body of the [try] of the deep scan for one file name: the list
    [files] with the file appended when it passes every filter. *)
Definition deep_try (w : world) (patterns : list string) (cutoff : Z)
  (current_dir : Path) (name : string) (files : list Path)
  : exc (list Path) :=
  let p := child current_dir name in
  if negb (String.eqb (Str.lower (suffix p)) ".csv") then Ok files
  else if has_ignored_suffix w p then Ok files
  else
    matched <- matched_any (system w) name patterns ;;
    if negb matched then Ok files
    else
      mtime <- stat_mtime w p ;;
      if (cutoff <=? mtime)%Z then Ok (files ++ [p]) else Ok files.

(** [try: ... except Exception: continue]. *)
Definition deep_file (w : world) (patterns : list string) (cutoff : Z)
  (current_dir : Path) (files : list Path) (name : string) : list Path :=
  match deep_try w patterns cutoff current_dir name files with
  | Ok files' => files'
  | Raise _ => files
  end.

(** The body of the [os.walk] loop: prune [dirnames] in place, then go
    through [filenames]. *)
Definition deep_body (w : world) (patterns : list string) (cutoff : Z)
  (current_dir : Path) (dirnames filenames : list string) (files : list Path)
  : list string * list Path :=
  (filter (fun name => negb (Str.mem (Str.lower name) SKIP_DIR_NAMES)) dirnames,
   fold_left (deep_file w patterns cutoff current_dir) filenames files).

(** The body of the [try] of the shallow scan for one glob result. *)
Definition shallow_try (w : world) (cutoff : Z) (p : Path) (files : list Path)
  : exc (list Path) :=
  if negb (is_file w p) then Ok files
  else if negb (String.eqb (Str.lower (suffix p)) ".csv") then Ok files
  else
    mtime <- stat_mtime w p ;;
    if negb (cutoff <=? mtime)%Z then Ok files
    else if negb (has_ignored_suffix w p) then Ok (files ++ [p])
    else Ok files.

Definition shallow_file (w : world) (cutoff : Z)
  (files : list Path) (p : Path) : list Path :=
  match shallow_try w cutoff p files with
  | Ok files' => files'
  | Raise _ => files
  end.

(** [files.sort(key=lambda p: p.stat().st_mtime, reverse=True)]: the keys
    are computed first, and a failing [stat] propagates; the sort is
    stable. *)
Fixpoint sort_keys (w : world) (files : list Path) : exc (list (Z * Path)) :=
  match files with
  | [] => Ok []
  | p :: r =>
      k <- stat_mtime w p ;;
      ks <- sort_keys w r ;;
      Ok ((k, p) :: ks)
  end.

Fixpoint insert_desc (x : Z * Path) (l : list (Z * Path)) : list (Z * Path) :=
  match l with
  | [] => [x]
  | y :: r => if (fst x <? fst y)%Z then y :: insert_desc x r else x :: l
  end.

Definition sort_desc (l : list (Z * Path)) : list (Z * Path) :=
  fold_right insert_desc [] l.

(** The list [files] as the scan leaves it, before it is sorted. *)
Definition scan (w : world) (cutoff : Z)
  (dirs : list Path) (patterns : list string) (deep : bool) : list Path :=
  if deep then
    let roots := _enumerate_accessible_roots w in
    fold_left
      (fun files root => Walk.walk (deep_body w patterns cutoff) w root files)
      roots []
  else
    fold_left
      (fun files d =>
         fold_left (shallow_file w cutoff) (_list_matches w d patterns) files)
      dirs [].

(** [now] is the reading of [time.time()]. *)
Definition _recent_files (w : world) (now : Z)
  (dirs : list Path) (patterns : list string) (recent_minutes : Z)
  (deep : bool) : exc (list Path) :=
  let cutoff := (now - recent_minutes * 60)%Z in
  let files := scan w cutoff dirs patterns deep in
  keyed <- sort_keys w files ;;
  Ok (map snd (sort_desc keyed)).

(* ================================================================== *)
(** ** The script: [collect_csv] *)
(* ================================================================== *)

(** What one run reads from its surroundings. *)
Record environ := {
  script_dir : Path;                 (* Path(__file__).resolve().parent *)
  cwd : Path;                        (* Path.cwd() *)
  home : Path;                       (* Path.home() *)
  getenv : string -> option Path;    (* a set, non-empty variable, as a path *)
  now_shallow : Z;                   (* time.time() in the shallow scan *)
  now_deep : Z;                      (* time.time() in the deep scan *)
  timestamp : string;                (* datetime.now(), as %Y%m%d_%H%M%S *)
  mkdir_fault : bool;
  move_faults : move_fault;
  copy_fault : bool;
  unlink_fault : bool;
  stdout : string -> option failure; (* what print(line) fails with, if it does *)
  win32_place : Path -> string -> failure + Path
    (* on Windows, the place Win32 takes str(data_dir / name) for, or what
       shutil.copy2 fails with when it leads to none *)
}.

(** What one run does, in order.  [Nowhere] stands for the calls of
    [shutil.move] and [shutil.copy2] with a destination that leads to no
    place: both raise. *)
Inductive event :=
| Mkdir (p : Path)
| Search (deep : bool) (found : list Path)
| Move (src dst : Path) (failed : bool)
| Copy (src dst : Path) (failed : bool)
| Unlink (src : Path) (failed : bool)
| Nowhere (src : Path) (name : string)
| Print (line : string).

Record run := {
  outcome : exc Path;
  trace : list event;
  final : world
}.

Definition not_found_message (patterns : list string) (deep : bool) : string :=
  ("Could not find any recent CSVs matching: "
   ++ Str.join ", " patterns
   ++ (if deep
       then String "010" "(searched all accessible drives)"
       else String "010" "(try --deep to search all accessible drives)"))%string.

(** [patterns or DEFAULT_PATTERNS]; [None] is the omitted argument. *)
Definition effective_patterns (patterns : option (list string)) : list string :=
  match patterns with
  | None | Some [] => DEFAULT_PATTERNS
  | Some l => l
  end.

Definition search_dirs (w : world) (env : environ) : list Path :=
  fold_left
    (fun dirs var =>
       match getenv env var with
       | Some p => if is_dir w p then dirs ++ [p] else dirs
       | None => dirs
       end)
    ["TMP"; "TEMP"]
    [cwd env; script_dir env; parent (script_dir env);
     child (home env) "Downloads"].

(** The place [data_dir / name] leads to, as the operating system
    follows the path: [..] goes up from a directory that must be there. *)
Fixpoint follow (w : world) (cur : Path) (comps : list string)
  : failure + Path :=
  match comps with
  | [] => inr cur
  | c :: rest =>
      if String.eqb c ".." then
        match enter_failure (system w) cur (tree w) with
        | Some f => inl f
        | None => follow w (parent cur) rest
        end
      else follow w (child cur c) rest
  end.

Definition has_nul (s : string) : bool :=
  existsb (Ascii.eqb "000") (list_ascii_of_string s).

(** On POSIX [data_dir / name] is [name] alone when [name] begins with a
    slash; empty components and ["."] drop out. *)
Definition posix_place (w : world) (data_dir : Path) (name : string)
  : failure + Path :=
  if has_nul name then inl NullByte
  else follow w (if Glob.anchored Posix name then ["/"] else data_dir)
                (Glob.pattern_parts Posix name).

Definition place (w : world) (env : environ) (data_dir : Path) (name : string)
  : failure + Path :=
  match system w with
  | Posix => posix_place w data_dir name
  | Windows => win32_place env data_dir name
  end.

(** The four lines of the report. *)
Definition report (plat : platform) (repo_root data_dir src dst : Path)
  : list string :=
  [("Source : " ++ str plat src)%string;
   ("Repo   : " ++ str plat repo_root)%string;
   ("Data   : " ++ str plat data_dir)%string;
   ("Moved  → " ++ str plat dst)%string].

(** [print], line after line: the first that fails ends the printing. *)
Fixpoint print_lines (env : environ) (lines : list string) (tr : list event)
  : option failure * list event :=
  match lines with
  | [] => (None, tr)
  | line :: rest =>
      match stdout env line with
      | Some f => (Some f, tr)
      | None => print_lines env rest (tr ++ [Print line])
      end
  end.

(** The end of a run whose file is in place: the report, then [dst]. *)
Definition finish (w : world) (env : environ) (repo_root data_dir : Path)
  (src dst : Path) (tr : list event) : run :=
  match print_lines env (report (system w) repo_root data_dir src dst) tr with
  | (None, tr') => {| outcome := Ok dst; trace := tr'; final := w |}
  | (Some f, tr') => {| outcome := Raise (raised f); trace := tr'; final := w |}
  end.

(** The move, with its fall-back, and the report. *)
Definition move_into (w : world) (env : environ) (repo_root data_dir : Path)
  (src dst : Path) (tr : list event) : run :=
  match shutil_move (move_faults env) w src dst with
  | (Ok _, w1) =>
      finish w1 env repo_root data_dir src dst (tr ++ [Move src dst false])
  | (Raise _, w1) =>
      match shutil_copy2 (copy_fault env) w1 src dst with
      | (Raise e, w2) =>
          {| outcome := Raise e;
             trace := tr ++ [Move src dst true; Copy src dst true];
             final := w2 |}
      | (Ok _, w2) =>
          match unlink (unlink_fault env) w2 src with
          | (Ok _, w3) =>
              finish w3 env repo_root data_dir src dst
                     (tr ++ [Move src dst true; Copy src dst false;
                             Unlink src false])
          | (Raise _, w3) =>
              finish w3 env repo_root data_dir src dst
                     (tr ++ [Move src dst true; Copy src dst false;
                             Unlink src true])
          end
      end
  end.

(** The name joined to [data_dir]: stamped with the time, or fixed. *)
Definition destination_name (env : environ) (keep_timestamped : bool)
  (fixed_name : string) : string :=
  if keep_timestamped
  then ("nse_sgb_data_" ++ timestamp env ++ ".csv")%string
  else fixed_name.

(** The end of [collect_csv], from the destination on: when
    [data_dir / name] leads to no place, [shutil.move] raises and
    [shutil.copy2] raises after it. *)
Definition deliver (w : world) (env : environ) (repo_root data_dir : Path)
  (src : Path) (name : string) (tr : list event) : run :=
  match place w env data_dir name with
  | inl f =>
      {| outcome := Raise (raised f);
         trace := tr ++ [Nowhere src name];
         final := w |}
  | inr dst => move_into w env repo_root data_dir src dst tr
  end.

Definition collect_csv (w : world) (env : environ)
  (patterns : option (list string)) (keep_timestamped : bool)
  (fixed_name : string) (recent_minutes : Z) (deep : bool) : run :=
  let patterns := effective_patterns patterns in
  let repo_root := _guess_repo_root w (script_dir env) in
  let data_dir := child (child repo_root "data") "nse_sgb_data" in
  match mkdir_p (mkdir_fault env) w data_dir with
  | (Raise e, w1) =>
      {| outcome := Raise e; trace := []; final := w1 |}
  | (Ok _, w1) =>
      let tr := [Mkdir data_dir] in
      match _recent_files w1 (now_shallow env) (search_dirs w1 env)
                          patterns recent_minutes false with
      | Raise e => {| outcome := Raise e; trace := tr; final := w1 |}
      | Ok shallow =>
          let tr := tr ++ [Search false shallow] in
          let second :=
            match shallow, deep with
            | [], true =>
                match _recent_files w1 (now_deep env) [] patterns
                                    recent_minutes true with
                | Raise e => Raise e
                | Ok found => Ok (found, tr ++ [Search true found])
                end
            | _, _ => Ok (shallow, tr)
            end in
          match second with
          | Raise e => {| outcome := Raise e; trace := tr; final := w1 |}
          | Ok (candidates, tr) =>
              match candidates with
              | [] =>
                  {| outcome :=
                       Raise (FileNotFoundError
                                (not_found_message patterns deep));
                     trace := tr; final := w1 |}
              | src :: _ =>
                  deliver w1 env repo_root data_dir src
                    (destination_name env keep_timestamped fixed_name) tr
              end
          end
      end
  end.

(* ================================================================== *)
(** ** Vocabulary of the properties *)
(* ================================================================== *)

(** The file can be examined, is no older than [cutoff], is a [.csv] and
    carries no partial-download suffix. *)
Definition passes (w : world) (cutoff : Z) (p : Path) : Prop :=
  (exists t, stat_mtime w p = Ok t /\ (cutoff <= t)%Z) /\
  has_ignored_suffix w p = false /\
  Str.lower (suffix p) = ".csv".

Definition key_ge (a b : Z * Path) : Prop := (fst b <= fst a)%Z.

(** [p] was modified no earlier than [q]. *)
Definition newer_or_same (w : world) (p q : Path) : Prop :=
  exists tp tq,
    stat_mtime w p = Ok tp /\ stat_mtime w q = Ok tq /\ (tq <= tp)%Z.

(** The content found at [p] in a listing. *)
Definition read_in (plat : platform) (p : list string) (es : list entry)
  : option (Z * list byte) :=
  match lookup_in plat p es with
  | Some (File _ (Some f)) => Some f
  | _ => None
  end.

(** The searches of a run, in order: the mode and what was found. *)
Definition searches (tr : list event) : list (bool * list Path) :=
  flat_map (fun ev => match ev with
                      | Search d found => [(d, found)]
                      | _ => []
                      end) tr.

(** [<repo>/data/nse_sgb_data], as [collect_csv] computes it. *)
Definition data_dir_of (w : world) (env : environ) : Path :=
  child (child (_guess_repo_root w (script_dir env)) "data") "nse_sgb_data".

(** The error [collect_csv] raises itself. *)
Definition not_found (patterns : option (list string)) (deep : bool) : exn :=
  FileNotFoundError (not_found_message (effective_patterns patterns) deep).

(** [name.lower() in SKIP_DIR_NAMES]. *)
Definition skipped (name : string) : bool :=
  Str.mem (Str.lower name) SKIP_DIR_NAMES.

(** [p] is a file below [root], and no directory between [root] and the
    file has a name of the skip-set. *)
Definition reached_from (root p : Path) : Prop :=
  exists dirs name,
    p = root ++ dirs ++ [name] /\ Forall (fun d => skipped d = false) dirs.



(* ================================================================== *)
(** ** Sample machines *)
(* ================================================================== *)

Module Sample.

(** A file of three bytes, last modified at [mtime]. *)
Definition csv (n : string) (mtime : Z) : entry :=
  File n (Some (mtime, [x4e; x53; x45])).

(** A POSIX machine: a checkout under [/home/me/proj], the script in its
    [src], and the given listings of [/home/me/Downloads] and [/tmp]. *)
Definition posix (downloads tmp : list entry) : world :=
  {| system := Posix;
     tree :=
       [Dir "/" true
          [Dir "home" true
             [Dir "me" true
                [Dir "Downloads" true downloads;
                 Dir "proj" true [Dir ".git" true []; Dir "src" true []]]];
           Dir "tmp" true tmp]];
     logical_drives := 0;
     drive_type := fun _ => None |}.

(** A Windows machine with one fixed drive, [C:]. *)
Definition windows (downloads system_dir : list entry) : world :=
  {| system := Windows;
     tree :=
       [Dir "C:\" true
          [Dir "Users" true
             [Dir "me" true
                [Dir "Downloads" true downloads;
                 Dir "proj" true [Dir ".git" true []; Dir "src" true []]]];
           Dir "Windows" true system_dir]];
     logical_drives := 4;
     drive_type := fun _ => Some 3%Z |}.

Definition now : Z := 100000.

(** The surroundings of a run on [posix], with the failures to inject. *)
Definition env (mv : move_fault) (cp ul : bool) : environ :=
  {| script_dir := ["/"; "home"; "me"; "proj"; "src"];
     cwd := ["/"; "home"; "me"; "proj"];
     home := ["/"; "home"; "me"];
     getenv := fun _ => None;
     now_shallow := now;
     now_deep := now;
     timestamp := "20250101_093000";
     mkdir_fault := false;
     move_faults := mv;
     copy_fault := cp;
     unlink_fault := ul;
     stdout := fun _ => None;
     win32_place := fun d n => inr (child d n) |}.

Definition downloads : Path := ["/"; "home"; "me"; "Downloads"].

Definition data_dir : Path := ["/"; "home"; "me"; "proj"; "data"; "nse_sgb_data"].

(** One fresh download, ten minutes old. *)
Definition fresh : world := posix [csv "MW-SGB-new.csv" 99400] [].

(** One stale download, three hundred minutes old. *)
Definition stale : world := posix [csv "MW-SGB-old.csv" 82000] [].

(** A fresh copy in [Downloads] and another in [/tmp]. *)
Definition with_tmp : world :=
  posix [csv "nse_sgb_data.csv" 99400] [csv "nse_sgb_data.csv" 99000].

(** The same two copies on Windows, the second under [C:\Windows]. *)
Definition with_windows : world :=
  windows [csv "nse_sgb_data.csv" 99400] [csv "nse_sgb_data.csv" 99000].

(** A fresh download whose name is in mixed case. *)
Definition mixed_case : world := posix [csv "Mw-Sgb-20250101.csv" 99400] [].

(** A fresh download whose name is in lower case. *)
Definition lower_case : world := posix [csv "mw-sgb-20250101.csv" 99400] [].

(** Three downloads of different ages, the newest in the middle, and a
    link that dangles. *)
Definition three : world :=
  posix [csv "MW-SGB-2.csv" 99000; csv "MW-SGB-1.csv" 99400;
         File "MW-SGB-0.csv" None; csv "MW-SGB-3.csv" 98000] [].


(** A standard output that cannot encode the arrow of the last line of
    the report. *)
Definition narrow_stdout (line : string) : option failure :=
  if String.prefix "Moved" line
  then Some (CannotEncode "'charmap' codec can't encode character")
  else None.

(** The surroundings [env], with that standard output. *)
Definition narrow (e : environ) : environ :=
  {| script_dir := script_dir e; cwd := cwd e; home := home e;
     getenv := getenv e; now_shallow := now_shallow e;
     now_deep := now_deep e; timestamp := timestamp e;
     mkdir_fault := mkdir_fault e; move_faults := move_faults e;
     copy_fault := copy_fault e; unlink_fault := unlink_fault e;
     stdout := narrow_stdout; win32_place := win32_place e |}.

Definition src_new : Path := downloads ++ ["MW-SGB-new.csv"].

Definition dst_stamped : Path := data_dir ++ ["nse_sgb_data_20250101_093000.csv"].

End Sample.

(* ================================================================== *)
(** ** Further vocabulary *)
(* ================================================================== *)

(** [p] holds one of the two markers of a repository root. *)
Definition marked (w : world) (p : Path) : bool :=
  exists_ w (child p ".git") || exists_ w (child p "data").

(** [p] can be examined and was last modified at [t]. *)
Definition has_mtime (w : world) (t : Z) (p : Path) : bool :=
  match stat_mtime w p with
  | Ok t' => Z.eqb t' t
  | Raise _ => false
  end.

(** The three forms in which a pattern is tried. *)
Definition casings (pat : string) : list string :=
  [pat; Str.lower pat; Str.upper pat].

(** A pattern of one component that holds a wildcard and is not [**]:
    [glob] takes it for a filter on the names of one directory. *)
Definition one_level (plat : platform) (pat : string) : Prop :=
  Glob.anchored plat pat = false /\
  Glob.pattern_parts plat pat = [pat] /\
  Glob.last_char_is_sep plat pat = false /\
  Glob.has_sub "**" pat = false /\
  Glob.is_wildcard_pattern pat = true.

(** The character a pattern begins with, when that is an ordinary one. *)
Definition first_literal (pat : string) : option ascii :=
  match Fnmatch.tokens 0 (list_ascii_of_string pat) with
  | Fnmatch.TLit c :: _ => Some c
  | _ => None
  end.

(* ================================================================== *)
(** ** [download_nse_sgb.py] *)
(* ================================================================== *)

Module DownloadNse.

(** [str.isspace] on one ASCII character. *)
Definition is_space (c : ascii) : bool :=
  let n := nat_of_ascii c in
  ((9 <=? n)%nat && (n <=? 13)%nat) ||
  ((28 <=? n)%nat && (n <=? 32)%nat).

(** [s.lstrip()]. *)
Fixpoint lstrip (s : string) : string :=
  match s with
  | EmptyString => EmptyString
  | String c r => if is_space c then lstrip r else s
  end.

Fixpoint rev_string (s acc : string) : string :=
  match s with
  | EmptyString => acc
  | String c r => rev_string r (String c acc)
  end.

(** [s.rstrip()] and [s.strip()]. *)
Definition rstrip (s : string) : string :=
  rev_string (lstrip (rev_string s "")) "".

Definition strip (s : string) : string := rstrip (lstrip s).

(** [s.count(c)] for one character. *)
Fixpoint count (c : ascii) (s : string) : nat :=
  match s with
  | EmptyString => 0
  | String a r => (if Ascii.eqb a c then 1 else 0) + count c r
  end.

(** [text] may be [None]. *)
Definition looks_like_csv (text : option string) : bool :=
  let t := strip (match text with
                  | None | Some EmptyString => ""
                  | Some s => s
                  end) in
  negb (Glob.has_sub "<html" (Str.lower t))
  && Glob.has_sub "," t
  && (3 <=? count "010" t)%nat.

(** [Path.cwd() / "sgb_data.csv"]: where the page is saved. *)
Definition out_path (cwd : Path) : Path := child cwd "sgb_data.csv".

End DownloadNse.

(** A string of white space only. *)
Fixpoint blank (s : string) : bool :=
  match s with
  | EmptyString => true
  | String c r => DownloadNse.is_space c && blank r
  end.

(** The two loop bodies of the non-Windows branch of
    [_enumerate_accessible_roots], by name: for one sub-directory of a
    mount point, and for one mount point. *)
Definition posix_child_step (w : world) (base : Path)
  (st : list Path * list Path) (e : entry) : list Path * list Path :=
  let c := child base (entry_name e) in
  if is_dir w c && _is_accessible_dir w c then
    if PathOps.mem (system w) c (snd st) then st
    else (fst st ++ [c], c :: snd st)
  else st.

Definition posix_base_step (w : world)
  (st : list Path * list Path) (base : Path) : list Path * list Path :=
  if _is_accessible_dir w base then
    let st := (fst st ++ [base], snd st) in
    match scandir w base with
    | None => st
    | Some es => fold_left (posix_child_step w base) es st
    end
  else st.

(** [str(n)] for an integer. *)
Definition str_of_int (n : Z) : string := NilZero.string_of_int (Z.to_int n).

(* ================================================================== *)
(** ** The command line of [collect_nse_csv.py] *)
(* ================================================================== *)

Module Cli.

(** What [argparse] hands over. *)
Record args := {
  no_timestamp : bool;               (* --no-timestamp *)
  fixed_name : string;               (* --fixed-name *)
  minutes : Z;                       (* --minutes *)
  pattern : option (list string);    (* --pattern, appended; None: never given *)
  deep : bool                        (* --deep *)
}.

(** The command line with no option. *)
Definition no_option : args :=
  {| no_timestamp := false; fixed_name := "nse_sgb_data.csv";
     minutes := 180; pattern := None; deep := false |}.

(** [pats]: the defaults, after the patterns of the command line. *)
Definition pats (a : args) : list string :=
  match pattern a with
  | Some (p :: l) => (p :: l) ++ DEFAULT_PATTERNS
  | _ => DEFAULT_PATTERNS
  end.

(** The block under [if __name__ == "__main__"]. *)
Definition main (w : world) (env : environ) (a : args) : run :=
  collect_csv w env (Some (pats a)) (negb (no_timestamp a))
              (fixed_name a) (minutes a) (deep a).

(** The status of the process: an exception that nothing catches ends
    it with status 1. *)
Definition exit_status (r : run) : Z :=
  match outcome r with
  | Ok _ => 0
  | Raise _ => 1
  end.

End Cli.

(* ================================================================== *)
(** ** [runner.py] *)
(* ================================================================== *)

Module Runner.

(** The interpreter, the repository root, and what each command
    returns when it is run. *)
Record setting := {
  PY : string;                         (* sys.executable *)
  REPO_ROOT : Path;                    (* Path(__file__).resolve().parents[1] *)
  flavour : platform;
  returncode : list string -> Z        (* subprocess.run(cmd, ...).returncode *)
}.

Definition script (s : setting) (file : string) : string :=
  str (flavour s) (child (child (REPO_ROOT s) "src") file).

Definition CMDS (s : setting) : list (list string) :=
  [[PY s; script s "download_nse_sgb.py"];
   [PY s; script s "collect_nse_csv.py"; "--deep"];
   [PY s; script s "download_bse_bhavcopy.py"]].

Inductive ending :=
| Done
| SystemExit (msg : string).

Record session := {
  ended : ending;
  ran : list (list string);            (* the commands run, in order *)
  printed : list string
}.

Definition running_line (cmd : list string) : string :=
  String "010" (" Running: " ++ Str.join " " cmd).

Definition failed_message (rc : Z) (cmd : list string) : string :=
  (" Command failed (" ++ str_of_int rc ++ "): " ++ Str.join " " cmd)%string.

(** [run_cmd]: [None] when the command returned 0. *)
Definition run_cmd (s : setting) (cmd : list string) : option string :=
  if Z.eqb (returncode s cmd) 0 then None
  else Some (failed_message (returncode s cmd) cmd).

(** The loop of [main] over the commands still to run. *)
Fixpoint run_all (s : setting) (cmds : list (list string))
  (ran : list (list string)) (printed : list string) : session :=
  match cmds with
  | [] =>
      {| ended := Done; ran := ran;
         printed := printed ++ [String "010" " All done."] |}
  | cmd :: rest =>
      match run_cmd s cmd with
      | Some msg =>
          {| ended := SystemExit msg; ran := ran ++ [cmd];
             printed := printed ++ [running_line cmd] |}
      | None => run_all s rest (ran ++ [cmd]) (printed ++ [running_line cmd])
      end
  end.

Definition main (s : setting) : session :=
  run_all s (CMDS s) []
    [("[runner] repo root: " ++ str (flavour s) (REPO_ROOT s))%string;
     ("[runner] python   : " ++ PY s)%string].

End Runner.

(* ================================================================== *)
(** ** [download_bse_bhavcopy.py] *)
(* ================================================================== *)

Module Bhavcopy.

(** A day is its number ([date.toordinal]); one day back is one less,
    and there is no day before day 1, the first of January of year 1
    ([datetime.min]).  The two formats the script uses are those of the
    calendar. *)
Record response := {
  status_code : Z;
  content_type : option string;        (* r.headers.get("Content-Type") *)
  text : string
}.

(** What the search prints. *)
Inductive line :=
| Trying (attempt : nat) (max_back_days : Z) (d : Z) (url : string)
| Found (d : Z).

Record site := {
  http_get : string -> exc response;   (* session.get(url, ...) *)
  ymd : Z -> string;                   (* strftime("%Y%m%d") *)
  iso : Z -> string;                   (* format "%Y-%m-%d" *)
  stdout : line -> option failure      (* what print fails with, if it does *)
}.

Definition MINORDINAL : Z := 1.

Definition bse_csv_url_for (s : site) (d : Z) : string :=
  ("https://www.bseindia.com/download/BhavCopy/Equity/BhavCopy_BSE_CM_0_0_0_"
   ++ ymd s d ++ "_F_0000.CSV")%string.

(** The body looks like a page of HTML. *)
Definition is_html_page (body : string) : bool :=
  String.prefix "<!doctype html" (Str.lower (DownloadNse.lstrip body)).

Definition fetch_csv (s : site) (url : string) : exc (option string) :=
  r <- http_get s url ;;
  if negb (Z.eqb (status_code r) 200) then Ok None
  else
    let ctype := Str.lower (match content_type r with
                            | Some c => c
                            | None => ""
                            end) in
    if Glob.has_sub "text/html" ctype || is_html_page (text r) then Ok None
    else Ok (Some (text r)).

(** The loop of [find_latest_csv], with [n] attempts left and [log]
    the lines printed so far: a line that cannot be printed ends the
    search with the exception of [print], and so does the step back
    from the first day of the calendar, with [OverflowError]. *)
Fixpoint find_loop (s : site) (max_back_days : Z) (attempt n : nat) (d : Z)
  (log : list line) : option (exc (Z * string)) * list line :=
  match n with
  | O => (None, log)
  | S n' =>
      let url := bse_csv_url_for s d in
      match stdout s (Trying attempt max_back_days d url) with
      | Some f => (Some (Raise (raised f)), log)
      | None =>
          let log := log ++ [Trying attempt max_back_days d url] in
          match fetch_csv s url with
          | Raise e => (Some (Raise e), log)
          | Ok (Some (String c r)) =>
              match stdout s (Found d) with
              | Some f => (Some (Raise (raised f)), log)
              | None => (Some (Ok (d, String c r)), log ++ [Found d])
              end
          | Ok _ =>
              if (d - 1 <? MINORDINAL)%Z
              then (Some (Raise (OverflowError "date value out of range")),
                    log)
              else find_loop s max_back_days (S attempt) n' (d - 1)%Z log
          end
      end
  end.

Definition none_found (s : site) (start_date max_back_days : Z) : exn :=
  FileNotFoundError
    ("No BSE CSV found within " ++ str_of_int max_back_days
     ++ " days back from " ++ iso s start_date ++ ".")%string.

Definition find_latest_csv (s : site) (start_date max_back_days : Z)
  : exc (Z * string) * list line :=
  match find_loop s max_back_days 0 (Z.to_nat (max_back_days + 1))
                  start_date [] with
  | (Some r, log) => (r, log)
  | (None, log) => (Raise (none_found s start_date max_back_days), log)
  end.

(** [repo_paths(anchor)]: the root and the data directory, made. *)
Definition repo_paths (fault : bool) (w : world) (here : Path)
  : exc (Path * Path) * world :=
  let root :=
    match find (fun p => exists_ w (child p "data") || exists_ w (child p ".git"))
               (here :: parents here) with
    | Some p => p
    | None => here
    end in
  let data_dir := child (child root "data") "bse_bhavcopy_data" in
  match mkdir_p fault w data_dir with
  | (Ok _, w') => (Ok (root, data_dir), w')
  | (Raise e, w') => (Raise e, w')
  end.

End Bhavcopy.

(** The site has no CSV for day [d]: the request is answered, with a
    status other than 200, with a page of HTML, or with nothing. *)
Definition no_csv (s : Bhavcopy.site) (d : Z) : Prop :=
  Bhavcopy.fetch_csv s (Bhavcopy.bse_csv_url_for s d) = Ok None \/
  Bhavcopy.fetch_csv s (Bhavcopy.bse_csv_url_for s d) = Ok (Some "").

(** The lines [find_latest_csv] prints when it finds nothing in [n]
    attempts. *)
Definition attempts (s : Bhavcopy.site) (start_date max_back_days : Z)
  (first n : nat) : list Bhavcopy.line :=
  map (fun k => Bhavcopy.Trying k max_back_days
                  (start_date - Z.of_nat k)
                  (Bhavcopy.bse_csv_url_for s (start_date - Z.of_nat k)))
      (seq first n).

(** Two sites for the examples: one that has a CSV for day 739488 only,
    and one that has none.  (Days are printed as their number.) *)
Module SampleSite.

Definition not_there : Bhavcopy.response :=
  {| Bhavcopy.status_code := 404;
     Bhavcopy.content_type := Some "text/html; charset=utf-8";
     Bhavcopy.text := "<!DOCTYPE html><html></html>" |}.

Definition bhavcopy : Bhavcopy.response :=
  {| Bhavcopy.status_code := 200;
     Bhavcopy.content_type := Some "text/csv";
     Bhavcopy.text := "FinInstrmId,ClsPric" |}.

Definition down : Bhavcopy.site :=
  {| Bhavcopy.http_get := fun _ => Ok not_there;
     Bhavcopy.ymd := str_of_int;
     Bhavcopy.iso := str_of_int;
     Bhavcopy.stdout := fun _ => None |}.

Definition up : Bhavcopy.site :=
  {| Bhavcopy.http_get :=
       fun url =>
         if String.eqb url (Bhavcopy.bse_csv_url_for down 739488)
         then Ok bhavcopy else Ok not_there;
     Bhavcopy.ymd := str_of_int;
     Bhavcopy.iso := str_of_int;
     Bhavcopy.stdout := fun _ => None |}.

End SampleSite.

(** An old and a new download side by side. *)
Definition old_and_new : world :=
  Sample.posix [Sample.csv "MW-SGB-old.csv" 82000;
                Sample.csv "MW-SGB-new.csv" 99400] [].

(** What the loops keep: the roots only grow, at the end, and whatever
    was seen is a root. *)
Definition roots_grow (st st' : list Path * list Path) : Prop :=
  (exists more, fst st' = fst st ++ more) /\
  ((forall x, In x (snd st) -> In x (fst st)) ->
   forall x, In x (snd st') -> In x (fst st')).

(** What [q] must differ from, to be left alone by a move to [dst]. *)
Definition away_from (plat : platform) (src dst q : Path) : Prop :=
  PathOps.eqb plat dst q = false /\
  PathOps.eqb plat (child dst (name src)) q = false.

(* ================================================================== *)
(** * Properties *)
(* ================================================================== *)

(** ** The library functions on small inputs *)

Example fnmatch_star :
  Fnmatch.fnmatchcase "mw-sgb-20250101.csv" "mw-sgb*.csv" = true.
Proof. reflexivity. Qed.

Example fnmatch_case :
  Fnmatch.fnmatchcase "mw-sgb-20250101.csv" "MW-SGB*.csv" = false.
Proof. reflexivity. Qed.

Example fnmatch_class :
  Fnmatch.fnmatchcase "a5.csv" "a[0-9].cs[!a-u]" = true.
Proof. reflexivity. Qed.

Example fnmatch_open_bracket :
  Fnmatch.fnmatchcase "a[.csv" "a[.csv" = true.
Proof. reflexivity. Qed.

Example fnmatch_dash :
  Fnmatch.fnmatchcase "-" "[a-c-e]" = true /\
  Fnmatch.fnmatchcase "d" "[a-c-e]" = false /\
  Fnmatch.fnmatchcase "]" "[]x]" = true /\
  Fnmatch.fnmatchcase "q" "[!]x]" = true.
Proof. repeat split; reflexivity. Qed.

Example suffix_csv : suffix ["/"; "tmp"; "MW-SGB.x.CSV"] = ".CSV".
Proof. reflexivity. Qed.

Example suffix_hidden : suffix ["/"; ".csv"] = "" /\ suffix ["/"; "a."] = "".
Proof. split; reflexivity. Qed.

Example parents_ex :
  parents ["/"; "a"; "b"] = [["/"; "a"]; ["/"]] /\ parents ["/"] = [].
Proof. split; reflexivity. Qed.

Example str_ex :
  str Posix ["/"; "home"; "me"; "x.csv"] = "/home/me/x.csv" /\
  str Windows ["C:\"; "Users"; "x.csv"] = "C:\Users\x.csv" /\
  str Posix ["/"] = "/".
Proof. repeat split; reflexivity. Qed.

(** ** Loops and trees *)

Lemma fold_left_invariant {A B : Type} (P : A -> Prop) (f : A -> B -> A)
  (l : list B) (a : A) :
  (forall a x, P a -> P (f a x)) -> P a -> P (fold_left f l a).
Proof.
  intros Hstep. revert a.
  induction l as [|x l IH]; intros a Ha; simpl; auto.
Qed.

Lemma fold_left_invariant_in {A B : Type} (P : A -> Prop) (f : A -> B -> A)
  (l : list B) (a : A) :
  (forall a x, In x l -> P a -> P (f a x)) -> P a -> P (fold_left f l a).
Proof.
  revert a.
  induction l as [|x l IH]; intros a Hstep Ha; simpl; auto.
  apply IH.
  - intros a' y Hy. apply Hstep. now right.
  - apply Hstep; [now left | assumption].
Qed.

(** Induction on the tree, with the property known of every entry of a
    directory. *)
Lemma entry_tree_ind (P : entry -> Prop)
  (Hfile : forall n i, P (File n i))
  (Hdir : forall n l es, Forall P es -> P (Dir n l es)) :
  forall e, P e.
Proof.
  fix IH 1.
  intros [n i | n l es]; [apply Hfile | apply Hdir].
  induction es as [|e' r IHr]; constructor; [apply IH | exact IHr].
Qed.

Section WalkInvariant.

Context {S : Type}.
Variable body : Path -> list string -> list string -> S -> list string * S.

(** [R] speaks of the directory the walk stands in, [Q] of the state of
    the loop. *)
Variable R : Path -> Prop.
Variable Q : S -> Prop.

Hypothesis body_keeps :
  forall top ds fs st, R top -> Q st -> Q (snd (body top ds fs st)).
Hypothesis body_descends :
  forall top ds fs st n,
    R top -> In n (fst (body top ds fs st)) -> R (child top n).

Lemma walk_from_invariant (e : entry) :
  forall top st, R top -> Q st -> Q (Walk.walk_from body top e st).
Proof.
  induction e as [n i | n l es IH] using entry_tree_ind; intros top st HR HQ.
  - exact HQ.
  - destruct l; simpl; [|exact HQ].
    pose proof (body_keeps top (Walk.dir_names es) (Walk.nondir_names es) st HR HQ)
      as HQ1.
    pose proof (body_descends top (Walk.dir_names es) (Walk.nondir_names es) st)
      as HR1.
    destruct (body top (Walk.dir_names es) (Walk.nondir_names es) st)
      as [dirnames st1].
    simpl in HQ1, HR1.
    assert (Hnames : forall m, In m dirnames -> R (child top m)) by
      (intros m Hm; apply HR1; assumption).
    clear HR1. revert st1 HQ1.
    induction dirnames as [|m names IHn]; intros st1 HQ1; [exact HQ1|].
    apply IHn.
    + intros m' Hm'. apply Hnames. now right.
    + assert (Hm : R (child top m)) by (apply Hnames; now left).
      clear IHn Hnames.
      induction IH as [|e' es' He' _ IHes]; [exact HQ1|].
      destruct (entry_is_dir e' && String.eqb (entry_name e') m).
      * apply He'; assumption.
      * exact IHes.
Qed.

Lemma walk_invariant (w : world) (top : Path) (st : S) :
  R top -> Q st -> Q (Walk.walk body w top st).
Proof.
  intros HR HQ. unfold Walk.walk.
  destruct (lookup w top); [apply walk_from_invariant|]; assumption.
Qed.

End WalkInvariant.

(** ** What every gathered file has passed *)

Lemma Forall_snoc {A : Type} (P : A -> Prop) (l : list A) (x : A) :
  Forall P l -> P x -> Forall P (l ++ [x]).
Proof.
  intros Hl Hx. apply Forall_app. split; [assumption | now constructor].
Qed.

Lemma deep_try_passes (w : world) (patterns : list string) (cutoff : Z)
  (current_dir : Path) (name : string) (files files' : list Path) :
  deep_try w patterns cutoff current_dir name files = Ok files' ->
  files' = files \/
  (files' = files ++ [child current_dir name] /\
   passes w cutoff (child current_dir name)).
Proof.
  unfold deep_try.
  destruct (String.eqb (Str.lower (suffix (child current_dir name))) ".csv")
    eqn:Hcsv; simpl; [|intros [= <-]; now left].
  destruct (has_ignored_suffix w (child current_dir name)) eqn:Hign;
    [intros [= <-]; now left|].
  destruct (matched_any (system w) name patterns) as [[|]|e]; simpl;
    try discriminate; [|intros [= <-]; now left].
  destruct (stat_mtime w (child current_dir name)) as [t|e] eqn:Hstat; simpl;
    try discriminate.
  destruct (cutoff <=? t)%Z eqn:Hcut; intros [= <-]; [right|now left].
  split; [reflexivity|].
  repeat split; auto.
  - exists t. split; [assumption | now apply Z.leb_le].
  - now apply String.eqb_eq.
Qed.

Lemma deep_file_passes (w : world) (patterns : list string) (cutoff : Z)
  (current_dir : Path) (files : list Path) (name : string) :
  Forall (passes w cutoff) files ->
  Forall (passes w cutoff) (deep_file w patterns cutoff current_dir files name).
Proof.
  intros Hfiles. unfold deep_file.
  destruct (deep_try w patterns cutoff current_dir name files) as [files'|e]
    eqn:Htry; [|assumption].
  apply deep_try_passes in Htry as [-> | [-> Hp]]; [assumption|].
  now apply Forall_snoc.
Qed.

Lemma shallow_try_passes (w : world) (cutoff : Z) (p : Path)
  (files files' : list Path) :
  shallow_try w cutoff p files = Ok files' ->
  files' = files \/ (files' = files ++ [p] /\ passes w cutoff p).
Proof.
  unfold shallow_try.
  destruct (is_file w p); simpl; [|intros [= <-]; now left].
  destruct (String.eqb (Str.lower (suffix p)) ".csv") eqn:Hcsv; simpl;
    [|intros [= <-]; now left].
  destruct (stat_mtime w p) as [t|e] eqn:Hstat; simpl; try discriminate.
  destruct (cutoff <=? t)%Z eqn:Hcut; simpl; [|intros [= <-]; now left].
  destruct (has_ignored_suffix w p) eqn:Hign; simpl;
    intros [= <-]; [now left | right].
  split; [reflexivity|].
  repeat split; auto.
  - exists t. split; [assumption | now apply Z.leb_le].
  - now apply String.eqb_eq.
Qed.

Lemma shallow_file_passes (w : world) (cutoff : Z)
  (files : list Path) (p : Path) :
  Forall (passes w cutoff) files ->
  Forall (passes w cutoff) (shallow_file w cutoff files p).
Proof.
  intros Hfiles. unfold shallow_file.
  destruct (shallow_try w cutoff p files) as [files'|e] eqn:Htry; [|assumption].
  apply shallow_try_passes in Htry as [-> | [-> Hp]]; [assumption|].
  now apply Forall_snoc.
Qed.

Lemma scan_passes (w : world) (cutoff : Z)
  (dirs : list Path) (patterns : list string) (deep : bool) :
  Forall (passes w cutoff) (scan w cutoff dirs patterns deep).
Proof.
  unfold scan. destruct deep.
  - apply fold_left_invariant; [|constructor].
    intros files root Hfiles.
    apply (walk_invariant (deep_body w patterns cutoff) (fun _ => True));
      auto.
    intros top ds fs st _ Hst. unfold deep_body; simpl.
    apply fold_left_invariant; [|assumption].
    intros a x Ha. now apply deep_file_passes.
  - apply fold_left_invariant; [|constructor].
    intros files d Hfiles.
    apply fold_left_invariant; [|assumption].
    intros a x Ha. now apply shallow_file_passes.
Qed.

(** ** The sort *)

Lemma sort_keys_total (w : world) (files : list Path) :
  Forall (fun p => exists t, stat_mtime w p = Ok t) files ->
  exists keyed, sort_keys w files = Ok keyed.
Proof.
  induction 1 as [|p r [t Ht] _ [ks IH]]; simpl.
  - now exists [].
  - rewrite Ht, IH. simpl. now eexists.
Qed.

Lemma sort_keys_spec (w : world) (files : list Path) (keyed : list (Z * Path)) :
  sort_keys w files = Ok keyed ->
  map snd keyed = files /\
  Forall (fun kp => stat_mtime w (snd kp) = Ok (fst kp)) keyed.
Proof.
  revert keyed.
  induction files as [|p r IH]; simpl; intros keyed.
  - intros [= <-]. now split.
  - destruct (stat_mtime w p) as [t|e] eqn:Ht; simpl; try discriminate.
    destruct (sort_keys w r) as [ks|e]; simpl; try discriminate.
    intros [= <-]. destruct (IH ks eq_refl) as [Hmap Hall].
    simpl. split; [now rewrite Hmap | now constructor].
Qed.

Lemma insert_desc_perm (x : Z * Path) (l : list (Z * Path)) :
  Permutation (insert_desc x l) (x :: l).
Proof.
  induction l as [|y r IH]; simpl; [reflexivity|].
  destruct (fst x <? fst y)%Z; [|reflexivity].
  rewrite IH. apply perm_swap.
Qed.

Lemma sort_desc_perm (l : list (Z * Path)) : Permutation (sort_desc l) l.
Proof.
  induction l as [|x r IH]; simpl; [reflexivity|].
  rewrite insert_desc_perm. now constructor.
Qed.

Lemma insert_desc_sorted (x : Z * Path) (l : list (Z * Path)) :
  StronglySorted key_ge l -> StronglySorted key_ge (insert_desc x l).
Proof.
  induction 1 as [|y r Hr IH Hy]; simpl.
  - repeat constructor.
  - destruct (fst x <? fst y)%Z eqn:Hlt.
    + constructor; [assumption|].
      eapply Permutation_Forall; [symmetry; apply insert_desc_perm|].
      constructor; [|assumption].
      unfold key_ge. apply Z.ltb_lt in Hlt. lia.
    + apply Z.ltb_ge in Hlt.
      constructor; [now constructor|].
      constructor; [exact Hlt|].
      eapply Forall_impl; [|exact Hy].
      intros z Hz. unfold key_ge in *. lia.
Qed.

Lemma sort_desc_sorted (l : list (Z * Path)) :
  StronglySorted key_ge (sort_desc l).
Proof.
  induction l as [|x r IH]; simpl; [constructor|].
  now apply insert_desc_sorted.
Qed.

(** ** [_recent_files] returns, and what it returns *)

Lemma passes_stat (w : world) (cutoff : Z) (l : list Path) :
  Forall (passes w cutoff) l ->
  Forall (fun p => exists t, stat_mtime w p = Ok t) l.
Proof.
  apply Forall_impl. intros p [[t [Ht _]] _]. now exists t.
Qed.

Lemma recent_files_unfold (w : world) (now : Z) (dirs : list Path)
  (patterns : list string) (recent_minutes : Z) (deep : bool) :
  exists keyed,
    sort_keys w (scan w (now - recent_minutes * 60) dirs patterns deep)
      = Ok keyed /\
    _recent_files w now dirs patterns recent_minutes deep
      = Ok (map snd (sort_desc keyed)).
Proof.
  destruct (sort_keys_total w
              (scan w (now - recent_minutes * 60) dirs patterns deep))
    as [keyed Hk].
  - eapply passes_stat, scan_passes.
  - exists keyed. split; [assumption|].
    unfold _recent_files. now rewrite Hk.
Qed.

Lemma recent_files_perm (w : world) (now : Z) (dirs : list Path)
  (patterns : list string) (recent_minutes : Z) (deep : bool) :
  exists files,
    _recent_files w now dirs patterns recent_minutes deep = Ok files /\
    Permutation files
      (scan w (now - recent_minutes * 60) dirs patterns deep).
Proof.
  destruct (recent_files_unfold w now dirs patterns recent_minutes deep)
    as [keyed [Hk Hr]].
  eexists. split; [exact Hr|].
  apply sort_keys_spec in Hk as [Hmap _].
  rewrite <- Hmap. apply Permutation_map, sort_desc_perm.
Qed.

(** [_recent_files] never raises. *)
Lemma recent_files_total (w : world) (now : Z) (dirs : list Path)
  (patterns : list string) (recent_minutes : Z) (deep : bool) :
  exists files,
    _recent_files w now dirs patterns recent_minutes deep = Ok files.
Proof.
  destruct (recent_files_perm w now dirs patterns recent_minutes deep)
    as [files [H _]].
  now exists files.
Qed.

Lemma existsb_false_in {A : Type} (f : A -> bool) (l : list A) :
  existsb f l = false -> forall x, In x l -> f x = false.
Proof.
  intros H x Hx.
  destruct (f x) eqn:Hfx; [|reflexivity].
  assert (existsb f l = true) by (apply existsb_exists; eauto).
  congruence.
Qed.

(** C1.  Whatever the tree, the patterns and the window, and in both
    modes, [_recent_files] returns a list in which no file is older than
    [now - recent_minutes * 60] and no file has a path that, lowercased,
    ends with [.crdownload], [.part] or [.tmp]. *)
Theorem recent_files_recent_and_complete :
  forall (w : world) (now : Z) (dirs : list Path) (patterns : list string)
         (recent_minutes : Z) (deep : bool),
  exists files,
    _recent_files w now dirs patterns recent_minutes deep = Ok files /\
    forall p, In p files ->
      (exists t, stat_mtime w p = Ok t /\
                 ~ (t < now - recent_minutes * 60)%Z) /\
      (forall suf, In suf [".crdownload"; ".part"; ".tmp"] ->
         Str.endswith (Str.lower (str (system w) p)) suf = false).
Proof.
  intros w now dirs patterns recent_minutes deep.
  destruct (recent_files_perm w now dirs patterns recent_minutes deep)
    as [files [Hr Hperm]].
  exists files. split; [exact Hr|].
  intros p Hp.
  pose proof (scan_passes w (now - recent_minutes * 60) dirs patterns deep)
    as Hall.
  rewrite Forall_forall in Hall.
  destruct (Hall p) as [[t [Ht Hcut]] [Hign _]].
  - eapply Permutation_in; eassumption.
  - split.
    + exists t. split; [assumption | lia].
    + intros suf Hsuf. unfold has_ignored_suffix in Hign.
      exact (existsb_false_in _ _ Hign suf Hsuf).
Qed.

Lemma StronglySorted_map_in {A B : Type} (R : A -> A -> Prop)
  (R' : B -> B -> Prop) (f : A -> B) (l : list A) :
  (forall a b, In a l -> In b l -> R a b -> R' (f a) (f b)) ->
  StronglySorted R l -> StronglySorted R' (map f l).
Proof.
  intros Himp Hs.
  induction Hs as [|a l Hs IH Ha]; simpl; constructor.
  - apply IH. intros x y Hx Hy. apply Himp; now right.
  - rewrite Forall_map. rewrite Forall_forall in *.
    intros b Hb. apply Himp; [now left | now right | now apply Ha].
Qed.

(** C3.  The list [_recent_files] returns holds the files gathered by
    the scan, ordered by modification time, newest first; so its first
    element is at least as recent as every gathered file. *)
Theorem recent_files_newest_first :
  forall (w : world) (now : Z) (dirs : list Path) (patterns : list string)
         (recent_minutes : Z) (deep : bool),
  exists files,
    _recent_files w now dirs patterns recent_minutes deep = Ok files /\
    Permutation files
      (scan w (now - recent_minutes * 60) dirs patterns deep) /\
    StronglySorted (newer_or_same w) files /\
    (forall first rest, files = first :: rest ->
       forall p,
         In p (scan w (now - recent_minutes * 60) dirs patterns deep) ->
         newer_or_same w first p).
Proof.
  intros w now dirs patterns recent_minutes deep.
  destruct (recent_files_unfold w now dirs patterns recent_minutes deep)
    as [keyed [Hk Hr]].
  destruct (sort_keys_spec _ _ _ Hk) as [Hmap Hstat].
  assert (Hperm : Permutation (map snd (sort_desc keyed))
                    (scan w (now - recent_minutes * 60) dirs patterns deep)).
  { rewrite <- Hmap. apply Permutation_map, sort_desc_perm. }
  assert (Hsorted : StronglySorted (newer_or_same w)
                      (map snd (sort_desc keyed))).
  { apply StronglySorted_map_in with (R := key_ge);
      [|apply sort_desc_sorted].
    rewrite Forall_forall in Hstat.
    intros a b Ha Hb Hab.
    exists (fst a), (fst b). repeat split.
    - apply Hstat. eapply Permutation_in; [apply sort_desc_perm | exact Ha].
    - apply Hstat. eapply Permutation_in; [apply sort_desc_perm | exact Hb].
    - exact Hab. }
  eexists. split; [exact Hr|]. split; [exact Hperm|]. split; [exact Hsorted|].
  intros first rest Heq p Hp.
  rewrite Heq in Hsorted, Hperm.
  apply StronglySorted_inv in Hsorted as [_ Hfirst].
  rewrite Forall_forall in Hfirst.
  apply Permutation_sym in Hperm.
  apply (Permutation_in _ Hperm) in Hp as [<- | Hin].
  - pose proof (scan_passes w (now - recent_minutes * 60) dirs patterns deep)
      as Hall.
    rewrite Forall_forall in Hall.
    destruct (Hall first) as [[t [Ht _]] _].
    + eapply Permutation_in; [apply Permutation_sym; exact Hperm | now left].
    + exists t, t. repeat split; auto. lia.
  - now apply Hfirst.
Qed.

(** ** Errors on single items stay where they occur *)

Lemma dedup_from_incl (plat : platform) (seen l : list Path) :
  incl (dedup_from plat seen l) l.
Proof.
  revert seen.
  induction l as [|p r IH]; intros seen q; simpl; [auto|].
  destruct (PathOps.mem plat p seen).
  - intros Hq. right. eapply IH, Hq.
  - intros [<- | Hq]; [now left | right; eapply IH, Hq].
Qed.




(** ** Reading the tree after it was changed *)

Lemma name_eqb_refl (plat : platform) (a : string) : name_eqb plat a a = true.
Proof. apply String.eqb_refl. Qed.

Lemma name_eqb_sym (plat : platform) (a b : string) :
  name_eqb plat a b = name_eqb plat b a.
Proof. apply String.eqb_sym. Qed.

Lemma name_eqb_congr (plat : platform) (a b c : string) :
  name_eqb plat a b = true -> name_eqb plat a c = name_eqb plat b c.
Proof.
  unfold name_eqb. intros H. apply String.eqb_eq in H. now rewrite H.
Qed.

Lemma eqb_sym (plat : platform) (p q : Path) :
  PathOps.eqb plat p q = PathOps.eqb plat q p.
Proof.
  revert q. induction p as [|a p IH]; intros [|b q]; simpl; auto.
  now rewrite IH, name_eqb_sym.
Qed.

Lemma find_entry_name (plat : platform) (n : string) (es : list entry)
  (e : entry) :
  find_entry plat n es = Some e -> name_eqb plat (entry_name e) n = true.
Proof.
  induction es as [|e0 r IH]; simpl; [discriminate|].
  destruct (name_eqb plat (entry_name e0) n) eqn:H0; [|exact IH].
  now intros [= <-].
Qed.

Lemma find_entry_congr (plat : platform) (m n : string) (es : list entry) :
  name_eqb plat m n = true -> find_entry plat m es = find_entry plat n es.
Proof.
  intros H. induction es as [|e r IH]; simpl; [reflexivity|].
  rewrite (name_eqb_sym plat (entry_name e) m), (name_eqb_congr _ _ _ _ H).
  rewrite (name_eqb_sym plat n). now rewrite IH.
Qed.

Lemma find_put_entry (plat : platform) (m n : string) (e' : entry)
  (es : list entry) :
  name_eqb plat (entry_name e') n = true ->
  find_entry plat m (put_entry plat n e' es)
  = if name_eqb plat m n then Some e' else find_entry plat m es.
Proof.
  intros He'.
  assert (Hm : name_eqb plat (entry_name e') m = name_eqb plat m n).
  { rewrite (name_eqb_congr _ _ _ _ He'). apply name_eqb_sym. }
  induction es as [|e r IH]; simpl.
  - rewrite Hm. now destruct (name_eqb plat m n).
  - destruct (name_eqb plat (entry_name e) n) eqn:Hen; simpl.
    + rewrite Hm.
      destruct (name_eqb plat m n) eqn:Hmn; [reflexivity|].
      rewrite (name_eqb_congr _ _ _ _ Hen), (name_eqb_sym plat n), Hmn.
      reflexivity.
    + destruct (name_eqb plat (entry_name e) m) eqn:Hem.
      * destruct (name_eqb plat m n) eqn:Hmn; [|reflexivity].
        rewrite (name_eqb_congr _ _ _ _ Hem) in Hen. congruence.
      * exact IH.
Qed.

Lemma find_del_entry (plat : platform) (m n : string) (es : list entry) :
  find_entry plat m (del_entry plat n es)
  = if name_eqb plat m n then None else find_entry plat m es.
Proof.
  unfold del_entry.
  induction es as [|e r IH]; simpl.
  - now destruct (name_eqb plat m n).
  - destruct (name_eqb plat (entry_name e) n) eqn:Hen; simpl.
    + rewrite IH. destruct (name_eqb plat m n) eqn:Hmn; [reflexivity|].
      rewrite (name_eqb_congr _ _ _ _ Hen), (name_eqb_sym plat n), Hmn.
      reflexivity.
    + rewrite IH. destruct (name_eqb plat (entry_name e) m) eqn:Hem;
        [|reflexivity].
      destruct (name_eqb plat m n) eqn:Hmn; [|reflexivity].
      rewrite (name_eqb_congr _ _ _ _ Hem) in Hen. congruence.
Qed.

Lemma put_entry_same (plat : platform) (n : string) (e : entry)
  (es : list entry) :
  find_entry plat n es = Some e -> put_entry plat n e es = es.
Proof.
  induction es as [|e0 r IH]; simpl; [discriminate|].
  destruct (name_eqb plat (entry_name e0) n).
  - now intros [= ->].
  - intros H. now rewrite IH.
Qed.

Lemma alter_write_read (plat : platform) (f : Z * list byte)
  (p : list string) :
  forall es es',
    alter plat (write_leaf plat f) p es = Some es' ->
    read_in plat p es' = Some f.
Proof.
  induction p as [|n rest IH]; intros es es'; simpl; [discriminate|].
  destruct rest as [|n' rest'].
  - unfold write_leaf, read_in.
    destruct (find_entry plat n es) as [[n0 i | n0 l sub]|] eqn:Hfind;
      try discriminate; intros [= <-]; simpl.
    + rewrite find_put_entry, name_eqb_refl; [reflexivity|].
      exact (find_entry_name _ _ _ _ Hfind).
    + rewrite find_put_entry, name_eqb_refl; [reflexivity|].
      apply name_eqb_refl.
  - destruct (find_entry plat n es) as [[n0 i | n0 l sub]|] eqn:Hfind;
      try discriminate.
    destruct (alter plat (write_leaf plat f) (n' :: rest') sub) as [sub'|]
      eqn:Halt; try discriminate.
    intros [= <-]. unfold read_in. simpl lookup_in.
    rewrite find_put_entry, name_eqb_refl
      by exact (find_entry_name _ _ _ _ Hfind).
    apply (IH _ _ Halt).
Qed.

(** A change at [p] that touches only the entry of that name is not seen
    at any other path. *)
Lemma alter_frame (plat : platform)
  (leaf : string -> list entry -> option (list entry)) :
  (forall n es es1, leaf n es = Some es1 ->
     (forall m, name_eqb plat m n = false ->
        find_entry plat m es1 = find_entry plat m es) /\
     (forall e, find_entry plat n es = Some e -> entry_is_dir e = false) /\
     (forall e, find_entry plat n es1 = Some e -> entry_is_dir e = false)) ->
  forall p q es es',
    alter plat leaf p es = Some es' ->
    PathOps.eqb plat p q = false ->
    read_in plat q es' = read_in plat q es.
Proof.
  intros Hleaf.
  induction p as [|n rest IH]; intros q es es'; simpl; [discriminate|].
  destruct q as [|m qrest]; [reflexivity|].
  destruct (name_eqb plat n m) eqn:Hnm; simpl.
  - assert (Hmn : name_eqb plat m n = true) by now rewrite name_eqb_sym.
    destruct rest as [|n' rest'].
    + intros Hl Hq. destruct qrest as [|m' qrest']; [discriminate|].
      destruct (Hleaf _ _ _ Hl) as [_ [Hold Hnew]].
      unfold read_in. simpl lookup_in.
      rewrite !(find_entry_congr _ _ _ _ Hmn).
      destruct (find_entry plat n es') as [[? ?|? ? ?]|] eqn:H1;
        destruct (find_entry plat n es) as [[? ?|? ? ?]|] eqn:H2;
        try reflexivity;
        try (specialize (Hold _ eq_refl); discriminate);
        try (specialize (Hnew _ eq_refl); discriminate).
    + destruct (find_entry plat n es) as [[n0 i | n0 l sub]|] eqn:Hfind;
        try discriminate.
      destruct (alter plat leaf (n' :: rest') sub) as [sub'|] eqn:Halt;
        try discriminate.
      intros [= <-] Hq. unfold read_in. simpl lookup_in.
      rewrite find_put_entry by exact (find_entry_name _ _ _ _ Hfind).
      rewrite Hmn, (find_entry_congr _ _ _ _ Hmn), Hfind.
      destruct qrest as [|m' qrest']; [reflexivity|].
      exact (IH _ _ _ Halt Hq).
  - assert (Hmn : name_eqb plat m n = false) by now rewrite name_eqb_sym.
    intros Halt _. unfold read_in. simpl lookup_in.
    assert (Hsame : find_entry plat m es' = find_entry plat m es).
    { destruct rest as [|n' rest'].
      - destruct (Hleaf _ _ _ Halt) as [H _]. now apply H.
      - destruct (find_entry plat n es) as [[n0 i | n0 l sub]|] eqn:Hfind;
          try discriminate.
        destruct (alter plat leaf (n' :: rest') sub) as [sub'|];
          try discriminate.
        injection Halt as <-.
        rewrite find_put_entry by exact (find_entry_name _ _ _ _ Hfind).
        now rewrite Hmn. }
    now rewrite Hsame.
Qed.

Lemma write_leaf_local (plat : platform) (f : Z * list byte) :
  forall n es es1, write_leaf plat f n es = Some es1 ->
    (forall m, name_eqb plat m n = false ->
       find_entry plat m es1 = find_entry plat m es) /\
    (forall e, find_entry plat n es = Some e -> entry_is_dir e = false) /\
    (forall e, find_entry plat n es1 = Some e -> entry_is_dir e = false).
Proof.
  intros n es es1. unfold write_leaf.
  destruct (find_entry plat n es) as [[n0 i | n0 l sub]|] eqn:Hfind;
    try discriminate; intros [= <-].
  - pose proof (find_entry_name _ _ _ _ Hfind) as Hn0.
    repeat split.
    + intros m Hm. rewrite find_put_entry by exact Hn0. now rewrite Hm.
    + now intros e [= <-].
    + intros e. rewrite find_put_entry, name_eqb_refl by exact Hn0.
      now intros [= <-].
  - repeat split.
    + intros m Hm. rewrite find_put_entry by apply name_eqb_refl.
      now rewrite Hm.
    + discriminate.
    + intros e. rewrite find_put_entry, name_eqb_refl by apply name_eqb_refl.
      now intros [= <-].
Qed.

Lemma remove_leaf_local (plat : platform) :
  forall n es es1, remove_leaf plat n es = Some es1 ->
    (forall m, name_eqb plat m n = false ->
       find_entry plat m es1 = find_entry plat m es) /\
    (forall e, find_entry plat n es = Some e -> entry_is_dir e = false) /\
    (forall e, find_entry plat n es1 = Some e -> entry_is_dir e = false).
Proof.
  intros n es es1. unfold remove_leaf.
  destruct (find_entry plat n es) as [[n0 i | n0 l sub]|] eqn:Hfind;
    try discriminate; intros [= <-].
  repeat split.
  - intros m Hm. rewrite find_del_entry. now rewrite Hm.
  - now intros e [= <-].
  - intros e. rewrite find_del_entry, name_eqb_refl. discriminate.
Qed.

Lemma read_file_with_tree (w : world) (t : list entry) (p : Path) :
  read_file (with_tree w t) p = read_in (system w) p t.
Proof. reflexivity. Qed.

Lemma read_file_read_in (w : world) (p : Path) :
  read_file w p = read_in (system w) p (tree w).
Proof. reflexivity. Qed.

(** What was written can be read back. *)
Lemma write_then_read (w w' : world) (p : Path) (f : Z * list byte) :
  write_file w p f = Some w' -> read_file w' p = Some f.
Proof.
  unfold write_file.
  destruct p as [|a [|b r]]; try discriminate.
  destruct (alter _ _ _ _) as [t|] eqn:Halt; try discriminate.
  intros [= <-]. rewrite read_file_with_tree.
  exact (alter_write_read _ _ _ _ _ Halt).
Qed.

(** Writing a file leaves every other file as it was. *)
Lemma write_elsewhere (w w' : world) (p q : Path) (f : Z * list byte) :
  write_file w p f = Some w' ->
  PathOps.eqb (system w) p q = false ->
  read_file w' q = read_file w q.
Proof.
  unfold write_file.
  destruct p as [|a [|b r]]; try discriminate.
  destruct (alter _ _ _ _) as [t|] eqn:Halt; try discriminate.
  intros [= <-] Hpq. rewrite read_file_with_tree, read_file_read_in.
  exact (alter_frame _ _ (write_leaf_local _ f) _ _ _ _ Halt Hpq).
Qed.

(** Removing a file leaves every other file as it was. *)
Lemma remove_elsewhere (w w' : world) (p q : Path) :
  remove_file w p = Some w' ->
  PathOps.eqb (system w) p q = false ->
  read_file w' q = read_file w q.
Proof.
  unfold remove_file.
  destruct p as [|a [|b r]]; try discriminate.
  destruct (alter _ _ _ _) as [t|] eqn:Halt; try discriminate.
  intros [= <-] Hpq. rewrite read_file_with_tree, read_file_read_in.
  exact (alter_frame _ _ (remove_leaf_local _) _ _ _ _ Halt Hpq).
Qed.

Lemma alter_remove_gone (plat : platform) (p : list string) :
  forall es es',
    alter plat (remove_leaf plat) p es = Some es' ->
    read_in plat p es' = None.
Proof.
  induction p as [|n rest IH]; intros es es'; simpl; [discriminate|].
  destruct rest as [|n' rest'].
  - unfold remove_leaf, read_in.
    destruct (find_entry plat n es) as [[n0 i | n0 l sub]|];
      try discriminate; intros [= <-]; simpl.
    now rewrite find_del_entry, name_eqb_refl.
  - destruct (find_entry plat n es) as [[n0 i | n0 l sub]|] eqn:Hfind;
      try discriminate.
    destruct (alter plat (remove_leaf plat) (n' :: rest') sub) as [sub'|]
      eqn:Halt; try discriminate.
    intros [= <-]. unfold read_in. simpl lookup_in.
    rewrite find_put_entry, name_eqb_refl
      by exact (find_entry_name _ _ _ _ Hfind).
    apply (IH _ _ Halt).
Qed.

(** A removed file is gone. *)
Lemma remove_then_read (w w' : world) (p : Path) :
  remove_file w p = Some w' -> read_file w' p = None.
Proof.
  unfold remove_file.
  destruct p as [|a [|b r]]; try discriminate.
  destruct (alter _ _ _ _) as [t|] eqn:Halt; try discriminate.
  intros [= <-]. rewrite read_file_with_tree.
  exact (alter_remove_gone _ _ _ _ Halt).
Qed.

(** [mkdirs] ends with a directory at [p]. *)
Lemma mkdirs_is_dir (plat : platform) (p : list string) :
  forall es es',
    p <> [] -> mkdirs plat p es = Some es' ->
    exists n l sub, lookup_in plat p es' = Some (Dir n l sub).
Proof.
  induction p as [|n rest IH]; intros es es' Hne; [congruence|]. simpl.
  assert (Hrest : forall sub sub' n0 l,
            name_eqb plat n0 n = true ->
            mkdirs plat rest sub = Some sub' ->
            exists n1 l1 sub1,
              lookup_in plat (n :: rest) (put_entry plat n (Dir n0 l sub') es)
              = Some (Dir n1 l1 sub1)).
  { intros sub sub' n0 l Hn0 Hmk. simpl.
    rewrite find_put_entry, name_eqb_refl by exact Hn0.
    destruct rest as [|n' rest']; [now eauto|].
    apply (IH sub sub'); [discriminate | exact Hmk]. }
  destruct (find_entry plat n es) as [[n0 i | n0 l sub]|] eqn:Hfind;
    try discriminate.
  - destruct (mkdirs plat rest sub) as [sub'|] eqn:Hmk; try discriminate.
    intros [= <-].
    apply (Hrest sub sub'); [|exact Hmk].
    exact (find_entry_name _ _ _ _ Hfind).
  - destruct (mkdirs plat rest []) as [sub'|] eqn:Hmk; try discriminate.
    intros [= <-].
    apply (Hrest [] sub'); [apply name_eqb_refl | exact Hmk].
Qed.

(** [mkdirs] changes nothing where the directory is already there. *)
Lemma mkdirs_existing (plat : platform) (p : list string) :
  forall es n l sub,
    lookup_in plat p es = Some (Dir n l sub) -> mkdirs plat p es = Some es.
Proof.
  induction p as [|m rest IH]; intros es n l sub; simpl; [discriminate|].
  destruct (find_entry plat m es) as [[n0 i | n0 l0 sub0]|] eqn:Hfind;
    try discriminate.
  - destruct rest; discriminate.
  - destruct rest as [|m' rest'].
    + intros _. simpl. now rewrite (put_entry_same _ _ _ _ Hfind).
    + intros Hl. rewrite (IH _ _ _ _ Hl).
      now rewrite (put_entry_same _ _ _ _ Hfind).
Qed.

Lemma with_tree_same (w : world) : with_tree w (tree w) = w.
Proof. now destruct w. Qed.

(** After a [mkdir] that returned, the directory is there. *)
Lemma mkdir_p_is_dir (fault : bool) (w w' : world) (p : Path) :
  mkdir_p fault w p = (Ok tt, w') -> is_dir w' p = true.
Proof.
  unfold mkdir_p. destruct fault; try discriminate.
  destruct p as [|a r]; try discriminate.
  destruct (find_entry (system w) a (tree w)) as [[? ?|? ? ?]|];
    try discriminate.
  destruct (mkdirs (system w) (a :: r) (tree w)) as [t|] eqn:Hmk;
    try discriminate.
  intros [= <-]. unfold is_dir, lookup. simpl.
  assert (Hne : a :: r <> []) by discriminate.
  destruct (mkdirs_is_dir _ _ _ _ Hne Hmk) as [n [l [sub H]]].
  simpl in H. now rewrite H.
Qed.

(** [exist_ok=True]: where the directory is there already, [mkdir]
    returns and the tree is as before. *)
Lemma mkdir_p_existing (w : world) (p : Path) :
  is_dir w p = true -> mkdir_p false w p = (Ok tt, w).
Proof.
  unfold is_dir, lookup, mkdir_p.
  destruct (lookup_in (system w) p (tree w)) as [[? ?|n l sub]|] eqn:Hl;
    try discriminate.
  intros _. destruct p as [|a r]; [discriminate|].
  rewrite (mkdirs_existing _ _ _ _ _ _ Hl), with_tree_same.
  simpl in Hl.
  destruct (find_entry (system w) a (tree w)) as [[? ?|? ? ?]|];
    try discriminate; [|reflexivity].
  destruct r; discriminate.
Qed.

(** ** [collect_csv]: the order of the steps *)

(** What [print_lines] adds to the trace: the lines printed, which are
    the first of the lines it was given. *)
Lemma print_lines_trace (env : environ) (lines : list string) :
  forall tr,
  exists printed rest,
    lines = printed ++ rest /\
    snd (print_lines env lines tr) = tr ++ map Print printed /\
    Forall (fun l => stdout env l = None) printed /\
    match fst (print_lines env lines tr) with
    | None => rest = @nil string
    | Some f => exists l rest', rest = l :: rest' /\ stdout env l = Some f
    end.
Proof.
  induction lines as [|l lines IH]; intros tr.
  - exists [], []. simpl. rewrite app_nil_r. repeat split. constructor.
  - simpl. destruct (stdout env l) as [f|] eqn:Hl.
    + exists [], (l :: lines). simpl. rewrite app_nil_r.
      repeat split; [constructor | eauto].
    + destruct (IH (tr ++ [Print l])) as [printed [rest [-> [Htr [Hall Hf]]]]].
      exists (l :: printed), rest. simpl. rewrite Htr, <- app_assoc.
      repeat split; [constructor; assumption | exact Hf].
Qed.

Lemma searches_app (a b : list event) :
  searches (a ++ b) = searches a ++ searches b.
Proof. unfold searches. apply flat_map_app. Qed.

Lemma searches_printed (lines : list string) : searches (map Print lines) = [].
Proof. induction lines as [|l lines IH]; [reflexivity | exact IH]. Qed.

(** The end of a run: the world is as it was given, the trace grows by
    lines of the report, and the run returns [dst] unless a line of the
    report could not be printed. *)
Lemma finish_spec (w : world) (env : environ)
  (repo_root data_dir src dst : Path) (tr : list event) :
  let r := finish w env repo_root data_dir src dst tr in
  final r = w /\
  (exists printed, trace r = tr ++ map Print printed) /\
  ((outcome r = Ok dst /\
    Forall (fun l => stdout env l = None)
           (report (system w) repo_root data_dir src dst)) \/
   (exists f l,
      outcome r = Raise (raised f) /\
      In l (report (system w) repo_root data_dir src dst) /\
      stdout env l = Some f)).
Proof.
  cbv zeta. unfold finish.
  destruct (print_lines_trace env
              (report (system w) repo_root data_dir src dst) tr)
    as [printed [rest [Hlines [Htr [Hall Hf]]]]].
  revert Htr Hf.
  destruct (print_lines env _ tr) as [[f|] tr']; cbn [fst snd];
    intros Htr Hf; cbn [final trace outcome].
  - split; [reflexivity|]. split; [eauto|]. right.
    destruct Hf as [l [rest' [-> Hl]]]. exists f, l.
    split; [reflexivity|]. split; [|exact Hl].
    rewrite Hlines. apply in_or_app. right. now left.
  - split; [reflexivity|]. split; [eauto|]. left.
    split; [reflexivity|]. subst rest. rewrite Hlines, app_nil_r.
    exact Hall.
Qed.

Lemma finish_searches (w : world) (env : environ)
  (repo_root data_dir src dst : Path) (tr : list event) :
  searches (trace (finish w env repo_root data_dir src dst tr)) = searches tr.
Proof.
  destruct (finish_spec w env repo_root data_dir src dst tr)
    as [_ [[printed ->] _]].
  now rewrite searches_app, searches_printed, app_nil_r.
Qed.

Lemma move_into_searches (w : world) (env : environ)
  (repo_root data_dir src dst : Path) (tr : list event) :
  searches (trace (move_into w env repo_root data_dir src dst tr))
  = searches tr.
Proof.
  unfold move_into.
  destruct (shutil_move _ _ _ _) as [[[]|e] w1].
  - rewrite finish_searches, searches_app. simpl. apply app_nil_r.
  - destruct (shutil_copy2 _ _ _ _) as [[[]|e2] w2].
    + destruct (unlink _ _ _) as [[[]|e3] w3];
        rewrite finish_searches, searches_app; simpl; apply app_nil_r.
    + simpl. rewrite searches_app. simpl. apply app_nil_r.
Qed.

Lemma move_into_final_mkdir (w : world) (env : environ)
  (repo_root data_dir src dst : Path) (tr : list event) :
  exists rest,
    trace (move_into w env repo_root data_dir src dst tr) = tr ++ rest.
Proof.
  unfold move_into.
  destruct (shutil_move _ _ _ _) as [[[]|e] w1].
  - destruct (finish_spec w1 env repo_root data_dir src dst
                (tr ++ [Move src dst false])) as [_ [[printed ->] _]].
    rewrite <- app_assoc. eauto.
  - destruct (shutil_copy2 _ _ _ _) as [[[]|e2] w2]; [|simpl; eauto].
    destruct (unlink _ _ _) as [[[]|e3] w3];
      match goal with
      | |- context [finish ?a ?b ?c ?d ?e ?f ?g] =>
          destruct (finish_spec a b c d e f g) as [_ [[printed ->] _]]
      end; rewrite <- app_assoc; eauto.
Qed.

Lemma stat_read (w : world) (p : Path) (t : Z) :
  stat_mtime w p = Ok t -> exists d, read_file w p = Some (t, d).
Proof.
  unfold stat_mtime, read_file.
  destruct (lookup w p) as [[n [[t' d]|] | n l es]|]; try discriminate.
  intros [= ->]. now exists d.
Qed.

Lemma read_in_congr (plat : platform) (p : list string) :
  forall q es,
    PathOps.eqb plat p q = true -> read_in plat p es = read_in plat q es.
Proof.
  induction p as [|n rest IH]; intros [|m qrest] es; simpl;
    try discriminate; [reflexivity|].
  intros H. apply andb_true_iff in H as [Hn Hrest].
  unfold read_in. simpl lookup_in.
  rewrite (find_entry_congr _ _ _ _ Hn).
  destruct (find_entry plat m es) as [e|]; [|reflexivity].
  destruct rest as [|n' rest']; destruct qrest as [|m' qrest'];
    try discriminate; [reflexivity|].
  destruct e as [? ?|? ? sub]; [reflexivity|].
  exact (IH _ sub Hrest).
Qed.

(** A move that raises leaves the source readable. *)
Lemma shutil_move_keeps_source (fault : move_fault) (w : world)
  (src dst : Path) (e : exn) (f : Z * list byte) :
  fst (shutil_move fault w src dst) = Raise e ->
  read_file w src = Some f ->
  read_file (snd (shutil_move fault w src dst)) src = Some f.
Proof.
  unfold shutil_move. intros Hraise Hread. rewrite Hread in *.
  destruct (is_dir w dst && exists_ w (real_dst w src dst)); [exact Hread|].
  destruct (write_file w (real_dst w src dst) f) as [w'|] eqn:Hwrite;
    [|exact Hread].
  destruct fault.
  - destruct (remove_file w src) as [w1|]; [|exact Hread].
    destruct (write_file w1 (real_dst w src dst) f); [discriminate|].
    exact Hread.
  - exact Hread.
  - simpl.
    destruct (PathOps.eqb (system w) (real_dst w src dst) src) eqn:Heq.
    + pose proof (write_then_read _ _ _ _ Hwrite) as Hdst.
      assert (Hsys : system w' = system w).
      { unfold write_file in Hwrite.
        destruct (real_dst w src dst) as [|? [|? ?]]; try discriminate.
        destruct (alter _ _ _ _); try discriminate.
        now injection Hwrite as <-. }
      rewrite read_file_read_in in Hdst |- *. rewrite Hsys in *.
      now rewrite <- (read_in_congr _ _ _ _ Heq).
    + rewrite (write_elsewhere _ _ _ src _ Hwrite Heq). exact Hread.
Qed.

(** The errors of the library are not the error [collect_csv] raises
    itself. *)
Lemma raised_not_not_found (f : failure) (patterns : option (list string))
  (deep : bool) :
  raised f <> not_found patterns deep.
Proof.
  unfold not_found, not_found_message.
  destruct f; simpl; discriminate.
Qed.

(** What [shutil.copy2] raises. *)
Lemma shutil_copy2_raised (fault : bool) (w : world) (src dst : Path)
  (e : exn) :
  fst (shutil_copy2 fault w src dst) = Raise e ->
  e = ShutilError "are the same file" \/ e = OSError "copy2" \/
  exists f, e = raised f.
Proof.
  unfold shutil_copy2.
  destruct (read_file w src) as [f|].
  - destruct (PathOps.eqb _ _ _).
    + intros [= <-]. now left.
    + destruct (write_file _ _ _).
      * destruct fault; [intros [= <-]; right; now left | discriminate].
      * intros [= <-]. right; right. eexists. reflexivity.
  - intros [= <-]. right; right. now exists NoSuchFile.
Qed.

(** A run that has found a candidate does not end with the error of the
    empty search. *)
Lemma move_into_not_not_found (w : world) (env : environ)
  (repo_root data_dir src dst : Path) (tr : list event)
  (patterns : option (list string)) (deep : bool) :
  outcome (move_into w env repo_root data_dir src dst tr)
  <> Raise (not_found patterns deep).
Proof.
  assert (Hfin : forall w' tr',
            outcome (finish w' env repo_root data_dir src dst tr')
            <> Raise (not_found patterns deep)).
  { intros w' tr'.
    destruct (finish_spec w' env repo_root data_dir src dst tr')
      as [_ [_ [[-> _] | [f [l [-> _]]]]]]; [discriminate|].
    intros [= H]. exact (raised_not_not_found _ _ _ H). }
  unfold move_into.
  destruct (shutil_move (move_faults env) w src dst) as [[[]|e] w1];
    [apply Hfin|].
  destruct (shutil_copy2 (copy_fault env) w1 src dst) as [[[]|e2] w2] eqn:Hc.
  - destruct (unlink _ _ _) as [[[]|e3] w3]; apply Hfin.
  - simpl. intros [= ->].
    assert (Hc' : fst (shutil_copy2 (copy_fault env) w1 src dst)
                  = Raise (not_found patterns deep)) by now rewrite Hc.
    apply shutil_copy2_raised in Hc' as [H | [H | [f H]]];
      try discriminate H.
    symmetry in H. exact (raised_not_not_found _ _ _ H).
Qed.

Lemma deliver_not_not_found (w : world) (env : environ)
  (repo_root data_dir src : Path) (name : string) (tr : list event)
  (patterns : option (list string)) (deep : bool) :
  outcome (deliver w env repo_root data_dir src name tr)
  <> Raise (not_found patterns deep).
Proof.
  unfold deliver. destruct (place w env data_dir name) as [f|dst].
  - simpl. intros [= H]. exact (raised_not_not_found _ _ _ H).
  - apply move_into_not_not_found.
Qed.

Lemma deliver_searches (w : world) (env : environ)
  (repo_root data_dir src : Path) (name : string) (tr : list event) :
  searches (trace (deliver w env repo_root data_dir src name tr))
  = searches tr.
Proof.
  unfold deliver. destruct (place w env data_dir name) as [f|dst].
  - simpl. rewrite searches_app. simpl. apply app_nil_r.
  - apply move_into_searches.
Qed.

Lemma deliver_trace (w : world) (env : environ)
  (repo_root data_dir src : Path) (name : string) (tr : list event) :
  exists rest,
    trace (deliver w env repo_root data_dir src name tr) = tr ++ rest.
Proof.
  unfold deliver. destruct (place w env data_dir name) as [f|dst].
  - simpl. eauto.
  - apply move_into_final_mkdir.
Qed.

(** Every file [_recent_files] returns can be read. *)
Lemma recent_files_readable (w : world) (now : Z) (dirs : list Path)
  (patterns : list string) (recent_minutes : Z) (deep : bool)
  (files : list Path) :
  _recent_files w now dirs patterns recent_minutes deep = Ok files ->
  forall p, In p files -> exists f, read_file w p = Some f.
Proof.
  intros Hr p Hp.
  destruct (recent_files_perm w now dirs patterns recent_minutes deep)
    as [files' [Hr' Hperm]].
  rewrite Hr in Hr'. injection Hr' as <-.
  pose proof (scan_passes w (now - recent_minutes * 60) dirs patterns deep)
    as Hall.
  rewrite Forall_forall in Hall.
  destruct (Hall p) as [[t [Ht _]] _].
  - eapply Permutation_in; eassumption.
  - destruct (stat_read _ _ _ Ht) as [d Hd]. eauto.
Qed.

Lemma mkdir_p_raises (fault : bool) (w : world) (p : Path) (e : exn) :
  fst (mkdir_p fault w p) = Raise e -> e = OSError "mkdir".
Proof.
  unfold mkdir_p. destruct fault; simpl; [now intros [= <-]|].
  destruct p as [|a r]; simpl; [now intros [= <-]|].
  destruct (find_entry (system w) a (tree w)) as [[? ?|? ? ?]|]; simpl;
    try (now intros [= <-]).
  destruct (mkdirs _ _ _); simpl; [discriminate | now intros [= <-]].
Qed.

(** What a run of [collect_csv] is, step by step. *)
Lemma collect_csv_steps (w : world) (env : environ)
  (patterns : option (list string)) (keep_timestamped : bool)
  (fixed_name : string) (recent_minutes : Z) (deep : bool) :
  let r := collect_csv w env patterns keep_timestamped fixed_name
                       recent_minutes deep in
  let pats := effective_patterns patterns in
  let data_dir := data_dir_of w env in
  let w1 := snd (mkdir_p (mkdir_fault env) w data_dir) in
  (exists e,
     fst (mkdir_p (mkdir_fault env) w data_dir) = Raise e /\
     r = {| outcome := Raise e; trace := []; final := w1 |}) \/
  (fst (mkdir_p (mkdir_fault env) w data_dir) = Ok tt /\
   exists shallow,
     _recent_files w1 (now_shallow env) (search_dirs w1 env) pats
                   recent_minutes false = Ok shallow /\
     ((shallow = [] /\ deep = false /\
       r = {| outcome := Raise (not_found patterns deep);
              trace := [Mkdir data_dir; Search false []];
              final := w1 |}) \/
      (exists src rest,
         shallow = src :: rest /\
         r = deliver w1 env (_guess_repo_root w (script_dir env)) data_dir
               src (destination_name env keep_timestamped fixed_name)
               [Mkdir data_dir; Search false shallow]) \/
      (shallow = [] /\ deep = true /\
       exists found,
         _recent_files w1 (now_deep env) [] pats recent_minutes true
           = Ok found /\
         ((found = [] /\
           r = {| outcome := Raise (not_found patterns deep);
                  trace := [Mkdir data_dir; Search false []; Search true []];
                  final := w1 |}) \/
          (exists src rest,
             found = src :: rest /\
             r = deliver w1 env (_guess_repo_root w (script_dir env))
                   data_dir src
                   (destination_name env keep_timestamped fixed_name)
                   [Mkdir data_dir; Search false []; Search true found]))))).
Proof.
  cbv zeta. unfold collect_csv, data_dir_of, not_found.
  destruct (mkdir_p _ _ _) as [[[]|e] w1]; simpl fst; simpl snd;
    [right | left; eauto].
  split; [reflexivity|].
  destruct (recent_files_total w1 (now_shallow env) (search_dirs w1 env)
              (effective_patterns patterns) recent_minutes false)
    as [shallow Hs].
  exists shallow. split; [exact Hs|]. rewrite Hs.
  destruct shallow as [|src rest].
  - destruct deep.
    + right; right. split; [reflexivity|]. split; [reflexivity|].
      destruct (recent_files_total w1 (now_deep env) []
                  (effective_patterns patterns) recent_minutes true)
        as [found Hf].
      exists found. split; [exact Hf|]. rewrite Hf.
      destruct found as [|src rest]; [left; now split|].
      right. exists src, rest. now split.
    + left. now repeat split.
  - right; left. exists src, rest. split; [reflexivity|].
    destruct deep; reflexivity.
Qed.

(** A run ends with the error of the empty search only through the
    [raise] of [collect_csv] itself, after searches that found nothing. *)
Lemma collect_csv_not_found (w : world) (env : environ)
  (patterns : option (list string)) (keep_timestamped : bool)
  (fixed_name : string) (recent_minutes : Z) (deep : bool) :
  let r := collect_csv w env patterns keep_timestamped fixed_name
                       recent_minutes deep in
  let w1 := snd (mkdir_p (mkdir_fault env) w (data_dir_of w env)) in
  outcome r = Raise (not_found patterns deep) ->
  fst (mkdir_p (mkdir_fault env) w (data_dir_of w env)) = Ok tt /\
  final r = w1 /\
  _recent_files w1 (now_shallow env) (search_dirs w1 env)
                (effective_patterns patterns) recent_minutes false = Ok [] /\
  ((deep = false /\ searches (trace r) = [(false, [])]) \/
   (deep = true /\ searches (trace r) = [(false, []); (true, [])] /\
    _recent_files w1 (now_deep env) [] (effective_patterns patterns)
                  recent_minutes true = Ok [])).
Proof.
  cbv zeta. intros Hout.
  destruct (collect_csv_steps w env patterns keep_timestamped fixed_name
              recent_minutes deep)
    as [[e [Hmk Hr]] | [Hmk [shallow [Hs Hcases]]]].
  - rewrite Hr in Hout. simpl in Hout. injection Hout as ->.
    apply mkdir_p_raises in Hmk. discriminate.
  - destruct Hcases
      as [[-> [Hd Hr]]
         | [[src [rest [Hsh Hr]]]
           | [-> [Hd [found [Hf [[-> Hr] | [src [rest [Hfd Hr]]]]]]]]]];
      rewrite Hr in Hout |- *; simpl in Hout |- *.
    + subst deep. repeat (split; [first [reflexivity | assumption]|]).
      left. now split.
    + exfalso. exact (deliver_not_not_found _ _ _ _ _ _ _ _ _ Hout).
    + subst deep. repeat (split; [first [reflexivity | assumption]|]).
      right. now repeat split.
    + exfalso. exact (deliver_not_not_found _ _ _ _ _ _ _ _ _ Hout).
Qed.

(** C5.  In every run the first search is the shallow one, over the
    fixed directories (there is none only when the data directory could
    not be made), and the deep search over the roots follows exactly
    when the shallow search found nothing and [deep] is set. *)
Theorem collect_csv_shallow_then_deep :
  forall (w : world) (env : environ) (patterns : option (list string))
         (keep_timestamped : bool) (fixed_name : string)
         (recent_minutes : Z) (deep : bool),
  let r := collect_csv w env patterns keep_timestamped fixed_name
                       recent_minutes deep in
  let w1 := snd (mkdir_p (mkdir_fault env) w (data_dir_of w env)) in
  (exists e,
     fst (mkdir_p (mkdir_fault env) w (data_dir_of w env)) = Raise e /\
     searches (trace r) = []) \/
  (exists shallow,
     _recent_files w1 (now_shallow env) (search_dirs w1 env)
                   (effective_patterns patterns) recent_minutes false
       = Ok shallow /\
     ((shallow = [] /\ deep = true /\
       exists found,
         _recent_files w1 (now_deep env) [] (effective_patterns patterns)
                       recent_minutes true = Ok found /\
         searches (trace r) = [(false, shallow); (true, found)]) \/
      (~ (shallow = [] /\ deep = true) /\
       searches (trace r) = [(false, shallow)]))).
Proof.
  intros w env patterns keep_timestamped fixed_name recent_minutes deep.
  cbv zeta.
  destruct (collect_csv_steps w env patterns keep_timestamped fixed_name
              recent_minutes deep)
    as [[e [Hmk ->]] | [Hmk [shallow [Hs Hcases]]]].
  - left. exists e. now split.
  - right. exists shallow. split; [exact Hs|].
    destruct Hcases
      as [[-> [-> ->]]
         | [[src [rest [-> ->]]]
           | [-> [-> [found [Hf [[-> ->] | [src [rest [-> ->]]]]]]]]]].
    + right. split; [intros [_ H]; discriminate | reflexivity].
    + right. split; [intros [H _]; discriminate|].
      now rewrite deliver_searches.
    + left. repeat split. exists []. now split.
    + left. repeat split. exists (src :: rest). split; [exact Hf|].
      now rewrite deliver_searches.
Qed.

(** ** [collect_csv]: the error of the empty search *)

Lemma append_assoc (a b c : string) : ((a ++ b) ++ c = a ++ (b ++ c))%string.
Proof. induction a as [|x a IH]; simpl; [reflexivity | now rewrite IH]. Qed.

Lemma append_nil_r (a : string) : (a ++ "")%string = a.
Proof. induction a as [|x a IH]; simpl; [reflexivity | now rewrite IH]. Qed.

Lemma contains_refl (s : string) : Str.contains s s.
Proof. exists "", "". simpl. now rewrite append_nil_r. Qed.

Lemma contains_app_l (s t x : string) :
  Str.contains s x -> Str.contains (s ++ t) x.
Proof.
  intros [pre [post ->]]. exists pre, (post ++ t)%string.
  now rewrite !append_assoc.
Qed.

Lemma contains_app_r (s t x : string) :
  Str.contains t x -> Str.contains (s ++ t) x.
Proof.
  intros [pre [post ->]]. exists (s ++ pre)%string, post.
  now rewrite !append_assoc.
Qed.

Lemma join_contains (sep x : string) (l : list string) :
  In x l -> Str.contains (Str.join sep l) x.
Proof.
  induction l as [|y r IH]; [contradiction|].
  intros [-> | Hin].
  - destruct r; simpl; [apply contains_refl|].
    apply contains_app_l, contains_refl.
  - destruct r as [|z r']; [contradiction|].
    change (Str.join sep (y :: z :: r'))
      with (y ++ sep ++ Str.join sep (z :: r'))%string.
    apply contains_app_r, contains_app_r, IH, Hin.
Qed.

(** C6, as the code has it.  [collect_csv] raises the error of the
    empty search, the [FileNotFoundError] whose message it builds,
    exactly when the data directory could be made, the shallow search
    returned nothing and, if [deep] is set, the deep search returned
    nothing either.  The searches of the run are then the shallow one
    alone, or the shallow one and the deep one when [deep] is set; the
    message holds every pattern searched with, and ends by saying that
    all drives were searched when [deep] is set and by advising [--deep]
    when it is not. *)
Theorem collect_csv_not_found_iff_nothing_found :
  forall (w : world) (env : environ) (patterns : option (list string))
         (keep_timestamped : bool) (fixed_name : string)
         (recent_minutes : Z) (deep : bool),
  let r := collect_csv w env patterns keep_timestamped fixed_name
                       recent_minutes deep in
  let pats := effective_patterns patterns in
  let w1 := snd (mkdir_p (mkdir_fault env) w (data_dir_of w env)) in
  exists shallow found,
    _recent_files w1 (now_shallow env) (search_dirs w1 env) pats
                  recent_minutes false = Ok shallow /\
    _recent_files w1 (now_deep env) [] pats recent_minutes true = Ok found /\
    (outcome r = Raise (FileNotFoundError (not_found_message pats deep)) <->
     fst (mkdir_p (mkdir_fault env) w (data_dir_of w env)) = Ok tt /\
     shallow = [] /\ (deep = true -> found = [])) /\
    (outcome r = Raise (FileNotFoundError (not_found_message pats deep)) ->
     searches (trace r)
     = if deep then [(false, []); (true, [])] else [(false, [])]) /\
    (forall pat, In pat pats ->
       Str.contains (not_found_message pats deep) pat) /\
    (exists pre,
       not_found_message pats deep
       = (pre ++ String "010"
                   (if deep then "(searched all accessible drives)"
                    else "(try --deep to search all accessible drives)"))%string).
Proof.
  intros w env patterns keep_timestamped fixed_name recent_minutes deep.
  cbv zeta.
  set (w1 := snd (mkdir_p (mkdir_fault env) w (data_dir_of w env))).
  destruct (recent_files_total w1 (now_shallow env) (search_dirs w1 env)
              (effective_patterns patterns) recent_minutes false)
    as [shallow Hs].
  destruct (recent_files_total w1 (now_deep env) []
              (effective_patterns patterns) recent_minutes true)
    as [found Hf].
  exists shallow, found.
  split; [exact Hs|]. split; [exact Hf|].
  pose proof (collect_csv_not_found w env patterns keep_timestamped
                fixed_name recent_minutes deep) as Hnf.
  cbv zeta in Hnf. fold w1 in Hnf. unfold not_found in Hnf.
  split; [split|split; [|split]].
  - intros Hout. destruct (Hnf Hout) as [Hmk [_ [Hs0 Hcases]]].
    split; [exact Hmk|]. split; [congruence|].
    intros ->. destruct Hcases as [[Hd _] | [_ [_ Hf0]]];
      [discriminate | congruence].
  - intros [Hmk [-> Hd]].
    destruct (collect_csv_steps w env patterns keep_timestamped fixed_name
                recent_minutes deep)
      as [[e [Hmk' _]] | [_ [shallow' [Hs' Hcases]]]].
    + rewrite Hmk in Hmk'. discriminate.
    + fold w1 in Hs'. rewrite Hs in Hs'. injection Hs' as <-.
      unfold not_found in Hcases.
      destruct Hcases
        as [[_ [_ ->]]
           | [[src [rest [Hsh _]]]
             | [_ [Hd' [found' [Hf' [[_ ->]
                                    | [src [rest [Hfd _]]]]]]]]]];
        try reflexivity; try discriminate.
      fold w1 in Hf'. rewrite Hf in Hf'. injection Hf' as <-.
      rewrite (Hd Hd') in Hfd. discriminate.
  - intros Hout. destruct (Hnf Hout) as [_ [_ [_ Hcases]]].
    destruct Hcases as [[-> H] | [-> [H _]]]; exact H.
  - intros pat Hpat. unfold not_found_message.
    apply contains_app_r, contains_app_l, join_contains, Hpat.
  - unfold not_found_message. eexists. rewrite <- append_assoc.
    destruct deep; reflexivity.
Qed.

(** C6 fails as stated: here a candidate is found, and the run raises
    [FileNotFoundError] all the same, the one of [shutil.copy2], whose
    message names no pattern: the directory [nodir] of the fixed name
    does not exist. *)
Lemma file_not_found_with_a_candidate :
  ~ (forall (w : world) (env : environ) (patterns : option (list string))
            (keep_timestamped : bool) (fixed_name : string)
            (recent_minutes : Z) (deep : bool) (msg : string),
       outcome (collect_csv w env patterns keep_timestamped fixed_name
                            recent_minutes deep)
       = Raise (FileNotFoundError msg) ->
       Forall (fun s => snd s = [])
              (searches (trace (collect_csv w env patterns keep_timestamped
                                            fixed_name recent_minutes deep)))
       /\ Str.contains msg "MW-SGB*.csv").
Proof.
  intros H.
  destruct (H Sample.fresh (Sample.env MoveWorks false false) None false
              "nodir/x.csv" 180%Z false
              "[Errno 2] No such file or directory") as [Hall _].
  - vm_compute. reflexivity.
  - vm_compute in Hall. inversion Hall as [|? ? Hnil _]. discriminate Hnil.
Qed.

(** The run of the counterexample, in full. *)
Example fixed_name_in_a_missing_directory :
  collect_csv Sample.fresh (Sample.env MoveWorks false false)
              None false "nodir/x.csv" 180 false
  = {| outcome := Raise (FileNotFoundError
                           "[Errno 2] No such file or directory");
       trace := [Mkdir Sample.data_dir;
                 Search false [Sample.src_new];
                 Move Sample.src_new (Sample.data_dir ++ ["nodir"; "x.csv"])
                      true;
                 Copy Sample.src_new (Sample.data_dir ++ ["nodir"; "x.csv"])
                      true];
       final := snd (mkdir_p false Sample.fresh Sample.data_dir) |}.
Proof. vm_compute. reflexivity. Qed.

(** ** [collect_csv]: the default patterns *)

(** No pattern, nothing found: what a search with the empty list would
    be. *)
Lemma scan_no_pattern (w : world) (cutoff : Z) (dirs : list Path)
  (deep : bool) :
  scan w cutoff dirs [] deep = [].
Proof.
  unfold scan. destruct deep.
  - apply fold_left_invariant; [|reflexivity].
    intros files root ->.
    apply (walk_invariant (deep_body w [] cutoff) (fun _ => True)
             (fun files => files = [])); auto.
    intros top ds fs st _ ->. unfold deep_body. cbn [snd].
    apply fold_left_invariant; [|reflexivity].
    intros files name ->. unfold deep_file, deep_try.
    destruct (negb _); [reflexivity|].
    destruct (has_ignored_suffix _ _); reflexivity.
  - apply fold_left_invariant; [|reflexivity].
    intros files d ->. reflexivity.
Qed.

Lemma recent_files_no_pattern (w : world) (now : Z) (dirs : list Path)
  (recent_minutes : Z) (deep : bool) :
  _recent_files w now dirs [] recent_minutes deep = Ok [].
Proof.
  unfold _recent_files. rewrite scan_no_pattern. reflexivity.
Qed.

(** C9.  An empty list of patterns gives the run that an omitted list
    gives, and the run that the two default patterns give when they are
    passed: whenever the data directory could be made, the shallow
    search of the run is the search for [MW-SGB*.csv] and
    [nse_sgb_data*.csv], and so is its deep search, made when that one
    found nothing and [deep] is set.  (A search with no pattern at all
    would find nothing, whatever the files.) *)
Theorem collect_csv_empty_patterns_are_default :
  forall (w : world) (env : environ) (keep_timestamped : bool)
         (fixed_name : string) (recent_minutes : Z) (deep : bool),
  let r := collect_csv w env (Some []) keep_timestamped fixed_name
                       recent_minutes deep in
  let w1 := snd (mkdir_p (mkdir_fault env) w (data_dir_of w env)) in
  let defaults := ["MW-SGB*.csv"; "nse_sgb_data*.csv"] in
  r = collect_csv w env None keep_timestamped fixed_name recent_minutes deep
  /\
  r = collect_csv w env (Some defaults) keep_timestamped fixed_name
                  recent_minutes deep /\
  ((exists e,
      fst (mkdir_p (mkdir_fault env) w (data_dir_of w env)) = Raise e /\
      outcome r = Raise e /\ searches (trace r) = []) \/
   (exists shallow,
      _recent_files w1 (now_shallow env) (search_dirs w1 env) defaults
                    recent_minutes false = Ok shallow /\
      ((shallow = [] /\ deep = true /\
        exists found,
          _recent_files w1 (now_deep env) [] defaults recent_minutes true
            = Ok found /\
          searches (trace r) = [(false, shallow); (true, found)]) \/
       (~ (shallow = [] /\ deep = true) /\
        searches (trace r) = [(false, shallow)])))) /\
  (forall w' now dirs minutes mode,
     _recent_files w' now dirs [] minutes mode = Ok []).
Proof.
  intros w env keep_timestamped fixed_name recent_minutes deep. cbv zeta.
  split; [reflexivity|]. split; [reflexivity|].
  split; [|intros; apply recent_files_no_pattern].
  destruct (collect_csv_steps w env (Some []) keep_timestamped fixed_name
              recent_minutes deep)
    as [[e [Hmk ->]] | [Hmk [shallow [Hs Hcases]]]].
  - left. exists e. now repeat split.
  - right. exists shallow. split; [exact Hs|].
    destruct Hcases
      as [[-> [-> ->]]
         | [[src [rest [-> ->]]]
           | [-> [-> [found [Hf [[-> ->] | [src [rest [-> ->]]]]]]]]]].
    + right. split; [intros [_ H]; discriminate | reflexivity].
    + right. split; [intros [H _]; discriminate|].
      now rewrite deliver_searches.
    + left. repeat split. exists []. now split.
    + left. repeat split. exists (src :: rest). split; [exact Hf|].
      now rewrite deliver_searches.
Qed.

(** With the empty list the fresh download is found and moved. *)
Example empty_pattern_list_finds_the_download :
  outcome (collect_csv Sample.fresh (Sample.env MoveWorks false false)
             (Some []) true "nse_sgb_data.csv" 180 false)
  = Ok Sample.dst_stamped /\
  searches (trace (collect_csv Sample.fresh (Sample.env MoveWorks false false)
                     (Some []) true "nse_sgb_data.csv" 180 false))
  = [(false, [Sample.src_new])].
Proof. vm_compute. split; reflexivity. Qed.

(** ** [collect_csv]: the data directory *)

(** C10.  The data directory is made before any search: the trace of a
    run is empty or opens with [Mkdir].  So a run that ends with the
    not-found error leaves the directory behind: it exists afterwards,
    the tree has changed when it was not there before, and is as it was
    when it was there already. *)
Theorem collect_csv_makes_data_dir_first :
  forall (w : world) (env : environ) (patterns : option (list string))
         (keep_timestamped : bool) (fixed_name : string)
         (recent_minutes : Z) (deep : bool),
  let r := collect_csv w env patterns keep_timestamped fixed_name
                       recent_minutes deep in
  (trace r = [] \/ exists rest, trace r = Mkdir (data_dir_of w env) :: rest) /\
  (outcome r = Raise (not_found patterns deep) ->
     is_dir (final r) (data_dir_of w env) = true /\
     (is_dir w (data_dir_of w env) = false -> final r <> w) /\
     (is_dir w (data_dir_of w env) = true -> final r = w)).
Proof.
  intros w env patterns keep_timestamped fixed_name recent_minutes deep.
  cbv zeta.
  pose proof (collect_csv_steps w env patterns keep_timestamped fixed_name
                recent_minutes deep) as Hsteps.
  cbv zeta in Hsteps.
  split.
  - destruct Hsteps as [[e [Hmk ->]] | [Hmk [shallow [Hs Hcases]]]];
      [now left | right].
    destruct Hcases
      as [[_ [_ ->]]
         | [[src [rest [_ ->]]]
           | [_ [_ [found [Hf [[_ ->] | [src [rest [_ ->]]]]]]]]]];
      simpl; eauto;
      match goal with
      | |- context [deliver ?a ?b ?c ?d ?e ?f ?g] =>
          destruct (deliver_trace a b c d e f g) as [more ->]
      end; simpl; eauto.
  - intros Hout.
    apply collect_csv_not_found in Hout as [Hmk [Hfinal _]].
    rewrite Hfinal.
    destruct (mkdir_p (mkdir_fault env) w (data_dir_of w env)) as [res w1]
      eqn:Hmkdir.
    simpl in Hmk |- *. subst res.
    pose proof (mkdir_p_is_dir _ _ _ _ Hmkdir) as Hdir.
    split; [exact Hdir|]. split.
    + intros Hbefore ->. congruence.
    + intros Hbefore.
      destruct (mkdir_fault env) eqn:Hfault; [discriminate Hmkdir|].
      rewrite (mkdir_p_existing _ _ Hbefore) in Hmkdir.
      now injection Hmkdir as <-.
Qed.

(** ** [collect_csv]: the move and its fall-back *)

Lemma is_file_read (w : world) (p : Path) :
  is_file w p = true -> exists f, read_file w p = Some f.
Proof.
  unfold is_file, read_file.
  destruct (lookup w p) as [[n [f|] | n l es]|]; try discriminate. eauto.
Qed.

Lemma write_file_system (w w' : world) (p : Path) (f : Z * list byte) :
  write_file w p f = Some w' -> system w' = system w.
Proof.
  unfold write_file. destruct p as [|? [|? ?]]; try discriminate.
  destruct (alter _ _ _ _); try discriminate. now intros [= <-].
Qed.

(** A copy that raises changes nothing. *)
Lemma shutil_copy2_raise_same (fault : bool) (w : world) (src dst : Path)
  (e : exn) :
  fst (shutil_copy2 fault w src dst) = Raise e ->
  snd (shutil_copy2 fault w src dst) = w.
Proof.
  unfold shutil_copy2.
  destruct (read_file w src) as [f|]; [|reflexivity].
  destruct (PathOps.eqb _ _ _); [reflexivity|].
  destruct (write_file _ _ _); [|reflexivity].
  destruct fault; [reflexivity | discriminate].
Qed.

(** C7, as the code has it.  When [shutil.move] raises on a source file,
    [shutil.copy2] is called.  If the copy returns, the destination holds
    the bytes the source held, whether the source is then removed (and is
    gone) or its removal fails (and it is left where it was), and the
    run returns the destination unless one of the four lines of the
    report cannot be printed: the exception of [print] then leaves the
    function, with the file in place.  If the copy raises too, its
    exception leaves the function and the source is where it was. *)
Theorem move_falls_back_to_copy :
  forall (w : world) (env : environ) (repo_root data_dir src dst : Path)
         (tr : list event) (e : exn),
  is_file w src = true ->
  fst (shutil_move (move_faults env) w src dst) = Raise e ->
  let w1 := snd (shutil_move (move_faults env) w src dst) in
  let w2 := snd (shutil_copy2 (copy_fault env) w1 src dst) in
  let r := move_into w env repo_root data_dir src dst tr in
  let lines := report (system (final r)) repo_root data_dir src dst in
  (fst (shutil_copy2 (copy_fault env) w1 src dst) = Ok tt ->
     (exists f,
        read_file w src = Some f /\
        read_file (final r) (real_dst w1 src dst) = Some f /\
        (fst (unlink (unlink_fault env) w2 src) = Ok tt ->
           read_file (final r) src = None) /\
        (forall e3, fst (unlink (unlink_fault env) w2 src) = Raise e3 ->
           final r = w2 /\ read_file (final r) src = Some f)) /\
     ((outcome r = Ok dst /\
       Forall (fun line => stdout env line = None) lines) \/
      (exists f line,
         outcome r = Raise (raised f) /\
         In line lines /\ stdout env line = Some f))) /\
  (forall e2, fst (shutil_copy2 (copy_fault env) w1 src dst) = Raise e2 ->
     outcome r = Raise e2 /\
     read_file (final r) src = read_file w src).
Proof.
  intros w env repo_root data_dir src dst tr e Hfile Hmove. cbv zeta.
  destruct (is_file_read _ _ Hfile) as [f Hread0].
  pose proof (shutil_move_keeps_source (move_faults env) w src dst e f
                Hmove Hread0) as Hread.
  unfold move_into.
  destruct (shutil_move (move_faults env) w src dst) as [[[]|e0] w1];
    [discriminate|]. cbn [snd] in *.
  split.
  - intros Hcopy.
    destruct (shutil_copy2 (copy_fault env) w1 src dst) as [res w2] eqn:Hc.
    cbn [fst] in Hcopy. subst res. cbn [snd].
    unfold shutil_copy2 in Hc. rewrite Hread in Hc.
    destruct (PathOps.eqb (system w1) src (real_dst w1 src dst)) eqn:Hneq;
      [discriminate|].
    destruct (write_file w1 (real_dst w1 src dst) f) as [w2'|] eqn:Hwrite;
      [|discriminate].
    destruct (copy_fault env); [discriminate|].
    injection Hc as <-.
    pose proof (write_file_system _ _ _ _ Hwrite) as Hsys.
    assert (Hdst : read_file w2' (real_dst w1 src dst) = Some f)
      by exact (write_then_read _ _ _ _ Hwrite).
    assert (Hsrc : read_file w2' src = Some f).
    { rewrite (write_elsewhere _ _ _ src _ Hwrite); [exact Hread|].
      now rewrite eqb_sym. }
    unfold unlink.
    destruct (unlink_fault env).
    + cbn [fst snd].
      destruct (finish_spec w2' env repo_root data_dir src dst
                  (tr ++ [Move src dst true; Copy src dst false;
                          Unlink src true]))
        as [Hfin [_ Hout]].
      rewrite Hfin. split; [|exact Hout].
      exists f. repeat split; auto; discriminate.
    + destruct (remove_file w2' src) as [w3|] eqn:Hrm; cbn [fst snd].
      * destruct (finish_spec w3 env repo_root data_dir src dst
                    (tr ++ [Move src dst true; Copy src dst false;
                            Unlink src false]))
          as [Hfin [_ Hout]].
        rewrite Hfin. split; [|exact Hout].
        exists f. split; [exact Hread0|]. split.
        { rewrite (remove_elsewhere _ _ _ _ Hrm); [exact Hdst|].
          now rewrite Hsys. }
        split; [intros _; exact (remove_then_read _ _ _ Hrm)|].
        discriminate.
      * destruct (finish_spec w2' env repo_root data_dir src dst
                    (tr ++ [Move src dst true; Copy src dst false;
                            Unlink src true]))
          as [Hfin [_ Hout]].
        rewrite Hfin. split; [|exact Hout].
        exists f. repeat split; auto; discriminate.
  - intros e2 Hcopy.
    pose proof (shutil_copy2_raise_same _ _ _ _ _ Hcopy) as Hsame.
    destruct (shutil_copy2 (copy_fault env) w1 src dst) as [[[]|e2'] w2];
      cbn [fst snd] in *; [discriminate|].
    injection Hcopy as ->. subst w2. cbn [outcome final].
    split; [reflexivity|]. now rewrite Hread, Hread0.
Qed.

(** On POSIX, a run in which the move and the copy both fail. *)
Lemma move_and_copy_fail_run :
  collect_csv Sample.fresh (Sample.env MoveFails true false)
              None true "nse_sgb_data.csv" 180 false
  = {| outcome := Raise (OSError "copy2");
       trace := [Mkdir Sample.data_dir;
                 Search false [Sample.src_new];
                 Move Sample.src_new Sample.dst_stamped true;
                 Copy Sample.src_new Sample.dst_stamped true];
       final := snd (mkdir_p false Sample.fresh Sample.data_dir) |}.
Proof. vm_compute. reflexivity. Qed.

(** The move fails, the copy returns, and the last line of the report
    cannot be printed: the run raises with the file in place. *)
Example report_cannot_be_printed :
  let r := collect_csv Sample.fresh
             (Sample.narrow (Sample.env MoveFails false false))
             None true "nse_sgb_data.csv" 180 false in
  outcome r
  = Raise (UnicodeEncodeError "'charmap' codec can't encode character") /\
  read_file (final r) Sample.dst_stamped
  = read_file Sample.fresh Sample.src_new /\
  read_file (final r) Sample.src_new = None.
Proof. vm_compute. repeat split. Qed.

(** C7 fails as stated: here [shutil.move] raises, and the run raises
    too, with no destination file written. *)
Lemma move_fallback_can_raise :
  ~ (forall (w : world) (env : environ) (repo_root data_dir src dst : Path)
            (tr : list event) (e : exn),
       fst (shutil_move (move_faults env) w src dst) = Raise e ->
       outcome (move_into w env repo_root data_dir src dst tr) = Ok dst /\
       exists f,
         read_file (final (move_into w env repo_root data_dir src dst tr))
                   (real_dst w src dst) = Some f).
Proof.
  intros H.
  destruct (H (snd (mkdir_p false Sample.fresh Sample.data_dir))
              (Sample.env MoveFails true false)
              ["/"; "home"; "me"; "proj"] Sample.data_dir
              Sample.src_new Sample.dst_stamped [] (OSError "move") eq_refl)
    as [Hout _].
  vm_compute in Hout. discriminate Hout.
Qed.

(** The fall-back at work: the move fails after the destination was
    written, the copy returns, the removal of the source fails. *)
Lemma move_falls_back_to_copy_witness :
  exists f,
    read_file (snd (mkdir_p false Sample.fresh Sample.data_dir))
              Sample.src_new = Some f /\
    read_file (final (move_into
                        (snd (mkdir_p false Sample.fresh Sample.data_dir))
                        (Sample.env MoveFailsAfterCopy false true)
                        ["/"; "home"; "me"; "proj"] Sample.data_dir
                        Sample.src_new Sample.dst_stamped []))
              Sample.dst_stamped = Some f.
Proof.
  destruct (move_falls_back_to_copy
              (snd (mkdir_p false Sample.fresh Sample.data_dir))
              (Sample.env MoveFailsAfterCopy false true)
              ["/"; "home"; "me"; "proj"] Sample.data_dir
              Sample.src_new Sample.dst_stamped [] (OSError "move"))
    as [Hcopy _].
  - vm_compute. reflexivity.
  - vm_compute. reflexivity.
  - destruct Hcopy as [[f [Hsrc [Hdst _]]] _]; [vm_compute; reflexivity|].
    exists f. split; [exact Hsrc | exact Hdst].
Defined.

(** ** What the pruning does guarantee *)

(** The walk from a root never enters a directory whose name is in the
    skip-set: every file of the deep scan lies below one of the roots
    with no such directory in between.  (The names inside the root's
    own path are not looked at.) *)
Lemma deep_scan_prunes_below_roots (w : world) (cutoff : Z)
  (dirs : list Path) (patterns : list string) :
  Forall (fun p => exists root,
            In root (_enumerate_accessible_roots w) /\ reached_from root p)
         (scan w cutoff dirs patterns true).
Proof.
  unfold scan.
  apply fold_left_invariant_in; [|constructor].
  intros files root Hroot Hfiles.
  apply (walk_invariant (deep_body w patterns cutoff)
           (fun top => exists ds, top = root ++ ds /\
                                  Forall (fun d => skipped d = false) ds)).
  - intros top ds fs st [above [-> Habove]] Hst. unfold deep_body. simpl.
    apply fold_left_invariant; [|exact Hst].
    intros a x Ha. unfold deep_file.
    destruct (deep_try w patterns cutoff (root ++ above) x a) as [a'|e]
      eqn:Htry; [|exact Ha].
    apply deep_try_passes in Htry as [-> | [-> _]]; [exact Ha|].
    apply Forall_snoc; [exact Ha|].
    exists root. split; [exact Hroot|].
    exists above, x. split; [|exact Habove].
    unfold child. now rewrite app_assoc.
  - intros top ds fs st n [above [-> Habove]] Hn.
    unfold deep_body in Hn. cbn [fst] in Hn.
    apply filter_In in Hn as [_ Hn]. apply negb_true_iff in Hn.
    exists (above ++ [n]). split.
    + unfold child. now rewrite app_assoc.
    + apply Forall_snoc; [exact Habove|].
      exact Hn.
  - exists []. split; [now rewrite app_nil_r | constructor].
  - exact Hfiles.
Qed.

Lemma windows_roots_are_drives (w : world) :
  Forall (fun r => exists a, r = [a]) (windows_roots w).
Proof.
  unfold windows_roots.
  apply fold_left_invariant; [|constructor].
  intros roots [i letter] Hroots.
  destruct (Z.land (Z.shiftr (logical_drives w) (Z.of_nat i)) 1 =? 0)%Z;
    [assumption|].
  destruct (drive_type w _) as [dtype|]; [|assumption].
  destruct (_ || _); [assumption|].
  destruct (_is_accessible_dir w _); [|assumption].
  apply Forall_snoc; [assumption | eauto].
Qed.

(** On Windows the roots are the drives, so there the claim of C2
    holds: no file [_recent_files] returns in deep mode has a directory
    of the skip-set anywhere above it. *)
Lemma recent_files_prunes_on_windows (w : world) (now : Z)
  (dirs : list Path) (patterns : list string) (recent_minutes : Z) :
  system w = Windows ->
  exists files,
    _recent_files w now dirs patterns recent_minutes true = Ok files /\
    forall p, In p files ->
      exists drive above name,
        p = drive :: above ++ [name] /\
        Forall (fun d => skipped d = false) above.
Proof.
  intros Hsys.
  destruct (recent_files_perm w now dirs patterns recent_minutes true)
    as [files [Hr Hperm]].
  exists files. split; [exact Hr|].
  intros p Hp.
  pose proof (deep_scan_prunes_below_roots w (now - recent_minutes * 60)
                dirs patterns) as Hall.
  rewrite Forall_forall in Hall.
  destruct (Hall p) as [root [Hroot [above [name [-> Habove]]]]].
  { eapply Permutation_in; eassumption. }
  unfold _enumerate_accessible_roots, dedup in Hroot.
  apply dedup_from_incl in Hroot. rewrite Hsys in Hroot.
  pose proof (windows_roots_are_drives w) as Hdrives.
  rewrite Forall_forall in Hdrives.
  destruct (Hdrives _ Hroot) as [a ->].
  exists a, above, name. split; [reflexivity | exact Habove].
Qed.

(** ** The runs of the specification's scenarios *)

(** Three downloads with times T1 > T2 > T3: the newest comes first,
    and the link that dangles next to them is passed over. *)
Example newest_of_three_first :
  _recent_files Sample.three Sample.now [Sample.downloads]
                DEFAULT_PATTERNS 180 false
  = Ok [Sample.downloads ++ ["MW-SGB-1.csv"];
        Sample.downloads ++ ["MW-SGB-2.csv"];
        Sample.downloads ++ ["MW-SGB-3.csv"]].
Proof. vm_compute. reflexivity. Qed.

(** Scenario 1: of an old and a new download, the new one is moved. *)
Example only_the_recent_file_is_moved :
  let r := collect_csv
             (Sample.posix [Sample.csv "MW-SGB-old.csv" 82000;
                            Sample.csv "MW-SGB-new.csv" 99400] [])
             (Sample.env MoveWorks false false)
             None true "nse_sgb_data.csv" 180 false in
  outcome r = Ok Sample.dst_stamped /\
  searches (trace r) = [(false, [Sample.src_new])] /\
  read_file (final r) Sample.dst_stamped = Some (99400%Z, [x4e; x53; x45]) /\
  read_file (final r) Sample.src_new = None /\
  is_file (final r) (Sample.downloads ++ ["MW-SGB-old.csv"]) = true.
Proof. vm_compute. repeat split; reflexivity. Qed.

(** Scenario 2: a partial download next to a finished one.  (The
    pattern is its own upper-case form, so the file is listed twice.) *)
Example partial_download_is_excluded :
  _recent_files
    (Sample.posix [Sample.csv "MW-SGB-x.csv.crdownload" 99400;
                   Sample.csv "MW-SGB-x.CSV.TMP" 99400;
                   Sample.csv "MW-SGB-x.csv" 99400] [])
    Sample.now [Sample.downloads] ["MW-SGB*"] 180 false
  = Ok [Sample.downloads ++ ["MW-SGB-x.csv"];
        Sample.downloads ++ ["MW-SGB-x.csv"]].
Proof. vm_compute. reflexivity. Qed.

(** Scenario 3 on Windows: the copy under [Windows] is not reached. *)
Example windows_directory_is_pruned :
  _enumerate_accessible_roots Sample.with_windows = [["C:\"]] /\
  _recent_files Sample.with_windows Sample.now [] DEFAULT_PATTERNS 180 true
  = Ok [["C:\"; "Users"; "me"; "Downloads"; "nse_sgb_data.csv"]].
Proof. vm_compute. split; reflexivity. Qed.

(** C2 fails on this input.  On POSIX every directory at the top of
    ["/"] is itself a root of the deep scan, and the name of a root is
    not compared with the skip-set: [tmp] is in the set, [/tmp] is a
    root, and the file in it is returned (the copy in [Downloads] is
    returned twice, once from ["/"] and once from [/home]). *)
Theorem deep_scan_returns_file_under_tmp :
  Str.mem (Str.lower "tmp") SKIP_DIR_NAMES = true /\
  _enumerate_accessible_roots Sample.with_tmp
  = [["/"]; ["/"; "home"]; ["/"; "tmp"]] /\
  _recent_files Sample.with_tmp Sample.now [] DEFAULT_PATTERNS 180 true
  = Ok [Sample.downloads ++ ["nse_sgb_data.csv"];
        Sample.downloads ++ ["nse_sgb_data.csv"];
        ["/"; "tmp"; "nse_sgb_data.csv"]].
Proof. vm_compute. repeat split; reflexivity. Qed.

(** The example of C4: the lowercase name matches the uppercase
    pattern, through the second of the three casings, on both
    platforms and in both modes. *)
Lemma lowercase_name_matches (plat : platform) (rest : list string) :
  matched_any plat "mw-sgb-20250101.csv" ("MW-SGB*.csv" :: rest) = Ok true.
Proof. destruct plat; reflexivity. Qed.

Example lowercase_name_is_found :
  _list_matches Sample.lower_case Sample.downloads ["MW-SGB*.csv"]
  = [Sample.downloads ++ ["mw-sgb-20250101.csv"]] /\
  _recent_files Sample.lower_case Sample.now [Sample.downloads]
                ["MW-SGB*.csv"] 180 false
  = Ok [Sample.downloads ++ ["mw-sgb-20250101.csv"]] /\
  _recent_files Sample.lower_case Sample.now [] ["MW-SGB*.csv"] 180 true
  = Ok [Sample.downloads ++ ["mw-sgb-20250101.csv"];
        Sample.downloads ++ ["mw-sgb-20250101.csv"]].
Proof. vm_compute. repeat split; reflexivity. Qed.

(** C4 fails on this input.  On POSIX a pattern is tried as given, in
    lower case and in upper case, each time with exact case: a name in
    mixed case matches none of the three, in neither mode. *)
Theorem mixed_case_name_is_not_matched :
  matched_any Posix "Mw-Sgb-20250101.csv" ["MW-SGB*.csv"] = Ok false /\
  _list_matches Sample.mixed_case Sample.downloads ["MW-SGB*.csv"] = [] /\
  _recent_files Sample.mixed_case Sample.now [Sample.downloads]
                ["MW-SGB*.csv"] 180 false = Ok [] /\
  _recent_files Sample.mixed_case Sample.now [] ["MW-SGB*.csv"] 180 true
  = Ok [].
Proof. vm_compute. repeat split; reflexivity. Qed.

(** ** The properties at work on the sample machines *)

(** A run that finds nothing, with [deep] set. *)
Lemma stale_run_not_found :
  outcome (collect_csv Sample.stale (Sample.env MoveWorks false false)
             None true "nse_sgb_data.csv" 180 true)
  = Raise (FileNotFoundError
             (not_found_message (effective_patterns None) true)).
Proof. vm_compute. reflexivity. Qed.

(** On that run, with [deep] set, both searches were made and found
    nothing. *)
Lemma collect_csv_not_found_iff_nothing_found_witness :
  searches (trace (collect_csv Sample.stale (Sample.env MoveWorks false false)
                     None true "nse_sgb_data.csv" 180 true))
  = [(false, []); (true, [])].
Proof.
  destruct (collect_csv_not_found_iff_nothing_found
              Sample.stale (Sample.env MoveWorks false false)
              None true "nse_sgb_data.csv" 180%Z true)
    as [shallow [found [_ [_ [_ [Hsearches _]]]]]].
  apply Hsearches. vm_compute. reflexivity.
Defined.

(** That run leaves the data directory behind, in a tree that had none. *)
Lemma collect_csv_makes_data_dir_first_witness :
  is_dir (final (collect_csv Sample.stale (Sample.env MoveWorks false false)
                   None true "nse_sgb_data.csv" 180 true))
         (data_dir_of Sample.stale (Sample.env MoveWorks false false)) = true /\
  final (collect_csv Sample.stale (Sample.env MoveWorks false false)
           None true "nse_sgb_data.csv" 180 true) <> Sample.stale.
Proof.
  destruct (collect_csv_makes_data_dir_first
              Sample.stale (Sample.env MoveWorks false false)
              None true "nse_sgb_data.csv" 180%Z true) as [_ H].
  destruct H as [Hdir [Hchanged _]].
  - vm_compute. reflexivity.
  - split; [exact Hdir|]. apply Hchanged. vm_compute. reflexivity.
Defined.

(** The newest of the three downloads is within the window. *)
Lemma recent_files_recent_and_complete_witness :
  exists t,
    stat_mtime Sample.three (Sample.downloads ++ ["MW-SGB-1.csv"]) = Ok t /\
    ~ (t < Sample.now - 180 * 60)%Z.
Proof.
  destruct (recent_files_recent_and_complete
              Sample.three Sample.now [Sample.downloads]
              DEFAULT_PATTERNS 180%Z false) as [files [Heq H]].
  apply (H (Sample.downloads ++ ["MW-SGB-1.csv"])).
  vm_compute in Heq. injection Heq as <-.
  vm_compute. auto.
Defined.

(** The first of the three downloads returned is newer than the last. *)
Lemma recent_files_newest_first_witness :
  newer_or_same Sample.three
    (Sample.downloads ++ ["MW-SGB-1.csv"])
    (Sample.downloads ++ ["MW-SGB-3.csv"]).
Proof.
  destruct (recent_files_newest_first
              Sample.three Sample.now [Sample.downloads]
              DEFAULT_PATTERNS 180%Z false) as [files [Heq [_ [_ H]]]].
  vm_compute in Heq. injection Heq as <-.
  apply (H (Sample.downloads ++ ["MW-SGB-1.csv"])
           [Sample.downloads ++ ["MW-SGB-2.csv"];
            Sample.downloads ++ ["MW-SGB-3.csv"]]).
  - reflexivity.
  - vm_compute. auto.
Defined.

(* ================================================================== *)
(** * Further properties of the code *)
(* ================================================================== *)

(** ** [_guess_repo_root] *)

Lemma find_first {A : Type} (f : A -> bool) (l : list A) (x : A) :
  find f l = Some x ->
  exists before after,
    l = before ++ x :: after /\ f x = true /\
    Forall (fun y => f y = false) before.
Proof.
  induction l as [|a l IH]; simpl; [discriminate|].
  destruct (f a) eqn:Ha.
  - intros [= ->]. exists [], l. repeat split; auto.
  - intros H. destruct (IH H) as [before [after [-> [Hx Hb]]]].
    exists (a :: before), after. repeat split; auto.
Qed.

Lemma find_nowhere {A : Type} (f : A -> bool) (l : list A) :
  find f l = None -> Forall (fun y => f y = false) l.
Proof.
  induction l as [|a l IH]; simpl; [constructor|].
  destruct (f a) eqn:Ha; [discriminate|]. intros H. constructor; auto.
Qed.

Lemma prefixes_down_prefix (p : Path) (k : nat) :
  forall q, In q (prefixes_down p k) -> exists below, p = q ++ below.
Proof.
  induction k as [|k IH]; intros q; cbn [prefixes_down In]; [contradiction|].
  intros [Hq | H]; [|exact (IH q H)].
  exists (skipn (S k) p). rewrite <- Hq. symmetry. apply firstn_skipn.
Qed.

(** X1.  The repository root is [script_dir] or a directory above it:
    the nearest one that holds [.git] or [data], and [script_dir] itself
    when none does. Guessing again from the root gives the root. *)
Theorem guess_repo_root_nearest_marked :
  forall (w : world) (script_dir : Path),
  (exists below, script_dir = _guess_repo_root w script_dir ++ below) /\
  ((marked w (_guess_repo_root w script_dir) = true /\
    exists nearer farther,
      script_dir :: parents script_dir
      = nearer ++ _guess_repo_root w script_dir :: farther /\
      Forall (fun p => marked w p = false) nearer) \/
   (_guess_repo_root w script_dir = script_dir /\
    Forall (fun p => marked w p = false) (script_dir :: parents script_dir))) /\
  _guess_repo_root w (_guess_repo_root w script_dir)
  = _guess_repo_root w script_dir.
Proof.
  intros w script_dir.
  assert (Hroot : forall d,
            _guess_repo_root w d
            = match find (marked w) (d :: parents d) with
              | Some p => p
              | None => d
              end) by reflexivity.
  rewrite (Hroot (_guess_repo_root w script_dir)).
  rewrite !(Hroot script_dir).
  destruct (find (marked w) (script_dir :: parents script_dir)) as [r|] eqn:Hf.
  - destruct (find_first _ _ _ Hf) as [nearer [farther [Hl [Hr Hn]]]].
    split; [|split].
    + assert (Hin : In r (script_dir :: parents script_dir))
        by (rewrite Hl; apply in_elt).
      destruct Hin as [<- | Hin]; [exists []; now rewrite app_nil_r|].
      exact (prefixes_down_prefix _ _ _ Hin).
    + left. split; [exact Hr|]. now exists nearer, farther.
    + cbn [find]. now rewrite Hr.
  - split; [|split].
    + exists []. now rewrite app_nil_r.
    + right. split; [reflexivity|]. exact (find_nowhere _ _ Hf).
    + now rewrite Hf.
Qed.

(** ** [_recent_files]: what else holds of the list returned *)




(** *** Files of the same age keep the order in which they were found *)

Lemma insert_desc_stable (t : Z) (x : Z * Path) (l : list (Z * Path)) :
  filter (fun kp => Z.eqb (fst kp) t) (insert_desc x l)
  = filter (fun kp => Z.eqb (fst kp) t) (x :: l).
Proof.
  induction l as [|y r IH]; [reflexivity|].
  cbn [insert_desc].
  destruct (fst x <? fst y)%Z eqn:Hlt; [|reflexivity].
  cbn [filter] in IH |- *. rewrite IH.
  apply Z.ltb_lt in Hlt.
  destruct (Z.eqb (fst x) t) eqn:Hx; destruct (Z.eqb (fst y) t) eqn:Hy;
    try reflexivity.
  apply Z.eqb_eq in Hx, Hy. lia.
Qed.

Lemma sort_desc_stable (t : Z) (l : list (Z * Path)) :
  filter (fun kp => Z.eqb (fst kp) t) (sort_desc l)
  = filter (fun kp => Z.eqb (fst kp) t) l.
Proof.
  induction l as [|x r IH]; [reflexivity|].
  cbn [sort_desc fold_right].
  change (fold_right insert_desc [] r) with (sort_desc r).
  rewrite insert_desc_stable. cbn [filter]. now rewrite IH.
Qed.

Lemma filter_keyed (w : world) (t : Z) (l : list (Z * Path)) :
  Forall (fun kp => stat_mtime w (snd kp) = Ok (fst kp)) l ->
  filter (has_mtime w t) (map snd l)
  = map snd (filter (fun kp => Z.eqb (fst kp) t) l).
Proof.
  induction 1 as [|kp r Hkp _ IH]; [reflexivity|].
  cbn [map filter]. unfold has_mtime at 1. rewrite Hkp, IH.
  now destruct (Z.eqb (fst kp) t).
Qed.

(** X3.  The sort is stable: among the files returned, those of one and
    the same modification time stand in the order in which the scan
    found them (so, in a shallow search, in the order of the
    directories). *)
Theorem recent_files_ties_keep_scan_order :
  forall (w : world) (now : Z) (dirs : list Path) (patterns : list string)
         (recent_minutes : Z) (deep : bool),
  exists files,
    _recent_files w now dirs patterns recent_minutes deep = Ok files /\
    forall t,
      filter (has_mtime w t) files
      = filter (has_mtime w t)
               (scan w (now - recent_minutes * 60) dirs patterns deep).
Proof.
  intros w now dirs patterns recent_minutes deep.
  destruct (recent_files_unfold w now dirs patterns recent_minutes deep)
    as [keyed [Hk Hr]].
  eexists. split; [exact Hr|].
  intros t.
  destruct (sort_keys_spec _ _ _ Hk) as [Hmap Hstat].
  rewrite <- Hmap.
  rewrite (filter_keyed w t keyed Hstat).
  rewrite filter_keyed.
  - now rewrite sort_desc_stable.
  - eapply Permutation_Forall; [symmetry; apply sort_desc_perm | exact Hstat].
Qed.

(** *** Search directories that are not there *)

Lemma glob_not_dir (w : world) (d : Path) (pat : string) (l : list Path) :
  is_dir w d = false -> Glob.glob w d pat = Ok l -> l = [].
Proof.
  intros Hd. unfold Glob.glob.
  destruct (String.eqb pat ""); [discriminate|].
  destruct (Glob.anchored (system w) pat); [discriminate|].
  destruct (Glob.pattern_parts (system w) pat ++ _) as [|first rest];
    [discriminate|].
  destruct (String.eqb first ""); [discriminate|].
  destruct (existsb _ _); [discriminate|].
  rewrite Hd. now intros [= <-].
Qed.

Lemma list_matches_loop_not_dir (w : world) (d : Path)
  (patterns : list string) :
  is_dir w d = false -> list_matches_loop w d patterns [] = [].
Proof.
  intros Hd. induction patterns as [|pat rest IH]; [reflexivity|].
  cbn [list_matches_loop].
  destruct (Glob.glob w d pat) as [l1|] eqn:H1; [|reflexivity].
  rewrite (glob_not_dir _ _ _ _ Hd H1).
  destruct (Glob.glob w d (Str.lower pat)) as [l2|] eqn:H2; [|reflexivity].
  rewrite (glob_not_dir _ _ _ _ Hd H2).
  destruct (Glob.glob w d (Str.upper pat)) as [l3|] eqn:H3; [|reflexivity].
  rewrite (glob_not_dir _ _ _ _ Hd H3).
  exact IH.
Qed.

(** X4.  A search directory that does not exist, or is not a directory,
    raises nothing and changes nothing: the shallow search returns what
    it returns without it. *)
Theorem recent_files_skips_missing_directory :
  forall (w : world) (now : Z) (before after : list Path) (d : Path)
         (patterns : list string) (recent_minutes : Z),
  is_dir w d = false ->
  _recent_files w now (before ++ d :: after) patterns recent_minutes false
  = _recent_files w now (before ++ after) patterns recent_minutes false.
Proof.
  intros w now before after d patterns recent_minutes Hd.
  unfold _recent_files, scan.
  rewrite !fold_left_app. cbn [fold_left].
  unfold _list_matches at 2.
  now rewrite (list_matches_loop_not_dir _ _ _ Hd).
Qed.

(** The usual case: no [Downloads] folder in the home directory. *)
Lemma recent_files_skips_missing_directory_witness :
  _recent_files Sample.fresh Sample.now
    ([["/"; "home"; "me"; "proj"]] ++ ["/"; "home"; "you"; "Downloads"]
       :: [Sample.downloads])
    DEFAULT_PATTERNS 180 false
  = _recent_files Sample.fresh Sample.now
      ([["/"; "home"; "me"; "proj"]] ++ [Sample.downloads])
      DEFAULT_PATTERNS 180 false.
Proof.
  apply (recent_files_skips_missing_directory Sample.fresh).
  vm_compute. reflexivity.
Defined.

(** *** A pattern without a component, given first *)

Lemma glob_rejects (w : world) (d : Path) (pat : string) :
  Glob.anchored (system w) pat = false ->
  Glob.pattern_parts (system w) pat = [] ->
  exists e, Glob.glob w d pat = Raise e.
Proof.
  intros Ha Hp. unfold Glob.glob.
  destruct (String.eqb pat ""); [eauto|].
  rewrite Ha, Hp.
  destruct (Glob.last_char_is_sep (system w) pat); simpl; eauto.
Qed.

Lemma path_match_rejects (plat : platform) (parts : list string)
  (pat : string) :
  Glob.anchored plat pat = false ->
  Glob.pattern_parts plat pat = [] ->
  Glob.path_match plat parts pat = Raise (ValueError "empty pattern").
Proof.
  intros Ha Hp. unfold Glob.path_match. now rewrite Ha, Hp.
Qed.

Lemma deep_file_rejected (w : world) (pat : string) (rest : list string)
  (cutoff : Z) (current_dir : Path) (files : list Path) (name : string) :
  Glob.anchored (system w) pat = false ->
  Glob.pattern_parts (system w) pat = [] ->
  deep_file w (pat :: rest) cutoff current_dir files name = files.
Proof.
  intros Ha Hp. unfold deep_file, deep_try.
  destruct (negb _); [reflexivity|].
  destruct (has_ignored_suffix _ _); [reflexivity|].
  cbn [matched_any]. now rewrite (path_match_rejects _ _ _ Ha Hp).
Qed.

Lemma fold_left_fixed {A B : Type} (f : A -> B -> A) (l : list B) (a : A) :
  (forall x, f a x = a) -> fold_left f l a = a.
Proof.
  intros H. induction l as [|x l IH]; simpl; [reflexivity|].
  now rewrite H.
Qed.

Lemma recent_files_rejected :
  forall (w : world) (now : Z) (dirs : list Path) (pat : string)
         (rest : list string) (recent_minutes : Z) (deep : bool),
  Glob.anchored (system w) pat = false ->
  Glob.pattern_parts (system w) pat = [] ->
  _recent_files w now dirs (pat :: rest) recent_minutes deep = Ok [].
Proof.
  intros w now dirs pat rest recent_minutes deep Ha Hp.
  assert (Hscan : scan w (now - recent_minutes * 60) dirs (pat :: rest) deep
                  = []).
  { unfold scan. destruct deep.
    - apply fold_left_fixed. intros root.
      apply (walk_invariant
               (deep_body w (pat :: rest) (now - recent_minutes * 60))
               (fun _ => True) (fun st => st = [])); auto.
      intros top ds fs st _ ->. unfold deep_body. cbn [snd].
      apply fold_left_fixed. intros name.
      now apply deep_file_rejected.
    - apply fold_left_fixed. intros d.
      unfold _list_matches. cbn [list_matches_loop].
      destruct (glob_rejects w d pat Ha Hp) as [e ->]. reflexivity. }
  unfold _recent_files. now rewrite Hscan.
Qed.

(** X5.  A pattern that has no component (the empty string, ["."],
    ["./"]) is refused by [glob] and by [match]; when it is the first of
    the patterns, nothing is searched after it and [_recent_files]
    returns the empty list, in both modes and whatever the files. *)
Theorem recent_files_rejected_first_pattern :
  forall (w : world) (now : Z) (dirs : list Path) (pat : string)
         (rest : list string) (recent_minutes : Z) (deep : bool),
  Glob.anchored (system w) pat = false ->
  Glob.pattern_parts (system w) pat = [] ->
  _recent_files w now dirs (pat :: rest) recent_minutes deep = Ok [].
Proof. exact recent_files_rejected. Qed.

(** With the empty pattern first, the fresh download is not found. *)
Lemma recent_files_rejected_first_pattern_witness :
  _recent_files Sample.fresh Sample.now [Sample.downloads]
                ("" :: DEFAULT_PATTERNS) 180 false = Ok [].
Proof.
  apply recent_files_rejected_first_pattern; reflexivity.
Defined.

(** ** What a returned file's name has matched *)

Lemma matched_any_true (plat : platform) (name : string)
  (patterns : list string) :
  matched_any plat name patterns = Ok true ->
  exists pat form,
    In pat patterns /\ In form (casings pat) /\
    Glob.path_match plat [name] form = Ok true.
Proof.
  induction patterns as [|pat rest IH]; cbn [matched_any]; [discriminate|].
  destruct (Glob.path_match plat [name] pat) as [[|]|e] eqn:H1;
    cbn [bind]; try discriminate.
  { intros _. exists pat, pat.
    split; [now left|]. split; [now left | exact H1]. }
  destruct (Glob.path_match plat [name] (Str.lower pat)) as [[|]|e] eqn:H2;
    cbn [bind]; try discriminate.
  { intros _. exists pat, (Str.lower pat).
    split; [now left|]. split; [right; now left | exact H2]. }
  destruct (Glob.path_match plat [name] (Str.upper pat)) as [[|]|e] eqn:H3;
    cbn [bind]; try discriminate.
  { intros _. exists pat, (Str.upper pat).
    split; [now left|]. split; [right; right; now left | exact H3]. }
  intros H. destruct (IH H) as [p [f [Hp [Hf Hm]]]].
  exists p, f. repeat split; auto. now right.
Qed.

Lemma deep_try_matched (w : world) (patterns : list string) (cutoff : Z)
  (current_dir : Path) (name : string) (files files' : list Path) :
  deep_try w patterns cutoff current_dir name files = Ok files' ->
  files' = files \/
  (files' = files ++ [child current_dir name] /\
   matched_any (system w) name patterns = Ok true).
Proof.
  unfold deep_try.
  destruct (negb _); [intros [= <-]; now left|].
  destruct (has_ignored_suffix _ _); [intros [= <-]; now left|].
  destruct (matched_any (system w) name patterns) as [[|]|e]; cbn [bind negb];
    try discriminate; [|intros [= <-]; now left].
  destruct (stat_mtime w (child current_dir name)) as [t|e]; cbn [bind];
    try discriminate.
  destruct (cutoff <=? t)%Z; intros [= <-]; [right | now left].
  now split.
Qed.

Lemma last_child (p : Path) (n : string) : last (child p n) "" = n.
Proof. apply last_last. Qed.

Lemma scan_deep_matched (w : world) (cutoff : Z) (dirs : list Path)
  (patterns : list string) :
  Forall (fun p => matched_any (system w) (last p "") patterns = Ok true)
         (scan w cutoff dirs patterns true).
Proof.
  unfold scan.
  apply fold_left_invariant; [|constructor].
  intros files root Hfiles.
  apply (walk_invariant (deep_body w patterns cutoff) (fun _ => True)); auto.
  intros top ds fs st _ Hst. unfold deep_body. cbn [snd].
  apply fold_left_invariant; [|exact Hst].
  intros a x Ha. unfold deep_file.
  destruct (deep_try w patterns cutoff top x a) as [a'|e] eqn:Htry;
    [|exact Ha].
  apply deep_try_matched in Htry as [-> | [-> Hm]]; [exact Ha|].
  apply Forall_snoc; [exact Ha|]. now rewrite last_child.
Qed.

(** X6.  In deep mode the name of every file returned has matched, by
    [Path.match], one of the patterns as given, in lower case or in
    upper case. *)
Theorem recent_files_deep_names_match :
  forall (w : world) (now : Z) (dirs : list Path) (patterns : list string)
         (recent_minutes : Z),
  exists files,
    _recent_files w now dirs patterns recent_minutes true = Ok files /\
    Forall (fun p =>
              exists pat form,
                In pat patterns /\ In form (casings pat) /\
                Glob.path_match (system w) [last p ""] form = Ok true)
           files.
Proof.
  intros w now dirs patterns recent_minutes.
  destruct (recent_files_perm w now dirs patterns recent_minutes true)
    as [files [Hr Hperm]].
  exists files. split; [exact Hr|].
  eapply Permutation_Forall; [symmetry; exact Hperm|].
  eapply Forall_impl; [|apply scan_deep_matched].
  intros p Hp. exact (matched_any_true _ _ _ Hp).
Qed.

(** *** The shallow search, for patterns of one component *)

Lemma glob_one_level (w : world) (d : Path) (pat : string) (l : list Path) :
  one_level (system w) pat ->
  Glob.glob w d pat = Ok l ->
  forall p, In p l ->
    exists name,
      p = child d name /\ Glob.fnmatch_name (system w) name pat = true.
Proof.
  intros [Ha [Hp [Hs [Hstar Hwild]]]]. unfold Glob.glob.
  destruct (String.eqb pat "") eqn:Hempty.
  { apply String.eqb_eq in Hempty. subst pat. discriminate Hwild. }
  rewrite Ha, Hp, Hs. cbn [app]. rewrite Hempty.
  cbn [existsb]. rewrite Hstar. cbn [andb orb].
  destruct (is_dir w d); intros [= <-]; [|contradiction].
  cbn [Glob.select]. rewrite Hempty.
  destruct (String.eqb pat "**") eqn:H2.
  { apply String.eqb_eq in H2. subst pat. discriminate Hstar. }
  rewrite Hwild.
  destruct (scandir w d) as [es|]; [|contradiction].
  intros p Hin. apply in_flat_map in Hin as [e [_ He]].
  cbn [negb orb] in He.
  destruct (Glob.fnmatch_name (system w) (entry_name e) pat) eqn:Hm;
    [|contradiction].
  destruct He as [<- | []]. now exists (entry_name e).
Qed.

Lemma list_matches_loop_origin (w : world) (d : Path)
  (patterns : list string) :
  forall out p,
    In p (list_matches_loop w d patterns out) ->
    In p out \/
    exists pat form l,
      In pat patterns /\ In form (casings pat) /\
      Glob.glob w d form = Ok l /\ In p l.
Proof.
  induction patterns as [|pat rest IH]; intros out p; cbn [list_matches_loop];
    [now left|].
  assert (Hfrom : forall form l,
            In form (casings pat) -> Glob.glob w d form = Ok l -> In p l ->
            exists pat' form' l',
              In pat' (pat :: rest) /\ In form' (casings pat') /\
              Glob.glob w d form' = Ok l' /\ In p l').
  { intros form l Hform Hg Hin. exists pat, form, l.
    repeat split; auto. now left. }
  destruct (Glob.glob w d pat) as [l1|] eqn:H1; [|now left].
  destruct (Glob.glob w d (Str.lower pat)) as [l2|] eqn:H2.
  2:{ intros Hin. apply in_app_or in Hin as [Hin | Hin]; [now left|].
      right. apply (Hfrom pat l1); auto. unfold casings. simpl. auto. }
  destruct (Glob.glob w d (Str.upper pat)) as [l3|] eqn:H3.
  2:{ intros Hin. apply in_app_or in Hin as [Hin | Hin].
      - apply in_app_or in Hin as [Hin | Hin]; [now left|].
        right. apply (Hfrom pat l1); auto. unfold casings. simpl. auto.
      - right. apply (Hfrom (Str.lower pat) l2); auto.
        unfold casings. simpl. auto. }
  intros Hin. apply IH in Hin as [Hin | [pat' [form [l [Hp [Hf [Hg Hl]]]]]]].
  - apply in_app_or in Hin as [Hin | Hin].
    + apply in_app_or in Hin as [Hin | Hin].
      * apply in_app_or in Hin as [Hin | Hin]; [now left|].
        right. apply (Hfrom pat l1); auto. unfold casings. simpl. auto.
      * right. apply (Hfrom (Str.lower pat) l2); auto.
        unfold casings. simpl. auto.
    + right. apply (Hfrom (Str.upper pat) l3); auto.
      unfold casings. simpl. auto.
  - right. exists pat', form, l. repeat split; auto. now right.
Qed.

Lemma scan_shallow_origin (w : world) (cutoff : Z) (dirs : list Path)
  (patterns : list string) :
  Forall (fun p => exists d, In d dirs /\ In p (_list_matches w d patterns))
         (scan w cutoff dirs patterns false).
Proof.
  unfold scan.
  apply fold_left_invariant_in; [|constructor].
  intros files d Hd Hfiles.
  apply fold_left_invariant_in; [|exact Hfiles].
  intros a p Hp Ha. unfold shallow_file.
  destruct (shallow_try w cutoff p a) as [a'|e] eqn:Htry; [|exact Ha].
  apply shallow_try_passes in Htry as [-> | [-> _]]; [exact Ha|].
  apply Forall_snoc; [exact Ha|]. now exists d.
Qed.

Lemma scan_shallow_one_level (w : world) (cutoff : Z) (dirs : list Path)
  (patterns : list string) :
  (forall pat form, In pat patterns -> In form (casings pat) ->
     one_level (system w) form) ->
  Forall (fun p =>
            exists d name pat form,
              In d dirs /\ p = child d name /\
              In pat patterns /\ In form (casings pat) /\
              Glob.fnmatch_name (system w) name form = true)
         (scan w cutoff dirs patterns false).
Proof.
  intros Hone.
  eapply Forall_impl; [|apply scan_shallow_origin].
  intros p [d [Hd Hin]].
  unfold _list_matches in Hin.
  apply list_matches_loop_origin in Hin
    as [[] | [pat [form [l [Hpat [Hform [Hg Hl]]]]]]].
  destruct (glob_one_level w d form l (Hone _ _ Hpat Hform) Hg p Hl)
    as [name [-> Hm]].
  now exists d, name, pat, form.
Qed.

(** X7.  When every pattern, in each of its three forms, is a single
    component with a wildcard, the shallow search does not descend:
    every file returned lies directly in one of the directories searched
    and its name matches one of the forms. *)
Theorem recent_files_shallow_is_one_level :
  forall (w : world) (now : Z) (dirs : list Path) (patterns : list string)
         (recent_minutes : Z),
  (forall pat form, In pat patterns -> In form (casings pat) ->
     one_level (system w) form) ->
  exists files,
    _recent_files w now dirs patterns recent_minutes false = Ok files /\
    Forall (fun p =>
              exists d name pat form,
                In d dirs /\ p = child d name /\
                In pat patterns /\ In form (casings pat) /\
                Glob.fnmatch_name (system w) name form = true)
           files.
Proof.
  intros w now dirs patterns recent_minutes Hone.
  destruct (recent_files_perm w now dirs patterns recent_minutes false)
    as [files [Hr Hperm]].
  exists files. split; [exact Hr|].
  eapply Permutation_Forall; [symmetry; exact Hperm|].
  now apply scan_shallow_one_level.
Qed.

Lemma default_patterns_one_level (plat : platform) (pat form : string) :
  In pat DEFAULT_PATTERNS -> In form (casings pat) -> one_level plat form.
Proof.
  intros Hpat Hform.
  destruct Hpat as [<- | [<- | []]];
    destruct Hform as [<- | [<- | [<- | []]]];
    destruct plat; repeat split; reflexivity.
Qed.

(** The two default patterns are of that kind, on either platform. *)
Lemma recent_files_shallow_is_one_level_witness :
  exists files,
    _recent_files Sample.fresh Sample.now [Sample.downloads]
                  DEFAULT_PATTERNS 180 false = Ok files /\
    Forall (fun p =>
              exists d name pat form,
                In d [Sample.downloads] /\ p = child d name /\
                In pat DEFAULT_PATTERNS /\ In form (casings pat) /\
                Glob.fnmatch_name Posix name form = true)
           files.
Proof.
  apply (recent_files_shallow_is_one_level Sample.fresh).
  intros pat form. apply default_patterns_one_level.
Defined.

(** ** The collector and the file [download_nse_sgb.py] saves *)

Lemma fnmatchcase_first_literal (name pat : string) (c : ascii) :
  first_literal pat = Some c ->
  Fnmatch.fnmatchcase name pat = true ->
  exists rest, name = String c rest.
Proof.
  unfold first_literal, Fnmatch.fnmatchcase.
  destruct (Fnmatch.tokens 0 (list_ascii_of_string pat)) as [|[| |c'|] ts];
    try discriminate.
  intros [= ->].
  destruct name as [|a rest]; cbn [list_ascii_of_string Fnmatch.matches];
    [discriminate|].
  intros H. apply andb_true_iff in H as [Ha _].
  apply Ascii.eqb_eq in Ha. subst a. now exists rest.
Qed.

Lemma lower_first (c : ascii) (rest : string) :
  Str.lower (String c rest) = String (Str.lower_char c) (Str.lower rest).
Proof. reflexivity. Qed.

(** A name that begins, in lower case, with [m] or [n] is not
    [sgb_data.csv]. *)
Lemma default_form_not_sgb_data (plat : platform) (pat form name : string) :
  In pat DEFAULT_PATTERNS -> In form (casings pat) ->
  Glob.fnmatch_name plat name form = true ->
  Str.lower name <> "sgb_data.csv".
Proof.
  intros Hpat Hform Hm Hl. unfold Glob.fnmatch_name in Hm.
  assert (Hfirst : exists c,
            first_literal (casefold plat form) = Some c /\
            Str.lower_char c <> "s"%char).
  { destruct Hpat as [<- | [<- | []]];
      destruct Hform as [<- | [<- | [<- | []]]];
      destruct plat; vm_compute; eexists; (split; [reflexivity|discriminate]). }
  destruct Hfirst as [c [Hc Hs]].
  destruct (fnmatchcase_first_literal _ _ _ Hc Hm) as [rest Hname].
  destruct plat; cbn [casefold] in Hname.
  - (* Windows: the name is compared in lower case *)
    rewrite Hname in Hl. injection Hl as Hc' _. subst c.
    apply Hs. reflexivity.
  - rewrite Hname, lower_first in Hl. injection Hl as Hc' _.
    now apply Hs.
Qed.

Lemma path_match_one_level (plat : platform) (name form : string) (b : bool) :
  one_level plat form ->
  Glob.path_match plat [name] form = Ok b ->
  b = Glob.fnmatch_name plat name form.
Proof.
  intros [Ha [Hp _]]. unfold Glob.path_match. rewrite Ha, Hp.
  cbn. intros [= <-]. now rewrite andb_true_r.
Qed.

(** X8.  With the default patterns, no file called [sgb_data.csv], in
    any letter case, is ever returned, in either mode: the file that
    [download_nse_sgb.py] writes into the working directory is not among
    the candidates of the collector. *)
Theorem recent_files_default_never_sgb_data :
  forall (w : world) (now : Z) (dirs : list Path) (recent_minutes : Z)
         (deep : bool),
  exists files,
    _recent_files w now dirs DEFAULT_PATTERNS recent_minutes deep = Ok files /\
    Forall (fun p => Str.lower (last p "") <> "sgb_data.csv") files /\
    (forall cwd, ~ In (DownloadNse.out_path cwd) files).
Proof.
  intros w now dirs recent_minutes deep.
  destruct (recent_files_perm w now dirs DEFAULT_PATTERNS recent_minutes deep)
    as [files [Hr Hperm]].
  exists files. split; [exact Hr|].
  assert (Hall : Forall (fun p => Str.lower (last p "") <> "sgb_data.csv")
                        files).
  { eapply Permutation_Forall; [symmetry; exact Hperm|].
    destruct deep.
    - eapply Forall_impl; [|apply scan_deep_matched].
      intros p Hp.
      apply matched_any_true in Hp as [pat [form [Hpat [Hform Hm]]]].
      apply (path_match_one_level _ _ _ _
               (default_patterns_one_level _ _ _ Hpat Hform)) in Hm.
      apply (default_form_not_sgb_data (system w) pat form); auto.
    - eapply Forall_impl;
        [|apply scan_shallow_one_level;
          intros pat form; apply default_patterns_one_level].
      intros p [d [name [pat [form [_ [-> [Hpat [Hform Hm]]]]]]]].
      rewrite last_child.
      apply (default_form_not_sgb_data (system w) pat form); auto. }
  split; [exact Hall|].
  intros cwd Hin. rewrite Forall_forall in Hall.
  apply (Hall _ Hin). unfold DownloadNse.out_path.
  now rewrite last_child.
Qed.

(** ** [_enumerate_accessible_roots] *)

Lemma eqb_refl (plat : platform) (p : Path) : PathOps.eqb plat p p = true.
Proof.
  induction p as [|a p IH]; [reflexivity|].
  cbn [PathOps.eqb]. now rewrite name_eqb_refl, IH.
Qed.

Lemma mem_cons (plat : platform) (p q : Path) (l : list Path) :
  PathOps.mem plat p (q :: l) = PathOps.eqb plat p q || PathOps.mem plat p l.
Proof. reflexivity. Qed.

Lemma dedup_from_distinct (plat : platform) (l : list Path) :
  forall seen,
    ForallOrdPairs (fun p q => PathOps.eqb plat p q = false)
                   (dedup_from plat seen l) /\
    Forall (fun p => PathOps.mem plat p seen = false) (dedup_from plat seen l).
Proof.
  induction l as [|x r IH]; intros seen; cbn [dedup_from].
  - split; constructor.
  - destruct (PathOps.mem plat x seen) eqn:Hx; [apply IH|].
    destruct (IH (x :: seen)) as [Hpairs Hseen].
    split.
    + constructor; [|exact Hpairs].
      eapply Forall_impl; [|exact Hseen].
      intros q Hq. cbv beta in Hq. rewrite mem_cons in Hq.
      apply orb_false_iff in Hq as [Hq _]. now rewrite eqb_sym.
    + constructor; [exact Hx|].
      eapply Forall_impl; [|exact Hseen].
      intros q Hq. cbv beta in Hq. rewrite mem_cons in Hq.
      now apply orb_false_iff in Hq as [_ Hq].
Qed.

Lemma dedup_from_covers (plat : platform) (l : list Path) :
  forall seen p,
    In p l ->
    PathOps.mem plat p seen = true \/
    PathOps.mem plat p (dedup_from plat seen l) = true.
Proof.
  induction l as [|x r IH]; intros seen p; [contradiction|].
  cbn [dedup_from].
  destruct (PathOps.mem plat x seen) eqn:Hx.
  - intros [<- | Hin]; [now left | now apply IH].
  - intros [<- | Hin].
    + right. rewrite mem_cons, eqb_refl. reflexivity.
    + destruct (IH (x :: seen) p Hin) as [H | H].
      * rewrite mem_cons in H.
        destruct (PathOps.eqb plat p x) eqn:Hpx.
        -- right. rewrite mem_cons, Hpx. reflexivity.
        -- now left.
      * right. rewrite mem_cons, H. apply orb_true_r.
Qed.

(** X9.  The roots are deduplicated: no two of the paths returned are
    equal (case being ignored on Windows), each of them was found by the
    enumeration of the platform, and each path that enumeration found is
    equal to one returned. *)
Theorem roots_are_deduplicated :
  forall (w : world),
  let found := match system w with
               | Windows => windows_roots w
               | Posix => posix_roots w
               end in
  ForallOrdPairs (fun p q => PathOps.eqb (system w) p q = false)
                 (_enumerate_accessible_roots w) /\
  incl (_enumerate_accessible_roots w) found /\
  Forall (fun r => PathOps.mem (system w) r (_enumerate_accessible_roots w)
                   = true) found.
Proof.
  intros w found. unfold _enumerate_accessible_roots, dedup.
  fold found.
  split; [apply dedup_from_distinct|].
  split; [apply dedup_from_incl|].
  apply Forall_forall. intros r Hr.
  destruct (dedup_from_covers (system w) found [] r Hr) as [H | H];
    [discriminate | exact H].
Qed.

(** A path that nothing else in the list equals survives the
    deduplication as it is. *)
Lemma dedup_from_keeps (plat : platform) (p : Path) (l : list Path) :
  forall seen,
    In p l ->
    (forall q, In q l -> PathOps.eqb plat q p = true -> q = p) ->
    PathOps.mem plat p seen = false ->
    In p (dedup_from plat seen l).
Proof.
  induction l as [|x r IH]; intros seen Hin Hexact Hseen; [contradiction|].
  cbn [dedup_from].
  destruct (PathOps.mem plat x seen) eqn:Hx.
  - destruct Hin as [-> | Hin]; [congruence|].
    apply IH; auto. intros q Hq. apply Hexact. now right.
  - destruct (PathOps.eqb plat x p) eqn:Hxp.
    + left. apply Hexact; [now left | exact Hxp].
    + right. destruct Hin as [-> | Hin]; [now rewrite eqb_refl in Hxp|].
      apply IH; auto.
      * intros q Hq. apply Hexact. now right.
      * rewrite mem_cons, eqb_sym, Hxp. exact Hseen.
Qed.

(** *** The drives of Windows *)

Lemma land_shiftr_bit (b : Z) (i : nat) :
  Z.eqb (Z.land (Z.shiftr b (Z.of_nat i)) 1) 0
  = negb (Z.testbit b (Z.of_nat i)).
Proof.
  change 1%Z with (Z.ones 1).
  rewrite Z.land_ones by lia.
  change (2 ^ 1)%Z with 2%Z.
  rewrite <- Z.bit0_mod, Z.shiftr_spec by lia.
  rewrite Z.add_0_l.
  now destruct (Z.testbit b (Z.of_nat i)).
Qed.

Lemma in_enumerate {A : Type} (l : list A) :
  forall k i x,
    In (i, x) (enumerate k l) <->
    (k <= i)%nat /\ nth_error l (i - k) = Some x.
Proof.
  induction l as [|a l IH]; intros k i x; cbn [enumerate In].
  - split; [contradiction|]. intros [_ H]. now destruct (i - k)%nat.
  - rewrite IH. split.
    + intros [[= <- <-] | [Hle Hn]].
      * split; [lia|]. now rewrite Nat.sub_diag.
      * split; [lia|].
        replace (i - k)%nat with (S (i - S k)) by lia. exact Hn.
    + intros [Hle Hn].
      destruct (Nat.eq_dec i k) as [-> | Hne].
      * left. rewrite Nat.sub_diag in Hn. now injection Hn as ->.
      * right. split; [lia|].
        replace (i - k)%nat with (S (i - S k)) in Hn by lia. exact Hn.
Qed.

Lemma windows_roots_spec (w : world) (root : Path) :
  In root (windows_roots w) <->
  exists i letter t,
    nth_error ascii_uppercase i = Some letter /\
    root = [(letter ++ ":\")%string] /\
    Z.testbit (logical_drives w) (Z.of_nat i) = true /\
    drive_type w (str Windows root) = Some t /\
    t <> DRIVE_NO_ROOT_DIR /\ t <> DRIVE_UNKNOWN /\
    _is_accessible_dir w root = true.
Proof.
  unfold windows_roots.
  assert (Hgen : forall l acc,
    In root
      (fold_left
         (fun roots (il : nat * string) =>
            let (i, letter) := il in
            if Z.eqb (Z.land (Z.shiftr (logical_drives w) (Z.of_nat i)) 1) 0
            then roots
            else
              let root : Path := [(letter ++ ":\")%string] in
              match drive_type w (str Windows root) with
              | None => roots
              | Some dtype =>
                  if Z.eqb dtype DRIVE_NO_ROOT_DIR
                     || Z.eqb dtype DRIVE_UNKNOWN
                  then roots
                  else if _is_accessible_dir w root then roots ++ [root]
                       else roots
              end) l acc) <->
    In root acc \/
    exists i letter t,
      In (i, letter) l /\
      root = [(letter ++ ":\")%string] /\
      Z.testbit (logical_drives w) (Z.of_nat i) = true /\
      drive_type w (str Windows root) = Some t /\
      t <> DRIVE_NO_ROOT_DIR /\ t <> DRIVE_UNKNOWN /\
      _is_accessible_dir w root = true).
  { induction l as [|[i letter] l IH]; intros acc; cbn [fold_left].
    - split; [now left|]. intros [H | [i [letter [t [[] _]]]]]. exact H.
    - rewrite IH. clear IH. rewrite land_shiftr_bit.
      split.
      + intros [Hacc | [j [lt [t [Hin H]]]]].
        * destruct (Z.testbit (logical_drives w) (Z.of_nat i)) eqn:Hbit;
            cbn [negb] in Hacc; [|now left].
          destruct (drive_type w (str Windows [(letter ++ ":\")%string]))
            as [t|] eqn:Ht; [|now left].
          destruct (Z.eqb t DRIVE_NO_ROOT_DIR || Z.eqb t DRIVE_UNKNOWN)
            eqn:Hbad; [now left|].
          destruct (_is_accessible_dir w [(letter ++ ":\")%string]) eqn:Hacc';
            [|now left].
          apply in_app_or in Hacc as [Hacc | [<- | []]]; [now left|].
          right. exists i, letter, t.
          apply orb_false_iff in Hbad as [H1 H0].
          apply Z.eqb_neq in H1.
          apply Z.eqb_neq in H0.
          split; [now left|]. split; [reflexivity|].
          split; [exact Hbit|]. split; [exact Ht|].
          split; [exact H1|]. split; [exact H0 | exact Hacc'].
        * right. exists j, lt, t. split; [now right | exact H].
      + intros [Hacc | [j [lt [t [[Heq | Hin] Hcond]]]]];
          [| injection Heq as <- <- |].
        * left.
          destruct (Z.testbit (logical_drives w) (Z.of_nat i));
            cbn [negb]; [|exact Hacc].
          destruct (drive_type w _); [|exact Hacc].
          destruct (_ || _); [exact Hacc|].
          destruct (_is_accessible_dir w _); [|exact Hacc].
          apply in_or_app. now left.
        * left. destruct Hcond as [-> [Hbit [Ht [H1 [H0 Hacc]]]]].
          rewrite Hbit. cbn [negb]. rewrite Ht.
          apply Z.eqb_neq in H1. apply Z.eqb_neq in H0.
          rewrite H1, H0. cbn [orb].
          rewrite Hacc. apply in_or_app. right. now left.
        * right. exists j, lt, t. split; [exact Hin | exact Hcond]. }
  rewrite Hgen. split.
  - intros [[] | [i [letter [t [Hin H]]]]].
    exists i, letter, t. split; [|exact H].
    apply in_enumerate in Hin as [_ Hn]. now rewrite Nat.sub_0_r in Hn.
  - intros [i [letter [t [Hn H]]]]. right.
    exists i, letter, t. split; [|exact H].
    apply in_enumerate. split; [lia|]. now rewrite Nat.sub_0_r.
Qed.

Lemma drive_letters_differ (l l' : string) :
  In l ascii_uppercase -> In l' ascii_uppercase ->
  PathOps.eqb Windows [(l ++ ":\")%string] [(l' ++ ":\")%string] = true ->
  l = l'.
Proof.
  intros Hl Hl' Heq.
  assert (Hall :
    forallb (fun a =>
      forallb (fun b =>
        implb (PathOps.eqb Windows [(a ++ ":\")%string] [(b ++ ":\")%string])
              (String.eqb a b))
        ascii_uppercase)
      ascii_uppercase = true) by (vm_compute; reflexivity).
  rewrite forallb_forall in Hall. specialize (Hall l Hl).
  rewrite forallb_forall in Hall. specialize (Hall l' Hl').
  rewrite Heq in Hall. now apply String.eqb_eq.
Qed.

(** X10.  On Windows a path is a root of the deep scan exactly when it
    is the root of a drive [A:] to [Z:] whose bit is set in the mask of
    logical drives, whose type [GetDriveTypeW] returns and is neither
    "no root directory" nor "unknown", and which can be listed. *)
Theorem windows_roots_are_ready_drives :
  forall (w : world) (root : Path),
  system w = Windows ->
  (In root (_enumerate_accessible_roots w) <->
   exists i letter t,
     nth_error ascii_uppercase i = Some letter /\
     root = [(letter ++ ":\")%string] /\
     Z.testbit (logical_drives w) (Z.of_nat i) = true /\
     drive_type w (str Windows root) = Some t /\
     t <> DRIVE_NO_ROOT_DIR /\ t <> DRIVE_UNKNOWN /\
     _is_accessible_dir w root = true).
Proof.
  intros w root Hsys. rewrite <- windows_roots_spec.
  unfold _enumerate_accessible_roots, dedup. rewrite Hsys.
  split; [apply dedup_from_incl|].
  intros Hin. apply dedup_from_keeps; [exact Hin | | reflexivity].
  intros q Hq Heq.
  destruct (proj1 (windows_roots_spec w root) Hin)
    as [i [l [t [Hi [Hroot _]]]]].
  destruct (proj1 (windows_roots_spec w q) Hq)
    as [j [l' [t' [Hj [Hq' _]]]]].
  subst root q.
  apply nth_error_In in Hi. apply nth_error_In in Hj.
  rewrite (drive_letters_differ _ _ Hj Hi Heq). reflexivity.
Qed.

(** Drive [C:] of the sample machine: bit 2 of the mask, a fixed disk. *)
Lemma windows_roots_are_ready_drives_witness :
  In ["C:\"] (_enumerate_accessible_roots Sample.with_windows).
Proof.
  apply (windows_roots_are_ready_drives Sample.with_windows);
    [reflexivity|].
  exists 2%nat, "C", 3%Z. repeat split; discriminate.
Defined.

(** *** The mount points of the other systems *)

Lemma posix_roots_steps (w : world) :
  posix_roots w = fst (fold_left (posix_base_step w) mount_candidates ([], [])).
Proof. reflexivity. Qed.

Lemma eqb_posix_eq (p q : Path) : PathOps.eqb Posix p q = true -> p = q.
Proof.
  revert q. induction p as [|a p IH]; intros [|b q]; cbn [PathOps.eqb];
    try discriminate; [reflexivity|].
  intros H. apply andb_true_iff in H as [Hab Hpq].
  apply String.eqb_eq in Hab. cbn [casefold] in Hab.
  now rewrite Hab, (IH _ Hpq).
Qed.

Lemma mem_posix_in (p : Path) (l : list Path) :
  PathOps.mem Posix p l = true -> In p l.
Proof.
  unfold PathOps.mem. intros H.
  apply existsb_exists in H as [q [Hq Heq]].
  now rewrite (eqb_posix_eq _ _ Heq).
Qed.

Lemma roots_grow_refl (st : list Path * list Path) : roots_grow st st.
Proof. split; [exists []; now rewrite app_nil_r | auto]. Qed.

Lemma roots_grow_trans (a b c : list Path * list Path) :
  roots_grow a b -> roots_grow b c -> roots_grow a c.
Proof.
  intros [[m1 H1] S1] [[m2 H2] S2]. split.
  - exists (m1 ++ m2). now rewrite H2, H1, app_assoc.
  - auto.
Qed.

Lemma posix_child_step_grows (w : world) (base : Path)
  (st : list Path * list Path) (e : entry) :
  roots_grow st (posix_child_step w base st e).
Proof.
  unfold posix_child_step.
  destruct (is_dir w _ && _is_accessible_dir w _); [|apply roots_grow_refl].
  destruct (PathOps.mem _ _ _); [apply roots_grow_refl|].
  split; cbn [fst snd]; [eauto|].
  intros Hseen x [<- | Hx]; apply in_or_app; [right; now left | left; auto].
Qed.

Lemma posix_children_grow (w : world) (base : Path) (es : list entry) :
  forall st, roots_grow st (fold_left (posix_child_step w base) es st).
Proof.
  induction es as [|e es IH]; intros st; cbn [fold_left];
    [apply roots_grow_refl|].
  eapply roots_grow_trans; [apply posix_child_step_grows | apply IH].
Qed.

Lemma posix_base_step_grows (w : world) (st : list Path * list Path)
  (base : Path) :
  roots_grow st (posix_base_step w st base).
Proof.
  unfold posix_base_step.
  destruct (_is_accessible_dir w base); [|apply roots_grow_refl].
  assert (H0 : roots_grow st (fst st ++ [base], snd st)).
  { split; cbn [fst snd]; [eauto|].
    intros Hseen x Hx. apply in_or_app. left. auto. }
  destruct (scandir w base) as [es|]; [|exact H0].
  eapply roots_grow_trans; [exact H0 | apply posix_children_grow].
Qed.

Lemma posix_bases_grow (w : world) (bases : list Path) :
  forall st, roots_grow st (fold_left (posix_base_step w) bases st).
Proof.
  induction bases as [|b bases IH]; intros st; cbn [fold_left];
    [apply roots_grow_refl|].
  eapply roots_grow_trans; [apply posix_base_step_grows | apply IH].
Qed.

Lemma roots_grow_in (st st' : list Path * list Path) (x : Path) :
  roots_grow st st' -> In x (fst st) -> In x (fst st').
Proof.
  intros [[more ->] _] Hx. apply in_or_app. now left.
Qed.

Lemma posix_children_add (w : world) (base : Path) (es : list entry)
  (e : entry) :
  system w = Posix ->
  In e es ->
  is_dir w (child base (entry_name e)) = true ->
  _is_accessible_dir w (child base (entry_name e)) = true ->
  forall st,
    (forall x, In x (snd st) -> In x (fst st)) ->
    In (child base (entry_name e))
       (fst (fold_left (posix_child_step w base) es st)).
Proof.
  intros Hsys Hin Hd Ha.
  induction es as [|e0 es IH]; [contradiction|].
  intros st Hseen. cbn [fold_left].
  destruct Hin as [-> | Hin].
  - apply (roots_grow_in _ _ _ (posix_children_grow w base es _)).
    unfold posix_child_step. rewrite Hd, Ha, Hsys. cbn [andb].
    destruct (PathOps.mem Posix _ (snd st)) eqn:Hmem.
    + apply Hseen. now apply mem_posix_in.
    + cbn [fst]. apply in_or_app. right. now left.
  - apply (IH Hin).
    exact (proj2 (posix_child_step_grows w base st e0) Hseen).
Qed.

Lemma posix_base_step_adds (w : world) (base : Path)
  (st : list Path * list Path) :
  system w = Posix ->
  _is_accessible_dir w base = true ->
  (forall x, In x (snd st) -> In x (fst st)) ->
  In base (fst (posix_base_step w st base)) /\
  (forall es e,
     scandir w base = Some es -> In e es ->
     is_dir w (child base (entry_name e)) = true ->
     _is_accessible_dir w (child base (entry_name e)) = true ->
     In (child base (entry_name e)) (fst (posix_base_step w st base))).
Proof.
  intros Hsys Ha Hseen. unfold posix_base_step. rewrite Ha.
  assert (Hseen0 : forall x, In x (snd (fst st ++ [base], snd st)) ->
                             In x (fst (fst st ++ [base], snd st))).
  { cbn [fst snd]. intros x Hx. apply in_or_app. left. auto. }
  assert (Hbase : In base (fst (fst st ++ [base], snd st))).
  { cbn [fst]. apply in_or_app. right. now left. }
  cbv zeta.
  destruct (scandir w base) as [es|].
  - split.
    + exact (roots_grow_in _ _ _ (posix_children_grow w base es _) Hbase).
    + intros es' e [= <-] He Hd Hacc.
      apply posix_children_add; assumption.
  - split; [exact Hbase | discriminate].
Qed.

Lemma posix_bases_add (w : world) (bases : list Path) (base : Path) :
  system w = Posix ->
  In base bases ->
  _is_accessible_dir w base = true ->
  forall st,
    (forall x, In x (snd st) -> In x (fst st)) ->
    In base (fst (fold_left (posix_base_step w) bases st)) /\
    (forall es e,
       scandir w base = Some es -> In e es ->
       is_dir w (child base (entry_name e)) = true ->
       _is_accessible_dir w (child base (entry_name e)) = true ->
       In (child base (entry_name e))
          (fst (fold_left (posix_base_step w) bases st))).
Proof.
  intros Hsys Hin Ha.
  induction bases as [|b bases IH]; [contradiction|].
  intros st Hseen. cbn [fold_left].
  destruct Hin as [-> | Hin].
  - destruct (posix_base_step_adds w base st Hsys Ha Hseen) as [H1 H2].
    pose proof (posix_bases_grow w bases (posix_base_step w st base))
      as Hgrow.
    split.
    + exact (roots_grow_in _ _ _ Hgrow H1).
    + intros es e Hes He Hd Hacc.
      exact (roots_grow_in _ _ _ Hgrow (H2 es e Hes He Hd Hacc)).
  - apply (IH Hin).
    exact (proj2 (posix_base_step_grows w st b) Hseen).
Qed.

(** X11.  Elsewhere than on Windows, each of [/], [/mnt], [/media] and
    [/Volumes] that can be listed is a root of the deep scan, and so is
    every directory directly inside one of them that can be listed: the
    top-level directories are scanned as roots of their own. When [/]
    can be listed it is the first root. *)
Theorem posix_roots_include_top_level :
  forall (w : world) (base : Path),
  system w = Posix ->
  In base mount_candidates ->
  _is_accessible_dir w base = true ->
  In base (_enumerate_accessible_roots w) /\
  (forall es e,
     scandir w base = Some es -> In e es ->
     is_dir w (child base (entry_name e)) = true ->
     _is_accessible_dir w (child base (entry_name e)) = true ->
     In (child base (entry_name e)) (_enumerate_accessible_roots w)) /\
  (_is_accessible_dir w ["/"] = true ->
   hd_error (_enumerate_accessible_roots w) = Some ["/"]).
Proof.
  intros w base Hsys Hbase Ha.
  assert (Hkeep : forall p, In p (posix_roots w) ->
                            In p (_enumerate_accessible_roots w)).
  { intros p Hp. unfold _enumerate_accessible_roots, dedup. rewrite Hsys.
    apply dedup_from_keeps; [exact Hp | | reflexivity].
    intros q _ Hq. exact (eqb_posix_eq _ _ Hq). }
  destruct (posix_bases_add w mount_candidates base Hsys Hbase Ha ([], []))
    as [H1 H2]; [contradiction|].
  rewrite <- posix_roots_steps in H1.
  split; [exact (Hkeep _ H1)|]. split.
  - intros es e Hes He Hd Hacc. apply Hkeep. rewrite posix_roots_steps.
    exact (H2 es e Hes He Hd Hacc).
  - intros Hroot.
    unfold _enumerate_accessible_roots, dedup. rewrite Hsys.
    rewrite posix_roots_steps. unfold mount_candidates.
    destruct (posix_bases_grow w
                [["/"; "mnt"]; ["/"; "media"]; ["/"; "Volumes"]]
                (posix_base_step w ([], []) ["/"])) as [[more Hmore] _].
    cbn [fold_left] in Hmore |- *. rewrite Hmore.
    unfold posix_base_step. rewrite Hroot. cbn [fst snd app].
    destruct (scandir w ["/"]) as [es|].
    + match goal with
      | |- context [fold_left (posix_child_step w ?b) es ?st] =>
          destruct (posix_children_grow w b es st) as [[more' Hmore'] _];
          rewrite Hmore'
      end.
      reflexivity.
    + reflexivity.
Qed.

(** On the sample machine, [/tmp] is a root of its own. *)
Lemma posix_roots_include_top_level_witness :
  In ["/"; "tmp"] (_enumerate_accessible_roots Sample.with_tmp).
Proof.
  destruct (posix_roots_include_top_level Sample.with_tmp ["/"])
    as [_ [H _]]; [reflexivity | now left | reflexivity |].
  refine (H _ (Dir "tmp" true [Sample.csv "nse_sgb_data.csv" 99000])
            eq_refl _ eq_refl eq_refl).
  right. now left.
Defined.

(** ** [collect_csv]: what a run does to the files *)

Lemma read_in_nil (plat : platform) (q : list string) : read_in plat q [] = None.
Proof. destruct q; reflexivity. Qed.

Lemma read_in_step (plat : platform) (m m' : string) (qrest : list string)
  (es : list entry) :
  read_in plat (m :: m' :: qrest) es
  = match find_entry plat m es with
    | Some (Dir _ _ sub) => read_in plat (m' :: qrest) sub
    | _ => None
    end.
Proof.
  unfold read_in. cbn [lookup_in].
  destruct (find_entry plat m es) as [[? ?|? ? ?]|]; reflexivity.
Qed.

(** Making directories changes no file. *)
Lemma mkdirs_read (plat : platform) (p : list string) :
  forall es es' q,
    mkdirs plat p es = Some es' ->
    read_in plat q es' = read_in plat q es.
Proof.
  induction p as [|n rest IH]; intros es es' q; cbn [mkdirs].
  { now intros [= <-]. }
  assert (Hput : forall n0 l sub sub',
            name_eqb plat n0 n = true ->
            (forall q', read_in plat q' sub' = read_in plat q' sub) ->
            (find_entry plat n es = Some (Dir n0 l sub) \/
             (find_entry plat n es = None /\ sub = [])) ->
            read_in plat q (put_entry plat n (Dir n0 l sub') es)
            = read_in plat q es).
  { intros n0 l sub sub' Hn0 Hsub Hold.
    destruct q as [|m [|m' qrest]]; [reflexivity | |].
    - unfold read_in. cbn [lookup_in].
      rewrite find_put_entry by exact Hn0.
      destruct (name_eqb plat m n) eqn:Hmn; [|reflexivity].
      rewrite (find_entry_congr _ _ _ _ Hmn).
      destruct Hold as [-> | [-> _]]; reflexivity.
    - rewrite !read_in_step.
      rewrite find_put_entry by exact Hn0.
      destruct (name_eqb plat m n) eqn:Hmn; [|reflexivity].
      rewrite (find_entry_congr _ _ _ _ Hmn), Hsub.
      destruct Hold as [-> | [-> ->]]; [reflexivity | apply read_in_nil]. }
  destruct (find_entry plat n es) as [[n0 i | n0 l sub]|] eqn:Hfind;
    try discriminate.
  - destruct (mkdirs plat rest sub) as [sub'|] eqn:Hmk; try discriminate.
    intros [= <-].
    apply (Hput n0 l sub sub'); [exact (find_entry_name _ _ _ _ Hfind) | |].
    + intros q'. exact (IH _ _ q' Hmk).
    + now left.
  - destruct (mkdirs plat rest []) as [sub'|] eqn:Hmk; try discriminate.
    intros [= <-].
    apply (Hput n true [] sub'); [apply name_eqb_refl | |].
    + intros q'. exact (IH _ _ q' Hmk).
    + now right.
Qed.

Lemma mkdir_p_read (fault : bool) (w : world) (p q : Path) :
  read_file (snd (mkdir_p fault w p)) q = read_file w q.
Proof.
  unfold mkdir_p. destruct fault; [reflexivity|].
  destruct p as [|a r]; [reflexivity|].
  destruct (find_entry (system w) a (tree w)) as [[? ?|? ? ?]|];
    try reflexivity.
  destruct (mkdirs (system w) (a :: r) (tree w)) as [t|] eqn:Hmk;
    [|reflexivity].
  cbn [snd]. rewrite read_file_with_tree, read_file_read_in.
  exact (mkdirs_read _ _ _ _ q Hmk).
Qed.

Lemma mkdir_p_system (fault : bool) (w : world) (p : Path) :
  system (snd (mkdir_p fault w p)) = system w.
Proof.
  unfold mkdir_p. destruct fault; [reflexivity|].
  destruct p as [|a r]; [reflexivity|].
  destruct (find_entry (system w) a (tree w)) as [[? ?|? ? ?]|];
    try reflexivity.
  destruct (mkdirs (system w) (a :: r) (tree w)); reflexivity.
Qed.

Lemma remove_file_system (w w' : world) (p : Path) :
  remove_file w p = Some w' -> system w' = system w.
Proof.
  unfold remove_file. destruct p as [|? [|? ?]]; try discriminate.
  destruct (alter _ _ _ _); try discriminate. now intros [= <-].
Qed.

(** [real_dst] is the destination or the source's name inside it. *)
Lemma real_dst_cases (w : world) (src dst : Path) :
  real_dst w src dst = dst \/ real_dst w src dst = child dst (name src).
Proof. unfold real_dst. destruct (is_dir w dst); auto. Qed.

Lemma away_from_real_dst (w : world) (plat : platform) (src dst q : Path) :
  away_from plat src dst q ->
  PathOps.eqb plat (real_dst w src dst) q = false.
Proof.
  intros [H1 H2]. destruct (real_dst_cases w src dst) as [-> | ->]; auto.
Qed.

Lemma shutil_move_system (fault : move_fault) (w : world) (src dst : Path) :
  system (snd (shutil_move fault w src dst)) = system w.
Proof.
  unfold shutil_move.
  destruct (is_dir w dst && _); [reflexivity|].
  destruct (read_file w src) as [f|]; [|reflexivity].
  destruct (write_file w _ f) as [w'|] eqn:Hwr0; [|reflexivity].
  destruct fault.
  - destruct (remove_file w src) as [w1|] eqn:Hrm; [|reflexivity].
    destruct (write_file w1 _ f) as [w2|] eqn:Hwr; [|reflexivity].
    cbn [snd]. rewrite (write_file_system _ _ _ _ Hwr).
    exact (remove_file_system _ _ _ Hrm).
  - reflexivity.
  - exact (write_file_system _ _ _ _ Hwr0).
Qed.

(** A move that raises changes nothing but, at most, the destination. *)
Lemma shutil_move_raise_frame (fault : move_fault) (w : world)
  (src dst q : Path) (e : exn) :
  fst (shutil_move fault w src dst) = Raise e ->
  away_from (system w) src dst q ->
  read_file (snd (shutil_move fault w src dst)) q = read_file w q.
Proof.
  intros Hraise Haway.
  pose proof (away_from_real_dst w _ _ _ _ Haway) as Hrd.
  unfold shutil_move in *.
  destruct (is_dir w dst && _); [reflexivity|].
  destruct (read_file w src) as [f|]; [|reflexivity].
  destruct (write_file w _ f) as [w'|] eqn:Hwr0; [|reflexivity].
  destruct fault.
  - destruct (remove_file w src) as [w1|]; [|reflexivity].
    destruct (write_file w1 _ f); [discriminate | reflexivity].
  - reflexivity.
  - exact (write_elsewhere _ _ _ _ _ Hwr0 Hrd).
Qed.

(** A move changes nothing but the source and the destination. *)
Lemma shutil_move_frame (fault : move_fault) (w : world) (src dst q : Path) :
  PathOps.eqb (system w) src q = false ->
  away_from (system w) src dst q ->
  read_file (snd (shutil_move fault w src dst)) q = read_file w q.
Proof.
  intros Hsrc Haway.
  pose proof (away_from_real_dst w _ _ _ _ Haway) as Hrd.
  unfold shutil_move.
  destruct (is_dir w dst && _); [reflexivity|].
  destruct (read_file w src) as [f|]; [|reflexivity].
  destruct (write_file w _ f) as [w'|] eqn:Hwr0; [|reflexivity].
  destruct fault.
  - destruct (remove_file w src) as [w1|] eqn:Hrm; [|reflexivity].
    destruct (write_file w1 _ f) as [w2|] eqn:Hwr; [|reflexivity].
    cbn [snd].
    rewrite (write_elsewhere _ _ _ q _ Hwr);
      [|now rewrite (remove_file_system _ _ _ Hrm)].
    exact (remove_elsewhere _ _ _ _ Hrm Hsrc).
  - reflexivity.
  - exact (write_elsewhere _ _ _ _ _ Hwr0 Hrd).
Qed.

Lemma shutil_copy2_system (fault : bool) (w : world) (src dst : Path) :
  system (snd (shutil_copy2 fault w src dst)) = system w.
Proof.
  unfold shutil_copy2.
  destruct (read_file w src) as [f|]; [|reflexivity].
  destruct (PathOps.eqb _ _ _); [reflexivity|].
  destruct (write_file w _ f) as [w'|] eqn:Hwr; [|reflexivity].
  destruct fault; [reflexivity|].
  exact (write_file_system _ _ _ _ Hwr).
Qed.

Lemma shutil_copy2_frame (fault : bool) (w : world) (src dst q : Path) :
  away_from (system w) src dst q ->
  read_file (snd (shutil_copy2 fault w src dst)) q = read_file w q.
Proof.
  intros Haway.
  pose proof (away_from_real_dst w _ _ _ _ Haway) as Hrd.
  unfold shutil_copy2.
  destruct (read_file w src) as [f|]; [|reflexivity].
  destruct (PathOps.eqb _ src _); [reflexivity|].
  destruct (write_file w _ f) as [w'|] eqn:Hwr; [|reflexivity].
  destruct fault; [reflexivity|].
  exact (write_elsewhere _ _ _ _ _ Hwr Hrd).
Qed.

Lemma unlink_frame (fault : bool) (w : world) (src q : Path) :
  PathOps.eqb (system w) src q = false ->
  read_file (snd (unlink fault w src)) q = read_file w q.
Proof.
  intros Hsrc. unfold unlink. destruct fault; [reflexivity|].
  destruct (remove_file w src) as [w'|] eqn:Hrm; [|reflexivity].
  exact (remove_elsewhere _ _ _ _ Hrm Hsrc).
Qed.

Lemma finish_trace (w : world) (env : environ)
  (repo_root data_dir src dst : Path) (tr : list event) :
  exists printed,
    trace (finish w env repo_root data_dir src dst tr)
    = tr ++ map Print printed.
Proof. now destruct (finish_spec w env repo_root data_dir src dst tr) as [_ [H _]]. Qed.

Lemma finish_final (w : world) (env : environ)
  (repo_root data_dir src dst : Path) (tr : list event) :
  final (finish w env repo_root data_dir src dst tr) = w.
Proof. now destruct (finish_spec w env repo_root data_dir src dst tr) as [H _]. Qed.

(** A run that has its file in place returns the destination, or
    raises what a [print] of the report raised. *)
Lemma finish_outcome (w : world) (env : environ)
  (repo_root data_dir src dst : Path) (tr : list event) :
  outcome (finish w env repo_root data_dir src dst tr) = Ok dst \/
  exists fl line,
    outcome (finish w env repo_root data_dir src dst tr) = Raise (raised fl) /\
    stdout env line = Some fl.
Proof.
  destruct (finish_spec w env repo_root data_dir src dst tr)
    as [_ [_ [[H _] | [fl [l [H [_ Hl]]]]]]]; [now left | right; eauto].
Qed.

Lemma move_into_trace (w : world) (env : environ)
  (repo_root data_dir src dst : Path) (tr : list event) :
  exists failed rest,
    trace (move_into w env repo_root data_dir src dst tr)
    = tr ++ Move src dst failed :: rest.
Proof.
  unfold move_into.
  destruct (shutil_move _ _ _ _) as [[[]|e] w1].
  - destruct (finish_trace w1 env repo_root data_dir src dst
                (tr ++ [Move src dst false])) as [printed ->].
    rewrite <- app_assoc. cbn [app]. eauto.
  - destruct (shutil_copy2 _ _ _ _) as [[[]|e2] w2]; [|cbn; eauto].
    destruct (unlink _ _ _) as [[[]|e3] w3];
      match goal with
      | |- context [finish ?a ?b ?c ?d ?e ?f ?g] =>
          destruct (finish_trace a b c d e f g) as [printed ->]
      end; rewrite <- app_assoc; cbn [app]; eauto.
Qed.

(** The moves a run records are those of its one call of [move_into]. *)
Lemma move_into_moves (w : world) (env : environ)
  (repo_root data_dir src dst : Path) (tr : list event)
  (src' dst' : Path) (failed : bool) :
  In (Move src' dst' failed)
     (trace (move_into w env repo_root data_dir src dst tr)) ->
  In (Move src' dst' failed) tr \/ (src' = src /\ dst' = dst).
Proof.
  assert (Hfin : forall w' failed' more,
    (forall ev, In ev more -> ev = Copy src dst false \/
                              exists b, ev = Unlink src b) ->
    In (Move src' dst' failed)
       (trace (finish w' env repo_root data_dir src dst
                 (tr ++ Move src dst failed' :: more))) ->
    In (Move src' dst' failed) tr \/ (src' = src /\ dst' = dst)).
  { intros w' failed' more Hmore.
    destruct (finish_trace w' env repo_root data_dir src dst
                (tr ++ Move src dst failed' :: more)) as [printed ->].
    intros Hin. apply in_app_or in Hin as [Hin | Hin].
    - apply in_app_or in Hin as [Hin | [Hin | Hin]]; [now left | |].
      + injection Hin as <- <- _. now right.
      + destruct (Hmore _ Hin) as [H | [b H]]; discriminate H.
    - apply in_map_iff in Hin as [l [Hl _]]. discriminate Hl. }
  unfold move_into.
  destruct (shutil_move _ _ _ _) as [[[]|e] w1].
  - apply (Hfin w1 false []). contradiction.
  - destruct (shutil_copy2 _ _ _ _) as [[[]|e2] w2].
    + destruct (unlink _ _ _) as [[[]|e3] w3].
      * apply (Hfin w3 true [Copy src dst false; Unlink src false]).
        intros ev [<- | [<- | []]]; eauto.
      * apply (Hfin w3 true [Copy src dst false; Unlink src true]).
        intros ev [<- | [<- | []]]; eauto.
    + cbn [trace]. intros Hin. apply in_app_or in Hin as [Hin | Hin];
        [now left|].
      destruct Hin as [Hin | [Hin | []]]; [|discriminate Hin].
      injection Hin as <- <- _. now right.
Qed.

Lemma move_into_frame (w : world) (env : environ)
  (repo_root data_dir src dst : Path) (tr : list event) (q : Path) :
  PathOps.eqb (system w) src q = false ->
  away_from (system w) src dst q ->
  read_file (final (move_into w env repo_root data_dir src dst tr)) q
  = read_file w q.
Proof.
  intros Hsrc Haway. unfold move_into.
  pose proof (shutil_move_frame (move_faults env) w src dst q Hsrc Haway)
    as Hm.
  pose proof (shutil_move_system (move_faults env) w src dst) as Hs1.
  destruct (shutil_move (move_faults env) w src dst) as [[[]|e] w1];
    cbn [snd] in Hm, Hs1; [now rewrite finish_final|].
  rewrite <- Hs1 in Hsrc, Haway.
  pose proof (shutil_copy2_frame (copy_fault env) w1 src dst q Haway) as Hc.
  pose proof (shutil_copy2_system (copy_fault env) w1 src dst) as Hs2.
  destruct (shutil_copy2 (copy_fault env) w1 src dst) as [[[]|e2] w2];
    cbn [snd] in Hc, Hs2; [|cbn; congruence].
  rewrite <- Hs2 in Hsrc.
  pose proof (unlink_frame (unlink_fault env) w2 src q Hsrc) as Hu.
  destruct (unlink (unlink_fault env) w2 src) as [[[]|e3] w3];
    cbn [snd] in Hu; rewrite finish_final; congruence.
Qed.

(** What [move_into] does with a source that can be read: the file is
    put in place, and the run then returns the destination or raises
    what a [print] raised; or the move and the copy have both failed,
    the run raises, and nothing has changed but, at most, the
    destination. *)
Lemma move_into_spec (w : world) (env : environ)
  (repo_root data_dir src dst : Path) (tr : list event)
  (f : Z * list byte) :
  read_file w src = Some f ->
  let r := move_into w env repo_root data_dir src dst tr in
  (exists place,
     (place = dst \/ place = child dst (name src)) /\
     read_file (final r) place = Some f /\
     (outcome r = Ok dst \/
      exists fl line,
        outcome r = Raise (raised fl) /\ stdout env line = Some fl)) \/
  (exists e,
     outcome r = Raise e /\
     forall q, away_from (system w) src dst q ->
               read_file (final r) q = read_file w q).
Proof.
  intros Hread. cbv zeta. unfold move_into.
  pose proof (shutil_move_keeps_source (move_faults env) w src dst) as Hkeep.
  pose proof (shutil_move_system (move_faults env) w src dst) as Hs1.
  pose proof (shutil_move_raise_frame (move_faults env) w src dst) as Hfr.
  destruct (shutil_move (move_faults env) w src dst) as [[[]|e1] w1] eqn:Hm.
  - (* the move returned *)
    left. exists (real_dst w src dst). split; [apply real_dst_cases|].
    rewrite finish_final. split; [|apply finish_outcome].
    unfold shutil_move in Hm. rewrite Hread in Hm.
    destruct (is_dir w dst && _); [discriminate|].
    destruct (write_file w (real_dst w src dst) f); [|discriminate].
    destruct (move_faults env); try discriminate.
    destruct (remove_file w src) as [wa|]; [|discriminate].
    destruct (write_file wa (real_dst w src dst) f) as [wb|] eqn:Hwr;
      [|discriminate].
    injection Hm as <-. exact (write_then_read _ _ _ _ Hwr).
  - (* the fall-back *)
    specialize (Hkeep e1 f eq_refl Hread). cbn [snd] in Hkeep, Hs1.
    specialize (Hfr). cbn [fst snd] in Hfr.
    pose proof (shutil_copy2_raise_same (copy_fault env) w1 src dst) as Hcr.
    destruct (shutil_copy2 (copy_fault env) w1 src dst) as [[[]|e2] w2]
      eqn:Hc.
    2:{ right. exists e2. split; [reflexivity|].
        intros q Haway. cbn [final].
        pose proof (Hcr e2 eq_refl) as Hw. cbn [snd] in Hw. subst w2.
        exact (Hfr q e1 eq_refl Haway). }
    left.
    unfold shutil_copy2 in Hc. rewrite Hkeep in Hc.
    destruct (PathOps.eqb (system w1) src (real_dst w1 src dst)) eqn:Hneq;
      [discriminate|].
    destruct (write_file w1 (real_dst w1 src dst) f) as [w2'|] eqn:Hwr;
      [|discriminate].
    destruct (copy_fault env); [discriminate|].
    injection Hc as <-.
    pose proof (write_then_read _ _ _ _ Hwr) as Hdst.
    pose proof (write_file_system _ _ _ _ Hwr) as Hs2.
    exists (real_dst w1 src dst). split; [apply real_dst_cases|].
    rewrite <- Hs2 in Hneq.
    pose proof (unlink_frame (unlink_fault env) w2' src _ Hneq) as Hu.
    destruct (unlink (unlink_fault env) w2' src) as [[[]|e3] w3];
      cbn [snd] in Hu; rewrite finish_final;
      (split; [congruence | apply finish_outcome]).
Qed.

(** The run from the destination on: its moves, and what it changes. *)
Lemma deliver_moves (w : world) (env : environ)
  (repo_root data_dir src : Path) (name : string) (tr : list event)
  (src' dst' : Path) (failed : bool) :
  In (Move src' dst' failed)
     (trace (deliver w env repo_root data_dir src name tr)) ->
  In (Move src' dst' failed) tr \/
  (src' = src /\ place w env data_dir name = inr dst').
Proof.
  unfold deliver. destruct (place w env data_dir name) as [fl|dst].
  - cbn [trace]. intros Hin. apply in_app_or in Hin as [Hin | [Hin | []]];
      [now left | discriminate Hin].
  - intros Hin. apply move_into_moves in Hin as [Hin | [-> ->]]; auto.
Qed.

Lemma deliver_moved (w : world) (env : environ)
  (repo_root data_dir src : Path) (name : string) (tr : list event)
  (dst : Path) :
  place w env data_dir name = inr dst ->
  exists failed,
    In (Move src dst failed)
       (trace (deliver w env repo_root data_dir src name tr)).
Proof.
  intros Hp. unfold deliver. rewrite Hp.
  destruct (move_into_trace w env repo_root data_dir src dst tr)
    as [failed [rest ->]].
  exists failed. apply in_elt.
Qed.

(** X12.  A run changes no file other than the one it moves and the
    place it moves it to: whatever path differs from the source, from
    the destination and from the source's name inside the destination
    reads after the run as it did before. (A run that moves nothing
    changes no file at all.) *)
Theorem collect_csv_leaves_other_files :
  forall (w : world) (env : environ) (patterns : option (list string))
         (keep_timestamped : bool) (fixed_name : string)
         (recent_minutes : Z) (deep : bool) (q : Path),
  let r := collect_csv w env patterns keep_timestamped fixed_name
                       recent_minutes deep in
  (forall src dst failed,
     In (Move src dst failed) (trace r) ->
     PathOps.eqb (system w) src q = false /\
     away_from (system w) src dst q) ->
  read_file (final r) q = read_file w q.
Proof.
  intros w env patterns keep_timestamped fixed_name recent_minutes deep q.
  cbv zeta. intros Hq.
  pose proof (mkdir_p_read (mkdir_fault env) w (data_dir_of w env) q) as Hmk.
  pose proof (mkdir_p_system (mkdir_fault env) w (data_dir_of w env)) as Hsys.
  assert (Hmove : forall src name tr,
    collect_csv w env patterns keep_timestamped fixed_name recent_minutes deep
    = deliver (snd (mkdir_p (mkdir_fault env) w (data_dir_of w env))) env
        (_guess_repo_root w (script_dir env)) (data_dir_of w env) src name tr ->
    read_file (final (collect_csv w env patterns keep_timestamped fixed_name
                        recent_minutes deep)) q = read_file w q).
  { intros src name tr Hr. rewrite Hr in Hq |- *.
    pose proof (deliver_moved
                  (snd (mkdir_p (mkdir_fault env) w (data_dir_of w env))) env
                  (_guess_repo_root w (script_dir env)) (data_dir_of w env)
                  src name tr) as Hmoved.
    unfold deliver in *.
    destruct (place _ env (data_dir_of w env) name) as [fl|dst];
      [exact Hmk|].
    destruct (Hmoved dst eq_refl) as [failed Hin].
    destruct (Hq src dst failed Hin) as [Hsrc Haway].
    rewrite move_into_frame; [exact Hmk | |]; now rewrite Hsys. }
  destruct (collect_csv_steps w env patterns keep_timestamped fixed_name
              recent_minutes deep)
    as [[e [_ Hr]] | [_ [shallow [_ Hcases]]]].
  - rewrite Hr. exact Hmk.
  - destruct Hcases
      as [[_ [_ Hr]]
         | [[src [rest [_ Hr]]]
           | [_ [_ [found [_ [[_ Hr] | [src [rest [_ Hr]]]]]]]]]].
    + rewrite Hr. exact Hmk.
    + exact (Hmove _ _ _ Hr).
    + rewrite Hr. exact Hmk.
    + exact (Hmove _ _ _ Hr).
Qed.

(** X13.  A run that raises has lost nothing.  Either every file reads
    afterwards as it did before, the source included, except at most
    the destination (or the source's name inside it), which a move that
    failed half-way may have written; or the file had been put in place
    already and the exception is that of a [print] of the report: the
    bytes and the time stamp of the source are then at the
    destination. *)
Theorem collect_csv_failure_keeps_files :
  forall (w : world) (env : environ) (patterns : option (list string))
         (keep_timestamped : bool) (fixed_name : string)
         (recent_minutes : Z) (deep : bool) (e : exn),
  let r := collect_csv w env patterns keep_timestamped fixed_name
                       recent_minutes deep in
  outcome r = Raise e ->
  (forall q,
     (forall src dst failed,
        In (Move src dst failed) (trace r) ->
        away_from (system w) src dst q) ->
     read_file (final r) q = read_file w q) \/
  (exists src dst failed f place fl line,
     In (Move src dst failed) (trace r) /\
     read_file w src = Some f /\
     (place = dst \/ place = child dst (name src)) /\
     read_file (final r) place = Some f /\
     stdout env line = Some fl /\ e = raised fl).
Proof.
  intros w env patterns keep_timestamped fixed_name recent_minutes deep e.
  cbv zeta. intros Hout.
  pose proof (mkdir_p_read (mkdir_fault env) w (data_dir_of w env)) as Hmk.
  pose proof (mkdir_p_system (mkdir_fault env) w (data_dir_of w env)) as Hsys.
  set (w1 := snd (mkdir_p (mkdir_fault env) w (data_dir_of w env))) in *.
  assert (Hmove : forall src nm tr found now dirs dp,
    _recent_files w1 now dirs (effective_patterns patterns) recent_minutes dp
    = Ok found ->
    In src found ->
    collect_csv w env patterns keep_timestamped fixed_name recent_minutes deep
    = deliver w1 env (_guess_repo_root w (script_dir env))
              (data_dir_of w env) src nm tr ->
    (forall q,
       (forall src dst failed,
          In (Move src dst failed)
             (trace (collect_csv w env patterns keep_timestamped fixed_name
                       recent_minutes deep)) ->
          away_from (system w) src dst q) ->
       read_file (final (collect_csv w env patterns keep_timestamped
                           fixed_name recent_minutes deep)) q
       = read_file w q) \/
    (exists src dst failed f place fl line,
       In (Move src dst failed)
          (trace (collect_csv w env patterns keep_timestamped fixed_name
                    recent_minutes deep)) /\
       read_file w src = Some f /\
       (place = dst \/ place = child dst (name src)) /\
       read_file (final (collect_csv w env patterns keep_timestamped
                           fixed_name recent_minutes deep)) place = Some f /\
       stdout env line = Some fl /\ e = raised fl)).
  { intros src nm tr found now dirs dp Hfound Hin Hr.
    destruct (recent_files_readable _ _ _ _ _ _ _ Hfound src Hin)
      as [f Hread].
    rewrite Hr in Hout |- *.
    pose proof (deliver_moved w1 env (_guess_repo_root w (script_dir env))
                  (data_dir_of w env) src nm tr) as Hmoved.
    unfold deliver in *.
    destruct (place w1 env (data_dir_of w env) nm) as [fl|dst].
    { left. intros q _. cbn [final]. apply Hmk. }
    destruct (Hmoved dst eq_refl) as [failed Hmv].
    destruct (move_into_spec w1 env (_guess_repo_root w (script_dir env))
                (data_dir_of w env) src dst tr f Hread)
      as [[place [Hplace [Hdst Hcases]]] | [e' [_ Hframe]]].
    - right. destruct Hcases as [Hok | [fl [line [Hraise Hline]]]];
        [congruence|].
      exists src, dst, failed, f, place, fl, line.
      split; [exact Hmv|]. split; [now rewrite <- Hmk|].
      split; [exact Hplace|]. split; [exact Hdst|].
      split; [exact Hline | congruence].
    - left. intros q Hq. rewrite Hframe; [apply Hmk|].
      fold w1 in Hsys. rewrite Hsys. exact (Hq src dst failed Hmv). }
  destruct (collect_csv_steps w env patterns keep_timestamped fixed_name
              recent_minutes deep)
    as [[e' [_ Hr]] | [_ [shallow [Hs Hcases]]]].
  - left. intros q _. rewrite Hr. apply Hmk.
  - fold w1 in Hs, Hcases. destruct Hcases
      as [[_ [_ Hr]]
         | [[src [rest [Hsh Hr]]]
           | [_ [_ [found [Hf [[_ Hr] | [src [rest [Hfd Hr]]]]]]]]]].
    + left. intros q _. rewrite Hr. apply Hmk.
    + eapply (Hmove src); [exact Hs | rewrite Hsh; now left | exact Hr].
    + left. intros q _. rewrite Hr. apply Hmk.
    + eapply (Hmove src); [exact Hf | rewrite Hfd; now left | exact Hr].
Qed.

(** X14.  A run that returns has delivered the file: the path returned
    is the destination of the move recorded, the source of that move was
    a file of the tree the run started from, and its bytes and time
    stamp are afterwards at the destination (or under the source's name
    inside it, when the destination is a directory). *)
Theorem collect_csv_success_delivers :
  forall (w : world) (env : environ) (patterns : option (list string))
         (keep_timestamped : bool) (fixed_name : string)
         (recent_minutes : Z) (deep : bool) (d : Path),
  let r := collect_csv w env patterns keep_timestamped fixed_name
                       recent_minutes deep in
  outcome r = Ok d ->
  exists src failed f place,
    In (Move src d failed) (trace r) /\
    read_file w src = Some f /\
    (place = d \/ place = child d (name src)) /\
    read_file (final r) place = Some f.
Proof.
  intros w env patterns keep_timestamped fixed_name recent_minutes deep d.
  cbv zeta. intros Hout.
  set (w1 := snd (mkdir_p (mkdir_fault env) w (data_dir_of w env))) in *.
  assert (Hmove : forall src nm tr found now dirs dp,
    _recent_files w1 now dirs (effective_patterns patterns) recent_minutes dp
    = Ok found ->
    In src found ->
    collect_csv w env patterns keep_timestamped fixed_name recent_minutes deep
    = deliver w1 env (_guess_repo_root w (script_dir env))
              (data_dir_of w env) src nm tr ->
    exists src failed f place,
      In (Move src d failed)
         (trace (collect_csv w env patterns keep_timestamped fixed_name
                   recent_minutes deep)) /\
      read_file w src = Some f /\
      (place = d \/ place = child d (name src)) /\
      read_file (final (collect_csv w env patterns keep_timestamped
                          fixed_name recent_minutes deep)) place = Some f).
  { intros src nm tr found now dirs dp Hfound Hin Hr.
    destruct (recent_files_readable _ _ _ _ _ _ _ Hfound src Hin)
      as [f Hread].
    rewrite Hr in Hout |- *.
    pose proof (deliver_moved w1 env (_guess_repo_root w (script_dir env))
                  (data_dir_of w env) src nm tr) as Hmoved.
    unfold deliver in *.
    destruct (place w1 env (data_dir_of w env) nm) as [fl|dst];
      [discriminate|].
    destruct (Hmoved dst eq_refl) as [failed Hmv].
    destruct (move_into_spec w1 env (_guess_repo_root w (script_dir env))
                (data_dir_of w env) src dst tr f Hread)
      as [[place [Hplace [Hdst Hcases]]] | [e' [Hraise _]]];
      [|congruence].
    destruct Hcases as [Hok | [fl [line [Hraise _]]]]; [|congruence].
    assert (d = dst) by congruence. subst d.
    exists src, failed, f, place.
    split; [exact Hmv|].
    split; [now rewrite <- (mkdir_p_read (mkdir_fault env) w
                              (data_dir_of w env))|].
    split; assumption. }
  destruct (collect_csv_steps w env patterns keep_timestamped fixed_name
              recent_minutes deep)
    as [[e' [_ Hr]] | [_ [shallow [Hs Hcases]]]].
  - rewrite Hr in Hout. discriminate.
  - fold w1 in Hs, Hcases. destruct Hcases
      as [[_ [_ Hr]]
         | [[src [rest [Hsh Hr]]]
           | [_ [_ [found [Hf [[_ Hr] | [src [rest [Hfd Hr]]]]]]]]]].
    + rewrite Hr in Hout. discriminate.
    + eapply (Hmove src); [exact Hs | rewrite Hsh; now left | exact Hr].
    + rewrite Hr in Hout. discriminate.
    + eapply (Hmove src); [exact Hf | rewrite Hfd; now left | exact Hr].
Qed.

(** ** The command line of the collector *)

(** X15.  A pattern without a component ([--pattern ""], say) given
    first on the command line is placed before the defaults and stops
    every search: whatever the files, the process ends with status 1 and
    nothing is moved. *)
Theorem cli_rejected_pattern_finds_nothing :
  forall (w : world) (env : environ) (a : Cli.args) (p : string)
         (more : list string),
  Cli.pattern a = Some (p :: more) ->
  Glob.anchored (system w) p = false ->
  Glob.pattern_parts (system w) p = [] ->
  Cli.exit_status (Cli.main w env a) = 1%Z /\
  (forall src dst failed,
     ~ In (Move src dst failed) (trace (Cli.main w env a))) /\
  (forall q, read_file (final (Cli.main w env a)) q = read_file w q).
Proof.
  intros w env a p more Hpat Ha Hp.
  unfold Cli.exit_status, Cli.main, Cli.pats. rewrite Hpat.
  pose proof (mkdir_p_system (mkdir_fault env) w (data_dir_of w env)) as Hsys.
  pose proof (mkdir_p_read (mkdir_fault env) w (data_dir_of w env)) as Hread.
  assert (Hnone : forall now dirs dp found,
    _recent_files (snd (mkdir_p (mkdir_fault env) w (data_dir_of w env)))
      now dirs
      (effective_patterns (Some ((p :: more) ++ DEFAULT_PATTERNS)))
      (Cli.minutes a) dp = Ok found -> found = []).
  { intros now dirs dp found. cbn [effective_patterns app].
    rewrite recent_files_rejected by (rewrite Hsys; assumption).
    now intros [= <-]. }
  destruct (collect_csv_steps w env (Some ((p :: more) ++ DEFAULT_PATTERNS))
              (negb (Cli.no_timestamp a)) (Cli.fixed_name a)
              (Cli.minutes a) (Cli.deep a))
    as [[e [_ Hr]] | [_ [shallow [Hs Hcases]]]].
  - rewrite Hr. cbn. repeat split; auto.
  - destruct Hcases
      as [[_ [_ Hr]]
         | [[src [rest [Hsh _]]]
           | [_ [_ [found [Hf [[_ Hr] | [src [rest [Hfd _]]]]]]]]]].
    + rewrite Hr. cbn. split; [reflexivity|]. split; [|exact Hread].
      intros src dst failed [H | [H | []]]; discriminate H.
    + apply Hnone in Hs. rewrite Hs in Hsh. discriminate Hsh.
    + rewrite Hr. cbn. split; [reflexivity|]. split; [|exact Hread].
      intros src dst failed [H | [H | [H | []]]]; discriminate H.
    + apply Hnone in Hf. rewrite Hf in Hfd. discriminate Hfd.
Qed.

(** [--pattern ""] with a fresh download in place. *)
Lemma cli_rejected_pattern_finds_nothing_witness :
  Cli.exit_status
    (Cli.main Sample.fresh (Sample.env MoveWorks false false)
       {| Cli.no_timestamp := false; Cli.fixed_name := "nse_sgb_data.csv";
          Cli.minutes := 180; Cli.pattern := Some [""]; Cli.deep := true |})
  = 1%Z.
Proof.
  apply (cli_rejected_pattern_finds_nothing
           Sample.fresh (Sample.env MoveWorks false false) _ "" []);
    reflexivity.
Defined.

(** ** [runner.py] *)

Lemma run_all_spec (s : Runner.setting) (cmds : list (list string)) :
  forall ran0 printed0,
  exists done rest,
    cmds = done ++ rest /\
    Runner.ran (Runner.run_all s cmds ran0 printed0) = ran0 ++ done /\
    ((Runner.ended (Runner.run_all s cmds ran0 printed0) = Runner.Done /\
      rest = [] /\
      Forall (fun c => Runner.returncode s c = 0%Z) done) \/
     (exists before cmd,
        done = before ++ [cmd] /\
        Forall (fun c => Runner.returncode s c = 0%Z) before /\
        Runner.returncode s cmd <> 0%Z /\
        Runner.ended (Runner.run_all s cmds ran0 printed0)
        = Runner.SystemExit
            (Runner.failed_message (Runner.returncode s cmd) cmd))).
Proof.
  induction cmds as [|cmd cmds IH]; intros ran0 printed0;
    cbn [Runner.run_all].
  - exists [], []. cbn. rewrite app_nil_r. split; [reflexivity|].
    split; [reflexivity|]. left. repeat split. constructor.
  - unfold Runner.run_cmd.
    destruct (Z.eqb (Runner.returncode s cmd) 0) eqn:Hrc.
    + apply Z.eqb_eq in Hrc.
      destruct (IH (ran0 ++ [cmd])
                   (printed0 ++ [Runner.running_line cmd]))
        as [done [rest [Hcmds [Hran Hend]]]].
      exists (cmd :: done), rest.
      split; [now rewrite Hcmds|].
      split; [now rewrite Hran, <- app_assoc|].
      destruct Hend as [[Hd [Hr Hall]] | [before [c [Hdone [Hall [Hc He]]]]]].
      * left. repeat split; auto.
      * right. exists (cmd :: before), c.
        split; [now rewrite Hdone|]. split; [now constructor|].
        split; assumption.
    + apply Z.eqb_neq in Hrc.
      exists [cmd], cmds. cbn. split; [reflexivity|]. split; [reflexivity|].
      right. exists [], cmd. repeat split; auto.
Qed.

(** X16.  The runner runs its three commands in order and stops at the
    first that returns a status other than 0: the commands run are the
    start of the list; either all were run, all returned 0 and the
    runner ends normally, or the last one run is the first to have
    failed and the runner exits with a message that gives its status and
    its words. So the collector runs only after [download_nse_sgb.py]
    returned 0, and the BSE download only after both. *)
Theorem runner_stops_at_first_failure :
  forall (s : Runner.setting),
  exists rest,
    Runner.CMDS s = Runner.ran (Runner.main s) ++ rest /\
    ((Runner.ended (Runner.main s) = Runner.Done /\
      rest = [] /\
      Forall (fun c => Runner.returncode s c = 0%Z) (Runner.CMDS s)) \/
     (exists before cmd,
        Runner.ran (Runner.main s) = before ++ [cmd] /\
        Forall (fun c => Runner.returncode s c = 0%Z) before /\
        Runner.returncode s cmd <> 0%Z /\
        Runner.ended (Runner.main s)
        = Runner.SystemExit
            (" Command failed (" ++ str_of_int (Runner.returncode s cmd)
             ++ "): " ++ Str.join " " cmd)%string)).
Proof.
  intros s. unfold Runner.main.
  destruct (run_all_spec s (Runner.CMDS s) []
              [("[runner] repo root: "
                ++ str (Runner.flavour s) (Runner.REPO_ROOT s))%string;
               ("[runner] python   : " ++ Runner.PY s)%string])
    as [done [rest [Hcmds [Hran Hend]]]].
  cbn [app] in Hran. rewrite Hran.
  exists rest. split; [exact Hcmds|].
  destruct Hend as [[Hd [-> Hall]] | [before [c [Hdone [Hall [Hc He]]]]]].
  - left. rewrite app_nil_r in Hcmds.
    split; [exact Hd|]. split; [reflexivity|]. rewrite Hcmds. exact Hall.
  - right. exists before, c.
    split; [exact Hdone|]. split; [exact Hall|]. split; [exact Hc | exact He].
Qed.

(** ** [download_bse_bhavcopy.py] *)

Lemma find_loop_found (s : Bhavcopy.site) (mb : Z) (n : nat) :
  forall attempt d log d' t,
    fst (Bhavcopy.find_loop s mb attempt n d log) = Some (Ok (d', t)) ->
    (d - Z.of_nat n < d' <= d)%Z /\
    Bhavcopy.fetch_csv s (Bhavcopy.bse_csv_url_for s d') = Ok (Some t) /\
    t <> "" /\
    (forall x, (d' < x <= d)%Z -> no_csv s x).
Proof.
  induction n as [|n IH]; intros attempt d log d' t;
    cbn [Bhavcopy.find_loop fst]; [discriminate|].
  destruct (Bhavcopy.stdout s (Bhavcopy.Trying attempt mb d _));
    [discriminate|].
  destruct (Bhavcopy.fetch_csv s (Bhavcopy.bse_csv_url_for s d))
    as [[[|c r]|]|e] eqn:Hfetch; cbn [fst].
  - destruct (d - 1 <? Bhavcopy.MINORDINAL)%Z; [discriminate|].
    intros H. destruct (IH _ _ _ _ _ H) as [Hd [Hf [Ht Hno]]].
    split; [lia|]. split; [exact Hf|]. split; [exact Ht|].
    intros x Hx. destruct (Z.eq_dec x d) as [-> | Hne];
      [right; exact Hfetch | apply Hno; lia].
  - destruct (Bhavcopy.stdout s (Bhavcopy.Found d)); [discriminate|].
    intros [= <- <-]. split; [lia|]. split; [exact Hfetch|].
    split; [discriminate|]. intros x Hx. lia.
  - destruct (d - 1 <? Bhavcopy.MINORDINAL)%Z; [discriminate|].
    intros H. destruct (IH _ _ _ _ _ H) as [Hd [Hf [Ht Hno]]].
    split; [lia|]. split; [exact Hf|]. split; [exact Ht|].
    intros x Hx. destruct (Z.eq_dec x d) as [-> | Hne];
      [left; exact Hfetch | apply Hno; lia].
  - discriminate.
Qed.

Lemma fetch_csv_some (s : Bhavcopy.site) (url t : string) :
  Bhavcopy.fetch_csv s url = Ok (Some t) ->
  exists r,
    Bhavcopy.http_get s url = Ok r /\
    Bhavcopy.status_code r = 200%Z /\
    Bhavcopy.text r = t /\
    Bhavcopy.is_html_page t = false /\
    (forall c, Bhavcopy.content_type r = Some c ->
               Glob.has_sub "text/html" (Str.lower c) = false).
Proof.
  unfold Bhavcopy.fetch_csv.
  destruct (Bhavcopy.http_get s url) as [r|e]; cbn [bind]; [|discriminate].
  destruct (Z.eqb (Bhavcopy.status_code r) 200) eqn:Hst; cbn [negb];
    [|discriminate].
  destruct (Glob.has_sub "text/html" _ || _) eqn:Hhtml; [discriminate|].
  intros [= <-]. apply orb_false_iff in Hhtml as [Hc Hp].
  exists r. split; [reflexivity|]. split; [now apply Z.eqb_eq|].
  split; [reflexivity|]. split; [exact Hp|].
  intros c Hct. now rewrite Hct in Hc.
Qed.

(** X17.  When [find_latest_csv] returns a day and a text, the day is
    the most recent one, from the start date back to [max_back_days]
    days before it, for which the site has a CSV: the text is not empty,
    it is the body of an answer of status 200 that is not declared as
    HTML and does not begin as a page of HTML, and every later day up to
    the start date has none. *)
Theorem find_latest_csv_most_recent :
  forall (s : Bhavcopy.site) (start_date max_back_days d : Z) (t : string),
  fst (Bhavcopy.find_latest_csv s start_date max_back_days) = Ok (d, t) ->
  (start_date - max_back_days <= d <= start_date)%Z /\
  t <> "" /\
  (exists r,
     Bhavcopy.http_get s (Bhavcopy.bse_csv_url_for s d) = Ok r /\
     Bhavcopy.status_code r = 200%Z /\
     Bhavcopy.text r = t /\
     Bhavcopy.is_html_page t = false /\
     (forall c, Bhavcopy.content_type r = Some c ->
                Glob.has_sub "text/html" (Str.lower c) = false)) /\
  (forall x, (d < x <= start_date)%Z -> no_csv s x).
Proof.
  intros s start_date max_back_days d t. unfold Bhavcopy.find_latest_csv.
  destruct (Bhavcopy.find_loop s max_back_days 0
              (Z.to_nat (max_back_days + 1)) start_date [])
    as [[r|] log] eqn:Hloop; cbn [fst]; [|discriminate].
  intros ->.
  assert (Hf : fst (Bhavcopy.find_loop s max_back_days 0
                      (Z.to_nat (max_back_days + 1)) start_date [])
               = Some (Ok (d, t))) by now rewrite Hloop.
  apply find_loop_found in Hf as [Hd [Hfetch [Ht Hno]]].
  split; [lia|]. split; [exact Ht|].
  split; [exact (fetch_csv_some _ _ _ Hfetch) | exact Hno].
Qed.

(** One attempt that finds nothing, on a day that has a day before it. *)
Lemma find_loop_step (s : Bhavcopy.site) (mb : Z) (attempt n : nat) (d : Z)
  (log : list Bhavcopy.line) :
  (forall l, Bhavcopy.stdout s l = None) ->
  no_csv s d ->
  Bhavcopy.find_loop s mb attempt (S n) d log
  = if (d - 1 <? Bhavcopy.MINORDINAL)%Z
    then (Some (Raise (OverflowError "date value out of range")),
          log ++ [Bhavcopy.Trying attempt mb d (Bhavcopy.bse_csv_url_for s d)])
    else Bhavcopy.find_loop s mb (S attempt) n (d - 1)
           (log ++ [Bhavcopy.Trying attempt mb d
                      (Bhavcopy.bse_csv_url_for s d)]).
Proof.
  intros Hout Hno. cbn [Bhavcopy.find_loop]. rewrite Hout.
  destruct Hno as [-> | ->]; reflexivity.
Qed.

Lemma attempts_step (s : Bhavcopy.site) (start mb : Z) (attempt n : nat)
  (log : list Bhavcopy.line) :
  (log ++ [Bhavcopy.Trying attempt mb (start - Z.of_nat attempt)
             (Bhavcopy.bse_csv_url_for s (start - Z.of_nat attempt))])
    ++ attempts s start mb (S attempt) n
  = log ++ attempts s start mb attempt (S n).
Proof. unfold attempts. cbn [seq map]. now rewrite <- app_assoc. Qed.

Lemma find_loop_none (s : Bhavcopy.site) (start mb : Z) (n : nat) :
  forall attempt log,
    (forall l, Bhavcopy.stdout s l = None) ->
    (forall x, (start - Z.of_nat attempt - Z.of_nat n < x
                <= start - Z.of_nat attempt)%Z -> no_csv s x) ->
    (n = 0%nat \/ 1 <= start - Z.of_nat attempt - Z.of_nat n)%Z ->
    Bhavcopy.find_loop s mb attempt n (start - Z.of_nat attempt) log
    = (None, log ++ attempts s start mb attempt n).
Proof.
  induction n as [|n IH]; intros attempt log Hout Hno Hmin.
  - unfold attempts. cbn. now rewrite app_nil_r.
  - rewrite find_loop_step by (auto; apply Hno; lia).
    unfold Bhavcopy.MINORDINAL.
    destruct (Z.ltb_spec (start - Z.of_nat attempt - 1) 1) as [Hlt | Hge];
      [lia|].
    replace (start - Z.of_nat attempt - 1)%Z
      with (start - Z.of_nat (S attempt))%Z by lia.
    rewrite IH; [apply f_equal, attempts_step | exact Hout | | lia].
    intros x Hx. apply Hno. lia.
Qed.

Lemma find_loop_overflow (s : Bhavcopy.site) (start mb : Z) (n : nat) :
  forall attempt log,
    (forall l, Bhavcopy.stdout s l = None) ->
    (forall x, (1 <= x <= start - Z.of_nat attempt)%Z -> no_csv s x) ->
    (1 <= start - Z.of_nat attempt <= Z.of_nat n)%Z ->
    Bhavcopy.find_loop s mb attempt n (start - Z.of_nat attempt) log
    = (Some (Raise (OverflowError "date value out of range")),
       log ++ attempts s start mb attempt
                (Z.to_nat (start - Z.of_nat attempt))).
Proof.
  induction n as [|n IH]; intros attempt log Hout Hno Hd; [lia|].
  rewrite find_loop_step by (auto; apply Hno; lia).
  unfold Bhavcopy.MINORDINAL.
  destruct (Z.ltb_spec (start - Z.of_nat attempt - 1) 1) as [Hlt | Hge].
  - assert (Hone : Z.to_nat (start - Z.of_nat attempt) = 1%nat) by lia.
    rewrite Hone. unfold attempts. cbn [seq map]. reflexivity.
  - replace (start - Z.of_nat attempt - 1)%Z
      with (start - Z.of_nat (S attempt))%Z by lia.
    rewrite IH; [| exact Hout | intros x Hx; apply Hno; lia | lia].
    rewrite attempts_step. do 3 f_equal. lia.
Qed.

(** X18.  On a standard output that takes every line, when the site has
    no CSV for any day from the start date back to [max_back_days] days
    before it (or to the first day of the calendar), [find_latest_csv]
    gives up after one request per day, the start date first.  It then
    raises [FileNotFoundError], with the message that names
    [max_back_days] and the start date, provided the day before the
    last day tried is a day of the calendar (or [max_back_days] is
    negative: no request is then made); otherwise it raises
    [OverflowError], when it steps back from the first day of the
    calendar. *)
Theorem find_latest_csv_gives_up :
  forall (s : Bhavcopy.site) (start_date max_back_days : Z),
  (forall l, Bhavcopy.stdout s l = None) ->
  (forall x, (1 <= x)%Z ->
             (start_date - max_back_days <= x <= start_date)%Z ->
             no_csv s x) ->
  (1 <= start_date)%Z ->
  ((max_back_days < 0 \/ 1 < start_date - max_back_days)%Z ->
   Bhavcopy.find_latest_csv s start_date max_back_days
   = (Raise (FileNotFoundError
               ("No BSE CSV found within " ++ str_of_int max_back_days
                ++ " days back from " ++ Bhavcopy.iso s start_date ++ ".")),
      attempts s start_date max_back_days 0
               (Z.to_nat (max_back_days + 1)))) /\
  ((0 <= max_back_days)%Z -> (start_date - max_back_days <= 1)%Z ->
   Bhavcopy.find_latest_csv s start_date max_back_days
   = (Raise (OverflowError "date value out of range"),
      attempts s start_date max_back_days 0 (Z.to_nat start_date))).
Proof.
  intros s start_date max_back_days Hout Hno Hstart.
  unfold Bhavcopy.find_latest_csv. split.
  - intros Hcase.
    pose proof (find_loop_none s start_date max_back_days
                  (Z.to_nat (max_back_days + 1)) 0 []) as H.
    cbn [Z.of_nat] in H. rewrite Z.sub_0_r in H.
    rewrite H; [reflexivity | exact Hout | | lia].
    intros x Hx. apply Hno; lia.
  - intros Hmb Hlow.
    pose proof (find_loop_overflow s start_date max_back_days
                  (Z.to_nat (max_back_days + 1)) 0 []) as H.
    cbn [Z.of_nat] in H. rewrite Z.sub_0_r in H.
    rewrite H; [reflexivity | exact Hout | | lia].
    intros x Hx. apply Hno; lia.
Qed.

(** The sample site has a CSV two days before the start date. *)
Lemma find_latest_csv_most_recent_witness :
  no_csv SampleSite.up 739489 /\ no_csv SampleSite.up 739490.
Proof.
  destruct (find_latest_csv_most_recent SampleSite.up 739490 7 739488
              "FinInstrmId,ClsPric") as [_ [_ [_ H]]].
  - vm_compute. reflexivity.
  - split; apply H; lia.
Defined.

(** A site that answers every request with its error page: three days
    are tried from day 739490, and two from the second day of the
    calendar. *)
Lemma find_latest_csv_gives_up_witness :
  (fst (Bhavcopy.find_latest_csv SampleSite.down 739490 2)
   = Raise (FileNotFoundError
              "No BSE CSV found within 2 days back from 739490.") /\
   List.length (snd (Bhavcopy.find_latest_csv SampleSite.down 739490 2))
   = 3%nat) /\
  (fst (Bhavcopy.find_latest_csv SampleSite.down 2 7)
   = Raise (OverflowError "date value out of range") /\
   List.length (snd (Bhavcopy.find_latest_csv SampleSite.down 2 7))
   = 2%nat).
Proof.
  split.
  - destruct (find_latest_csv_gives_up SampleSite.down 739490 2) as [H _].
    + reflexivity.
    + intros x _ _. left. reflexivity.
    + lia.
    + rewrite H by lia. split; reflexivity.
  - destruct (find_latest_csv_gives_up SampleSite.down 2 7) as [_ H].
    + reflexivity.
    + intros x _ _. left. reflexivity.
    + lia.
    + rewrite H by lia. split; reflexivity.
Defined.

Lemma find_same {A : Type} (f g : A -> bool) (l : list A) :
  (forall x, f x = g x) -> find f l = find g l.
Proof.
  intros H. induction l as [|a l IH]; cbn [find]; [reflexivity|].
  now rewrite H, IH.
Qed.

(** X19.  [repo_paths] finds the root [_guess_repo_root] finds: when it
    returns, the root is the same, the data directory is
    [data/bse_bhavcopy_data] under it, beside the collector's
    [data/nse_sgb_data], it is a directory afterwards, and no file has
    changed. *)
Theorem repo_paths_same_root :
  forall (fault : bool) (w w' : world) (here root data_dir : Path),
  Bhavcopy.repo_paths fault w here = (Ok (root, data_dir), w') ->
  root = _guess_repo_root w here /\
  data_dir = child (child root "data") "bse_bhavcopy_data" /\
  is_dir w' data_dir = true /\
  (forall q, read_file w' q = read_file w q).
Proof.
  intros fault w w' here root data_dir. unfold Bhavcopy.repo_paths.
  assert (Hroot :
    match find (fun p => exists_ w (child p "data")
                         || exists_ w (child p ".git"))
               (here :: parents here) with
    | Some p => p
    | None => here
    end = _guess_repo_root w here).
  { unfold _guess_repo_root.
    rewrite (find_same
               (fun p => exists_ w (child p "data")
                         || exists_ w (child p ".git"))
               (fun p => exists_ w (child p ".git")
                         || exists_ w (child p "data")));
      [reflexivity|].
    intros x. apply orb_comm. }
  rewrite Hroot.
  pose proof (mkdir_p_read fault w
                (child (child (_guess_repo_root w here) "data")
                       "bse_bhavcopy_data")) as Hread.
  destruct (mkdir_p fault w _) as [[[]|e] w1] eqn:Hmk; [|discriminate].
  intros [= <- <- <-].
  split; [reflexivity|]. split; [reflexivity|].
  split; [exact (mkdir_p_is_dir _ _ _ _ Hmk) | exact Hread].
Qed.

Lemma repo_paths_same_root_witness :
  is_dir (snd (Bhavcopy.repo_paths false Sample.fresh
                 ["/"; "home"; "me"; "proj"; "src"]))
         ["/"; "home"; "me"; "proj"; "data"; "bse_bhavcopy_data"] = true.
Proof.
  apply (repo_paths_same_root false Sample.fresh _
           ["/"; "home"; "me"; "proj"; "src"]
           ["/"; "home"; "me"; "proj"]).
  vm_compute. reflexivity.
Defined.

(** ** The properties of [collect_csv] on the sample machine *)

(** The old download is left as it was when the new one is moved. *)
Lemma collect_csv_leaves_other_files_witness :
  read_file
    (final (collect_csv old_and_new (Sample.env MoveWorks false false)
              None true "nse_sgb_data.csv" 180 false))
    (Sample.downloads ++ ["MW-SGB-old.csv"])
  = read_file old_and_new (Sample.downloads ++ ["MW-SGB-old.csv"]).
Proof.
  apply (collect_csv_leaves_other_files
           old_and_new (Sample.env MoveWorks false false)
           None true "nse_sgb_data.csv" 180%Z false).
  intros src dst failed Hin. vm_compute in Hin.
  repeat (destruct Hin as [Hin | Hin]; try discriminate Hin);
    try contradiction.
  injection Hin as <- <- <-. vm_compute. auto.
Defined.

(** The move and the copy both fail, and then the report cannot be
    printed on a narrow standard output. *)
Lemma collect_csv_failure_keeps_files_witness :
  (let r := collect_csv Sample.fresh (Sample.env MoveFailsAfterCopy true false)
              None true "nse_sgb_data.csv" 180 false in
   (forall q,
      (forall src dst failed,
         In (Move src dst failed) (trace r) ->
         away_from (system Sample.fresh) src dst q) ->
      read_file (final r) q = read_file Sample.fresh q) \/
   (exists src dst failed f place fl line,
      In (Move src dst failed) (trace r) /\
      read_file Sample.fresh src = Some f /\
      (place = dst \/ place = child dst (name src)) /\
      read_file (final r) place = Some f /\
      stdout (Sample.env MoveFailsAfterCopy true false) line = Some fl /\
      OSError "copy2" = raised fl)) /\
  (let env := Sample.narrow (Sample.env MoveWorks false false) in
   let r := collect_csv Sample.fresh env
              None true "nse_sgb_data.csv" 180 false in
   (forall q,
      (forall src dst failed,
         In (Move src dst failed) (trace r) ->
         away_from (system Sample.fresh) src dst q) ->
      read_file (final r) q = read_file Sample.fresh q) \/
   (exists src dst failed f place fl line,
      In (Move src dst failed) (trace r) /\
      read_file Sample.fresh src = Some f /\
      (place = dst \/ place = child dst (name src)) /\
      read_file (final r) place = Some f /\
      stdout env line = Some fl /\
      UnicodeEncodeError "'charmap' codec can't encode character"
      = raised fl)).
Proof.
  split.
  - apply (collect_csv_failure_keeps_files
             Sample.fresh (Sample.env MoveFailsAfterCopy true false)
             None true "nse_sgb_data.csv" 180%Z false (OSError "copy2")).
    vm_compute. reflexivity.
  - apply (collect_csv_failure_keeps_files
             Sample.fresh (Sample.narrow (Sample.env MoveWorks false false))
             None true "nse_sgb_data.csv" 180%Z false
             (UnicodeEncodeError "'charmap' codec can't encode character")).
    vm_compute. reflexivity.
Defined.

(** The fresh download arrives in the data directory. *)
Lemma collect_csv_success_delivers_witness :
  exists src failed f place,
    In (Move src Sample.dst_stamped failed)
       (trace (collect_csv Sample.fresh (Sample.env MoveWorks false false)
                 None true "nse_sgb_data.csv" 180 false)) /\
    read_file Sample.fresh src = Some f /\
    (place = Sample.dst_stamped \/ place = child Sample.dst_stamped (name src)) /\
    read_file
      (final (collect_csv Sample.fresh (Sample.env MoveWorks false false)
                None true "nse_sgb_data.csv" 180 false)) place = Some f.
Proof.
  apply (collect_csv_success_delivers
           Sample.fresh (Sample.env MoveWorks false false)
           None true "nse_sgb_data.csv" 180%Z false).
  vm_compute. reflexivity.
Defined.

(* ================================================================== *)
(** ** The filter on partial downloads *)
(* ================================================================== *)

Lemma length_append (a b : string) :
  String.length (a ++ b) = (String.length a + String.length b)%nat.
Proof. induction a as [|x a IH]; simpl; [reflexivity | now rewrite IH]. Qed.

Lemma substring_all (s : string) : substring 0 (String.length s) s = s.
Proof. induction s as [|c s IH]; simpl; [reflexivity | now rewrite IH]. Qed.

(** The end of a string from position [i] on. *)
Lemma substring_tail (s : string) (i : nat) :
  (i <= String.length s)%nat ->
  exists pre, s = (pre ++ substring i (String.length s - i) s)%string.
Proof.
  revert i. induction s as [|c s IH]; intros i Hi.
  - exists ""%string. destruct i; reflexivity.
  - destruct i as [|i].
    + exists ""%string. rewrite Nat.sub_0_r, substring_all. reflexivity.
    + simpl in Hi. destruct (IH i) as [pre Hpre]; [lia|].
      exists (String c pre). simpl. now f_equal.
Qed.

Lemma endswith_app (s suf : string) :
  Str.endswith s suf = true -> exists pre, s = (pre ++ suf)%string.
Proof.
  unfold Str.endswith. intros H.
  apply andb_true_iff in H as [Hlen Heq].
  apply Nat.leb_le in Hlen. apply String.eqb_eq in Heq.
  destruct (substring_tail s (String.length s - String.length suf))
    as [pre Hpre]; [lia|].
  exists pre.
  replace (String.length s - (String.length s - String.length suf))%nat
    with (String.length suf) in Hpre by lia.
  now rewrite Heq in Hpre.
Qed.

(** Two ends of the same length of one string are the same. *)
Lemma app_tail_eq (a b c d : string) :
  (a ++ b)%string = (c ++ d)%string ->
  String.length b = String.length d -> b = d.
Proof.
  revert c. induction a as [|x a IH]; intros c Heq Hlen.
  - destruct c as [|y c]; [exact Heq|].
    simpl in Heq. subst b. simpl in Hlen. rewrite length_append in Hlen. lia.
  - destruct c as [|y c].
    + simpl in Heq. subst d. simpl in Hlen. rewrite length_append in Hlen. lia.
    + simpl in Heq. injection Heq as _ Heq. exact (IH c Heq Hlen).
Qed.

Lemma lower_app (a b : string) :
  Str.lower (a ++ b) = (Str.lower a ++ Str.lower b)%string.
Proof.
  unfold Str.lower. induction a as [|x a IH]; simpl;
    [reflexivity | now rewrite IH].
Qed.

Lemma join_last (sep : string) (r : list string) :
  r <> [] -> exists pre, Str.join sep r = (pre ++ last r "")%string.
Proof.
  induction r as [|x r IH]; [congruence|]. intros _.
  destruct r as [|y r].
  - exists ""%string. reflexivity.
  - destruct IH as [pre Hpre]; [discriminate|].
    exists (x ++ sep ++ pre)%string.
    change (Str.join sep (x :: y :: r))
      with (x ++ sep ++ Str.join sep (y :: r))%string.
    change (last (x :: y :: r) ""%string) with (last (y :: r) ""%string).
    now rewrite Hpre, !append_assoc.
Qed.

(** [str(p)] ends with the suffix of [p]. *)
Lemma str_ends_suffix (plat : platform) (p : Path) :
  suffix p <> ""%string ->
  exists pre, str plat p = (pre ++ suffix p)%string.
Proof.
  intros Hs.
  assert (Hname : exists pre, name p = (pre ++ suffix p)%string).
  { unfold suffix in *. destruct (Str.rfind "." (name p)) as [i|];
      [|congruence].
    destruct ((0 <? i)%nat && (i <? String.length (name p) - 1)%nat) eqn:Hc;
      [|congruence].
    apply andb_true_iff in Hc as [_ Hc]. apply Nat.ltb_lt in Hc.
    apply substring_tail. lia. }
  destruct Hname as [pre Hpre].
  destruct p as [|a [|b r]].
  - exfalso. apply Hs. reflexivity.
  - exfalso. apply Hs. reflexivity.
  - destruct (join_last (sep plat) (b :: r)) as [pre' Hpre']; [discriminate|].
    exists (a ++ pre' ++ pre)%string.
    unfold str. rewrite Hpre'.
    change (last (b :: r) ""%string) with (name (a :: b :: r)).
    rewrite Hpre at 1. now rewrite !append_assoc.
Qed.

(** X20.  The filter on partial downloads has nothing left to reject: a
    path whose suffix is [.csv], in any casing, ends with none of
    [.crdownload], [.part] and [.tmp]. *)
Theorem csv_suffix_never_ignored :
  forall (w : world) (p : Path),
  Str.lower (suffix p) = ".csv"%string ->
  has_ignored_suffix w p = false.
Proof.
  intros w p Hcsv.
  destruct (str_ends_suffix (system w) p) as [pre Hpre].
  { intros H. rewrite H in Hcsv. discriminate Hcsv. }
  unfold has_ignored_suffix. rewrite Hpre, lower_app, Hcsv.
  assert (Hno : forall a b : string,
            String.length b = 4%nat -> b <> ".csv"%string ->
            Str.endswith (Str.lower pre ++ ".csv") (a ++ b) = false).
  { intros a b Hlen Hb.
    destruct (Str.endswith (Str.lower pre ++ ".csv") (a ++ b)) eqn:He;
      [|reflexivity].
    exfalso. apply endswith_app in He as [pre' He].
    rewrite <- append_assoc in He.
    apply app_tail_eq in He; [|now rewrite Hlen].
    apply Hb. now symmetry. }
  pose proof (Hno ".crdown" "load" eq_refl)%string as H1.
  pose proof (Hno "." "part" eq_refl)%string as H2.
  pose proof (Hno "" ".tmp" eq_refl)%string as H3.
  change (".crdown" ++ "load")%string with ".crdownload"%string in H1.
  change ("." ++ "part")%string with ".part"%string in H2.
  change ("" ++ ".tmp")%string with ".tmp"%string in H3.
  unfold IGNORE_SUFFIXES. cbn [existsb].
  rewrite H1, H2, H3 by discriminate. reflexivity.
Qed.

Lemma csv_suffix_never_ignored_witness :
  has_ignored_suffix Sample.fresh ["/"; "tmp"; "a.part.CSV"] = false.
Proof.
  apply csv_suffix_never_ignored. reflexivity.
Defined.

(* ================================================================== *)
(** ** [looks_like_csv] *)
(* ================================================================== *)

Lemma lstrip_blank (ws s : string) :
  blank ws = true ->
  DownloadNse.lstrip (ws ++ s) = DownloadNse.lstrip s.
Proof.
  induction ws as [|c ws IH]; intros H; [reflexivity|].
  simpl in H. apply andb_true_iff in H as [Hc H].
  simpl. rewrite Hc. exact (IH H).
Qed.

Lemma rev_string_acc (s acc : string) :
  DownloadNse.rev_string s acc
  = (DownloadNse.rev_string s "" ++ acc)%string.
Proof.
  revert acc. induction s as [|c s IH]; intros acc; [reflexivity|].
  simpl. rewrite (IH (String c acc)), (IH (String c "")).
  now rewrite append_assoc.
Qed.

Lemma rev_string_app (a b : string) :
  DownloadNse.rev_string (a ++ b) ""
  = (DownloadNse.rev_string b "" ++ DownloadNse.rev_string a "")%string.
Proof.
  induction a as [|c a IH]; simpl.
  - now rewrite append_nil_r.
  - rewrite rev_string_acc, IH, (rev_string_acc a (String c "")).
    now rewrite append_assoc.
Qed.

Lemma blank_app (a b : string) :
  blank (a ++ b) = blank a && blank b.
Proof.
  induction a as [|c a IH]; simpl; [reflexivity|].
  now rewrite IH, andb_assoc.
Qed.

Lemma blank_rev (ws : string) :
  blank ws = true -> blank (DownloadNse.rev_string ws "") = true.
Proof.
  induction ws as [|c ws IH]; intros H; [reflexivity|].
  simpl in H. apply andb_true_iff in H as [Hc H].
  simpl. rewrite rev_string_acc, blank_app, (IH H). simpl.
  now rewrite Hc.
Qed.

Lemma rstrip_blank (s ws : string) :
  blank ws = true ->
  DownloadNse.rstrip (s ++ ws) = DownloadNse.rstrip s.
Proof.
  intros H. unfold DownloadNse.rstrip.
  now rewrite rev_string_app, (lstrip_blank _ _ (blank_rev ws H)).
Qed.

Lemma lstrip_of_blank (ws : string) :
  blank ws = true -> DownloadNse.lstrip ws = ""%string.
Proof.
  intros H. rewrite <- (append_nil_r ws). now rewrite lstrip_blank.
Qed.

Lemma strip_blank_r (s ws : string) :
  blank ws = true ->
  DownloadNse.strip (s ++ ws) = DownloadNse.strip s.
Proof.
  intros H. unfold DownloadNse.strip.
  induction s as [|c s IH].
  - simpl append. now rewrite (lstrip_of_blank ws H).
  - simpl. destruct (DownloadNse.is_space c); [exact IH|].
    change (String c (s ++ ws)) with (String c s ++ ws)%string.
    now apply rstrip_blank.
Qed.

(** X21.  White space around the text does not count: the verdict of
    [looks_like_csv] is that of the text without it, so that the line
    break that ends the last line is none of the three it asks for. *)
Theorem looks_like_csv_ignores_margins :
  forall before text after : string,
  blank before = true -> blank after = true ->
  DownloadNse.looks_like_csv (Some (before ++ text ++ after)%string)
  = DownloadNse.looks_like_csv (Some text).
Proof.
  intros before text after Hb Ha.
  assert (Hsome : forall s : string,
            match Some s with
            | None | Some EmptyString => ""%string
            | Some s0 => s0
            end = s) by (intros [|? ?]; reflexivity).
  unfold DownloadNse.looks_like_csv. rewrite !Hsome.
  assert (Hstrip : DownloadNse.strip (before ++ text ++ after)%string
                   = DownloadNse.strip text).
  { rewrite <- append_assoc, (strip_blank_r _ _ Ha).
    unfold DownloadNse.strip. now rewrite (lstrip_blank _ _ Hb). }
  now rewrite Hstrip.
Qed.

(** Three lines, each ended by a line break, are not enough. *)
Lemma looks_like_csv_ignores_margins_witness :
  DownloadNse.looks_like_csv
    (Some (String "010" ("a,b" ++ String "010" ("1,2" ++ String "010"
             ("3,4" ++ String "010" ""))))%string)
  = false.
Proof.
  exact (eq_trans
           (looks_like_csv_ignores_margins
              (String "010" "")
              ("a,b" ++ String "010" ("1,2" ++ String "010" "3,4"))%string
              (String "010" "") eq_refl eq_refl)
           eq_refl).
Defined.

(* ================================================================== *)
(** ** The scan goes on after an item that fails *)
(* ================================================================== *)

Section WalkSteps.

Context {S : Type}.
Variable body : Path -> list string -> list string -> S -> list string * S.


End WalkSteps.





















